(** * RAG_Tech_companies: retrieval pipeline, prompt builder and feedback ledger

    A shallow embedding of [src/pdf_rag_pipeline.py], [src/llm_pipeline.py]
    and [src/telegram_rag_bot.py], and of their callers [main_tg_bot.py]
    and [evaluate_retrieval.py], with the properties of the
    natural-language specification stated against it, followed by further
    properties of the same functions.

    Conventions.
    - A Python [str] is a [string]; each [ascii] stands for one code point in
      U+0000..U+00FF and [String.length] is Python's [len].
    - A Python [int] is a [Z]; list positions are [nat] once they are known
      to be in range.
    - Code that can raise returns a [result]; a [while] loop that need not
      terminate is run with fuel, and [OutOfFuel] stands for a run that has
      not finished within it.
    - Objects mutated in place are threaded as explicit state. *)

From Stdlib Require Import ZArith List Ascii String Lia Bool Sorted.
From Stdlib Require Import Decimal DecimalString DecimalPos DecimalZ.
From stdpp Require Import gmap strings list fin_maps.
Import ListNotations.

Local Open Scope Z_scope.
Set Warnings "-register-all".

(* ===================================================================== *)
(** * Python values and built-ins used by the sources *)
(* ===================================================================== *)

Module Py.

(** Exceptions that the modelled statements can raise. *)
Inductive exn :=
  | IndexError | KeyError | TypeError | AttributeError
  | ZeroDivisionError | FileNotFoundError | JSONDecodeError
  | CollaboratorError (msg : string).

Inductive result (A : Type) :=
  | Ok (a : A)
  | Raise (e : exn)
  | OutOfFuel.
Arguments Ok {A} a.
Arguments Raise {A} e.
Arguments OutOfFuel {A}.

Definition bind {A B} (r : result A) (k : A -> result B) : result B :=
  match r with
  | Ok a => k a
  | Raise e => Raise e
  | OutOfFuel => OutOfFuel
  end.

(** [str.isspace] on the code points below 256: TAB..CR, FS..US, SPACE,
    NEL (U+0085) and NBSP (U+00A0). *)
Definition isspace (c : ascii) : bool :=
  let n := nat_of_ascii c in
  ((9 <=? n)%nat && (n <=? 13)%nat) || ((28 <=? n)%nat && (n <=? 32)%nat)
  || (n =? 133)%nat || (n =? 160)%nat.

Definition is_empty (s : string) : bool :=
  match s with EmptyString => true | String _ _ => false end.

(** [s.split()]: the maximal runs of non-whitespace characters, in order.
    [w] is the word being read. *)
Fixpoint split_from (w : string) (s : string) : list string :=
  match s with
  | EmptyString => if is_empty w then [] else [w]
  | String c s' =>
      if isspace c
      then (if is_empty w then split_from EmptyString s'
            else w :: split_from EmptyString s')
      else split_from (w +:+ String c EmptyString) s'
  end.

Definition split (s : string) : list string := split_from EmptyString s.

(** [sep.join(ws)] *)
Fixpoint join (sep : string) (ws : list string) : string :=
  match ws with
  | [] => EmptyString
  | [w] => w
  | w :: ws' => w +:+ sep +:+ join sep ws'
  end.

Fixpoint lstrip (s : string) : string :=
  match s with
  | EmptyString => EmptyString
  | String c s' => if isspace c then lstrip s' else s
  end.

Fixpoint rstrip (s : string) : string :=
  match s with
  | EmptyString => EmptyString
  | String c s' =>
      let r := rstrip s' in
      if isspace c && is_empty r then EmptyString else String c r
  end.

(** [s.strip()] *)
Definition strip (s : string) : string := rstrip (lstrip s).

(** [len(s)] as an [int]. *)
Definition len (s : string) : Z := Z.of_nat (String.length s).

(** One bound of a slice, as CPython normalises it against [n = len(l)]:
    a negative bound counts from the end, and the result is clamped
    to [0..n]. *)
Definition slice_bound (n i : Z) : Z :=
  if i <? 0 then Z.max (i + n) 0 else Z.min i n.

(** [l[start:stop]] *)
Definition slice {A} (l : list A) (start stop : Z) : list A :=
  let n := Z.of_nat (length l) in
  let a := slice_bound n start in
  let b := slice_bound n stop in
  take (Z.to_nat (b - a)) (drop (Z.to_nat a) l).

(** [x in s] for strings: [x] occurs in [s] as a contiguous substring. *)
Definition contains (x s : string) : Prop :=
  exists pre post, s = pre +:+ x +:+ post.

(** Objects held by the bot's [stats] and [qa_log] attributes: the values
    that [json.load] builds and [json.dump] writes back unchanged ([None],
    [int], [str], [list], and [dict] with string keys in insertion order).
    Floats and booleans never arise from the bot's own operations and are
    left out. *)
Inductive value :=
  | PNone
  | PInt (n : Z)
  | PStr (s : string)
  | PList (l : list value)
  | PDict (d : list (string * value)).

Fixpoint dict_get (k : string) (d : list (string * value)) : option value :=
  match d with
  | [] => None
  | (k', v) :: d' => if String.eqb k k' then Some v else dict_get k d'
  end.

(** [d[k] = v] on a dict: an existing key keeps its position, a new key
    goes last. *)
Fixpoint dict_set (k : string) (v : value) (d : list (string * value))
  : list (string * value) :=
  match d with
  | [] => [(k, v)]
  | (k', v') :: d' =>
      if String.eqb k k' then (k', v) :: d' else (k', v') :: dict_set k v d'
  end.

(** [o[k]] with a string subscript. *)
Definition getitem (o : value) (k : string) : result value :=
  match o with
  | PDict d =>
      match dict_get k d with
      | Some v => Ok v
      | None => Raise KeyError
      end
  | _ => Raise TypeError
  end.

(** [o[k] = v] with a string subscript. *)
Definition setitem (o : value) (k : string) (v : value) : result value :=
  match o with
  | PDict d => Ok (PDict (dict_set k v d))
  | _ => Raise TypeError
  end.

(** [v + 1] *)
Definition add1 (v : value) : result value :=
  match v with
  | PInt n => Ok (PInt (n + 1))
  | _ => Raise TypeError
  end.

(** [o[k] += 1] *)
Definition iadd_item (o : value) (k : string) : result value :=
  bind (getitem o k) (fun v => bind (add1 v) (fun v' => setitem o k v')).

(** [o.append(x)]: only lists have the method. *)
Definition append (o : value) (x : value) : result value :=
  match o with
  | PList l => Ok (PList (l ++ [x]))
  | _ => Raise AttributeError
  end.

(** Truth value of an object in a condition. *)
Definition truthy (o : value) : bool :=
  match o with
  | PNone => false
  | PInt n => negb (n =? 0)
  | PStr s => negb (is_empty s)
  | PList l => match l with [] => false | _ => true end
  | PDict d => match d with [] => false | _ => true end
  end.

Fixpoint last_char (s : string) : string :=
  match s with
  | EmptyString => EmptyString
  | String c EmptyString => s
  | String _ s' => last_char s'
  end.

(** [o[-1]] *)
Definition getitem_last (o : value) : result value :=
  match o with
  | PList l =>
      match last l with
      | Some x => Ok x
      | None => Raise IndexError
      end
  | PStr s => if is_empty s then Raise IndexError else Ok (PStr (last_char s))
  | PDict _ => Raise KeyError
  | _ => Raise TypeError
  end.

(** [o[-1][k] = v]: the last element is updated in place. The statement is
    only reached on a non-empty list; elsewhere it raises as [o[-1]] does. *)
Definition setitem_last (o : value) (k : string) (v : value) : result value :=
  match o with
  | PList l =>
      match last l with
      | Some x =>
          bind (setitem x k v)
               (fun x' => Ok (PList (take (length l - 1)%nat l ++ [x'])))
      | None => Raise IndexError
      end
  | PStr s => if is_empty s then Raise IndexError else Raise TypeError
  | PDict _ => Raise KeyError
  | _ => Raise TypeError
  end.

Definition is_None (v : value) : bool :=
  match v with PNone => true | _ => false end.

End Py.

Import Py.

(* ===================================================================== *)
(** * The [json] module, as the bot uses it *)
(* ===================================================================== *)

(** A model of [json.dump(obj, f, ensure_ascii=False, indent=4)] and of
    [json.load(f)] on [value]. Texts with floats, booleans or [\u] escapes
    above 00FF have no [value] and are refused like malformed ones. *)
Module Json.

Import Py.

Definition dq : ascii := "034"%char.
Definition bs : ascii := "092"%char.
Definition nl : string := String "010"%char EmptyString.

(** ** [json.dump(obj, f, ensure_ascii=False, indent=4)] *)

Definition hex_char (n : nat) : ascii :=
  match n with
  | 0 => "0" | 1 => "1" | 2 => "2" | 3 => "3" | 4 => "4" | 5 => "5"
  | 6 => "6" | 7 => "7" | 8 => "8" | 9 => "9" | 10 => "a" | 11 => "b"
  | 12 => "c" | 13 => "d" | 14 => "e" | _ => "f"
  end%nat%char.

(** One character of a string, as [ESCAPE] and [ESCAPE_DCT] of
    [json.encoder] replace it. *)
Definition escape_char (c : ascii) : string :=
  let n := nat_of_ascii c in
  if (n =? 34)%nat then String bs (String dq EmptyString)
  else if (n =? 92)%nat then String bs (String bs EmptyString)
  else if (n =? 8)%nat then String bs "b"
  else if (n =? 12)%nat then String bs "f"
  else if (n =? 10)%nat then String bs "n"
  else if (n =? 13)%nat then String bs "r"
  else if (n =? 9)%nat then String bs "t"
  else if (n <? 32)%nat
       then String bs ("u00" +:+ String (hex_char (n / 16))
                                   (String (hex_char (n mod 16)) EmptyString))
  else String c EmptyString.

Fixpoint escape (s : string) : string :=
  match s with
  | EmptyString => EmptyString
  | String c s' => escape_char c +:+ escape s'
  end.

Definition encode_str (s : string) : string :=
  String dq (escape s +:+ String dq EmptyString).

(** [repr] of an [int]. *)
Definition int_repr (n : Z) : string :=
  match Z.to_int n with
  | Decimal.Pos d => NilEmpty.string_of_uint d
  | Decimal.Neg d => String "-" (NilEmpty.string_of_uint d)
  end.

Fixpoint spaces (n : nat) : string :=
  match n with
  | O => EmptyString
  | S n' => String " " (spaces n')
  end.

(** The line break and indentation in front of an item at depth [lvl]. *)
Definition newline_indent (lvl : nat) : string := nl +:+ spaces (4 * lvl).

Fixpoint dumps_at (lvl : nat) (v : value) : string :=
  match v with
  | PNone => "null"
  | PInt n => int_repr n
  | PStr s => encode_str s
  | PList l =>
      match l with
      | [] => "[]"
      | _ =>
          "[" +:+ newline_indent (S lvl)
          +:+ join ("," +:+ newline_indent (S lvl)) (map (dumps_at (S lvl)) l)
          +:+ newline_indent lvl +:+ "]"
      end
  | PDict d =>
      match d with
      | [] => "{}"
      | _ =>
          "{" +:+ newline_indent (S lvl)
          +:+ join ("," +:+ newline_indent (S lvl))
                (map (fun kv => encode_str (fst kv) +:+ ": "
                                +:+ dumps_at (S lvl) (snd kv)) d)
          +:+ newline_indent lvl +:+ "}"
      end
  end.

Definition dumps (v : value) : string := dumps_at 0 v.

(** ** [json.load(f)] *)

(** [WHITESPACE] of [json.decoder]: space, tab, line feed, carriage
    return. *)
Definition is_ws (c : ascii) : bool :=
  let n := nat_of_ascii c in
  (n =? 32)%nat || (n =? 9)%nat || (n =? 10)%nat || (n =? 13)%nat.

Fixpoint skip_ws (s : string) : string :=
  match s with
  | EmptyString => EmptyString
  | String c s' => if is_ws c then skip_ws s' else s
  end.

Definition hex_value (c : ascii) : option nat :=
  let n := nat_of_ascii c in
  if (48 <=? n)%nat && (n <=? 57)%nat then Some (n - 48)%nat
  else if (97 <=? n)%nat && (n <=? 102)%nat then Some (n - 87)%nat
  else if (65 <=? n)%nat && (n <=? 70)%nat then Some (n - 55)%nat
  else None.

(** Where [py_scanstring] stands inside a string: between characters,
    after a backslash, or after [k] of the four hex digits of a [\u]
    escape whose value so far is [acc]. *)
Inductive scan_state :=
  | Plain
  | Escape
  | Hex (k : nat) (acc : nat).

Definition cons_char (c : ascii) (r : option (string * string))
  : option (string * string) :=
  match r with
  | Some (t, rest) => Some (String c t, rest)
  | None => None
  end.

(** [py_scanstring] from the character after the opening quote: the
    decoded content and the text after the closing quote. Control
    characters must be escaped (strict mode); a [\u] escape above 00FF has
    no character in this model and is refused. *)
Fixpoint scan (st : scan_state) (s : string) : option (string * string) :=
  match s with
  | EmptyString => None
  | String c s' =>
      let n := nat_of_ascii c in
      match st with
      | Plain =>
          if (n =? 34)%nat then Some (EmptyString, s')
          else if (n =? 92)%nat then scan Escape s'
          else if (n <? 32)%nat then None
          else cons_char c (scan Plain s')
      | Escape =>
          if (n =? 34)%nat then cons_char dq (scan Plain s')
          else if (n =? 92)%nat then cons_char bs (scan Plain s')
          else if (n =? 47)%nat then cons_char "/" (scan Plain s')
          else if (n =? 98)%nat then cons_char "008" (scan Plain s')
          else if (n =? 102)%nat then cons_char "012" (scan Plain s')
          else if (n =? 110)%nat then cons_char "010" (scan Plain s')
          else if (n =? 114)%nat then cons_char "013" (scan Plain s')
          else if (n =? 116)%nat then cons_char "009" (scan Plain s')
          else if (n =? 117)%nat then scan (Hex 0 0) s'
          else None
      | Hex k acc =>
          match hex_value c with
          | Some h =>
              let acc' := (acc * 16 + h)%nat in
              if (k =? 3)%nat
              then (if (acc' <? 256)%nat
                    then cons_char (ascii_of_nat acc') (scan Plain s')
                    else None)
              else scan (Hex (S k) acc') s'
          | None => None
          end
      end
  end.

Definition digit_of (c : ascii) : option (Decimal.uint -> Decimal.uint) :=
  match nat_of_ascii c with
  | 48 => Some Decimal.D0 | 49 => Some Decimal.D1 | 50 => Some Decimal.D2
  | 51 => Some Decimal.D3 | 52 => Some Decimal.D4 | 53 => Some Decimal.D5
  | 54 => Some Decimal.D6 | 55 => Some Decimal.D7 | 56 => Some Decimal.D8
  | 57 => Some Decimal.D9
  | _ => None
  end%nat.

(** The longest run of decimal digits at the head of [s]. *)
Fixpoint read_uint (s : string) : Decimal.uint * string :=
  match s with
  | EmptyString => (Decimal.Nil, EmptyString)
  | String c s' =>
      match digit_of c with
      | Some d => let '(u, rest) := read_uint s' in (d u, rest)
      | None => (Decimal.Nil, s)
      end
  end.

(** A fraction or an exponent follows: the number is a float. *)
Definition float_follows (s : string) : bool :=
  match s with
  | EmptyString => false
  | String c _ =>
      let n := nat_of_ascii c in
      (n =? 46)%nat || (n =? 101)%nat || (n =? 69)%nat
  end.

(** [NUMBER_RE]: the integer part of a number, a single 0 or a run of
    digits that starts with another digit; floats are outside the model
    and refused. *)
Definition read_nat (s : string) : option (Z * string) :=
  match s with
  | EmptyString => None
  | String c s' =>
      if (nat_of_ascii c =? 48)%nat
      then (if float_follows s' then None else Some (0, s'))
      else
        match read_uint s with
        | (Decimal.Nil, _) => None
        | (u, rest) =>
            if float_follows rest then None else Some (Z.of_uint u, rest)
        end
  end.

Definition read_int (s : string) : option (Z * string) :=
  match s with
  | EmptyString => None
  | String c s' =>
      if (nat_of_ascii c =? 45)%nat
      then match read_nat s' with
           | Some (n, rest) => Some (- n, rest)
           | None => None
           end
      else read_nat s
  end.

(** [dict(pairs)]: a repeated key keeps its first position and takes the
    last value. *)
Definition dict_of_pairs (pairs : list (string * value))
  : list (string * value) :=
  fold_left (fun d kv => dict_set (fst kv) (snd kv) d) pairs [].

Definition expect (c : nat) (s : string) : option string :=
  match s with
  | EmptyString => None
  | String c' s' => if (nat_of_ascii c' =? c)%nat then Some s' else None
  end.

(** [scan_once], [JSONArray] and [JSONObject]. [read_value] decodes the
    value that starts at the head of [s]; [read_items] the items of an
    array up to its closing bracket; [read_members] the members of an
    object up to its closing brace. Each call uses one unit of [fuel]. *)
Fixpoint read_value (fuel : nat) (s : string) : option (value * string) :=
  match fuel with
  | O => None
  | S fuel' =>
      match s with
      | EmptyString => None
      | String c s' =>
          let n := nat_of_ascii c in
          if (n =? 34)%nat then
            match scan Plain s' with
            | Some (t, rest) => Some (PStr t, rest)
            | None => None
            end
          else if (n =? 91)%nat then
            match expect 93 (skip_ws s') with
            | Some rest => Some (PList [], rest)
            | None =>
                match read_items fuel' (skip_ws s') with
                | Some (vs, rest) => Some (PList vs, rest)
                | None => None
                end
            end
          else if (n =? 123)%nat then
            match expect 125 (skip_ws s') with
            | Some rest => Some (PDict [], rest)
            | None =>
                match read_members fuel' (skip_ws s') with
                | Some (kvs, rest) => Some (PDict (dict_of_pairs kvs), rest)
                | None => None
                end
            end
          else if (n =? 110)%nat then
            match expect 117 s' with
            | Some s1 =>
                match expect 108 s1 with
                | Some s2 =>
                    match expect 108 s2 with
                    | Some rest => Some (PNone, rest)
                    | None => None
                    end
                | None => None
                end
            | None => None
            end
          else
            match read_int s with
            | Some (z, rest) => Some (PInt z, rest)
            | None => None
            end
      end
  end

with read_items (fuel : nat) (s : string) : option (list value * string) :=
  match fuel with
  | O => None
  | S fuel' =>
      match read_value fuel' s with
      | Some (v, rest) =>
          let rest := skip_ws rest in
          match expect 44 rest with
          | Some rest' =>
              match read_items fuel' (skip_ws rest') with
              | Some (vs, rest'') => Some (v :: vs, rest'')
              | None => None
              end
          | None =>
              match expect 93 rest with
              | Some rest' => Some ([v], rest')
              | None => None
              end
          end
      | None => None
      end
  end

with read_members (fuel : nat) (s : string)
  : option (list (string * value) * string) :=
  match fuel with
  | O => None
  | S fuel' =>
      match expect 34 s with
      | Some s1 =>
          match scan Plain s1 with
          | Some (key, s2) =>
              match expect 58 (skip_ws s2) with
              | Some s3 =>
                  match read_value fuel' (skip_ws s3) with
                  | Some (v, rest) =>
                      let rest := skip_ws rest in
                      match expect 44 rest with
                      | Some rest' =>
                          match read_members fuel' (skip_ws rest') with
                          | Some (kvs, rest'') =>
                              Some ((key, v) :: kvs, rest'')
                          | None => None
                          end
                      | None =>
                          match expect 125 rest with
                          | Some rest' => Some ([(key, v)], rest')
                          | None => None
                          end
                      end
                  | None => None
                  end
              | None => None
              end
          | None => None
          end
      | None => None
      end
  end.

(** [json.loads(text)]: one value, with whitespace around it and nothing
    else. [None] is a [JSONDecodeError], or a document with a float, a
    boolean or a character above U+00FF, which [value] cannot hold. *)
Definition loads (text : string) : option value :=
  match read_value (String.length text) (skip_ws text) with
  | Some (v, rest) => if is_empty (skip_ws rest) then Some v else None
  | None => None
  end.

(** A value as Python holds it: no dict has a key twice. *)
Fixpoint distinct (ks : list string) : bool :=
  match ks with
  | [] => true
  | k :: rest => negb (existsb (String.eqb k) rest) && distinct rest
  end.

Fixpoint well_formed (v : value) : bool :=
  match v with
  | PList l => forallb well_formed l
  | PDict d =>
      distinct (map fst d) && forallb (fun kv => well_formed (snd kv)) d
  | _ => true
  end.

(** Fuel that [read_value] needs for the text of [v]. *)
Fixpoint cost (v : value) : nat :=
  match v with
  | PList l => S (list_sum (map (fun x => S (cost x)) l))
  | PDict d => S (list_sum (map (fun kv => S (cost (snd kv))) d))
  | _ => 1
  end.

(** ** Notions used to state what the decoder reads back *)

(** What may follow a value in the output of [dumps_at]: nothing, a
    comma or a line feed. *)
Definition delimited (rest : string) : Prop :=
  match rest with
  | EmptyString => True
  | String c _ => nat_of_ascii c = 44%nat \/ nat_of_ascii c = 10%nat
  end.

(** A digit string that [repr] can give for a positive [int]: not empty,
    no leading zero. *)
Definition leading_nonzero (d : Decimal.uint) : Prop :=
  match d with
  | Decimal.Nil | Decimal.D0 _ => False
  | _ => True
  end.

(** The first character of a printed value: not whitespace, not a closing
    bracket. *)
Definition opens_value (s : string) : Prop :=
  match s with
  | EmptyString => False
  | String c _ =>
      is_ws c = false /\ nat_of_ascii c <> 93%nat /\ nat_of_ascii c <> 125%nat
  end.

(** The text of one member of an object. *)
Definition member (lvl : nat) (kv : string * value) : string :=
  encode_str (fst kv) +:+ ": " +:+ dumps_at lvl (snd kv).

(** [v] is read back from its text, at any depth and in front of any
    delimiter. *)
Definition reads (v : value) : Prop :=
  well_formed v = true ->
  forall (lvl fuel : nat) (rest : string),
    (cost v <= fuel)%nat -> delimited rest ->
    read_value fuel (dumps_at lvl v +:+ rest) = Some (v, rest).

(** What [dumps_at] puts between two items at depth [lvl]. *)
Definition item_separator (lvl : nat) : string := "," +:+ newline_indent lvl.

End Json.

(* ===================================================================== *)
(** * [src/pdf_rag_pipeline.py] *)
(* ===================================================================== *)

Module PDFRAGPipeline.

(** [{"page": ..., "text": ...}] *)
Record Page := mkPage { page_number : Z; page_text : string }.

(** [{"page": ..., "chunk": ...}] *)
Record Chunk := mkChunk { page : Z; chunk : string }.

(** The file named by [self.pdf_path], as each reader hands it over:
    [plumber_pages] is [page.extract_text()] for the pages of
    [pdfplumber.open(path).pdf.pages] ([None] when a page has no text layer),
    [miner_text] is [pdfminer.high_level.extract_text(path)], and
    [pypdf2_pages] is [page.extract_text()] for [PyPDF2.PdfReader(f).pages]. *)
Record PdfFile := mkPdf {
  plumber_pages : list (option string);
  miner_text : string;
  pypdf2_pages : list (option string)
}.

(** The [BM25Okapi] object: the tokenised corpus it was built from. *)
Definition BM25 := list (list string).

Record t := mk {
  pdf_path : PdfFile;
  chunk_size : Z;
  overlap : Z;
  pages : option (list Page);
  chunks : option (list Chunk);
  bm25 : option BM25
}.

(** [PDFRAGPipeline(pdf_path, chunk_size, overlap)] *)
Definition init (pdf : PdfFile) (chunk_size overlap : Z) : t :=
  mk pdf chunk_size overlap None None None.

Definition set_pages (self : t) (ps : list Page) : t :=
  mk (pdf_path self) (chunk_size self) (overlap self) (Some ps)
     (chunks self) (bm25 self).

Definition set_chunks (self : t) (cs : list Chunk) : t :=
  mk (pdf_path self) (chunk_size self) (overlap self) (pages self)
     (Some cs) (bm25 self).

Definition set_bm25 (self : t) (ix : BM25) : t :=
  mk (pdf_path self) (chunk_size self) (overlap self) (pages self)
     (chunks self) (Some ix).

(** ** Page extraction *)

(** The loop of [extract_pages] and [extract_pages_pypdf2]:
    [for i, page in enumerate(...): text = page.extract_text();
     if text: pages.append({"page": i + 1, "text": text.strip()})].
    [if text] is false for [None] and for the empty string. *)
Fixpoint extract_loop (i : Z) (texts : list (option string)) : list Page :=
  match texts with
  | [] => []
  | None :: rest => extract_loop (i + 1) rest
  | Some text :: rest =>
      if negb (is_empty text)
      then mkPage (i + 1) (strip text) :: extract_loop (i + 1) rest
      else extract_loop (i + 1) rest
  end.

Definition extract_pages (self : t) : t * list Page :=
  let pages := extract_loop 0 (plumber_pages (pdf_path self)) in
  (set_pages self pages, pages).

Definition extract_pages_pypdf2 (self : t) : t * list Page :=
  let pages := extract_loop 0 (pypdf2_pages (pdf_path self)) in
  (set_pages self pages, pages).

Definition form_feed : ascii := "012"%char.

Definition is_ff (c : ascii) : bool := (nat_of_ascii c =? 12)%nat.

(** [re.split(r'\f+', s)]: [s] cut at every maximal run of form feeds; the
    pieces before a leading run and after a trailing run are empty strings.
    [in_run] tells that the previous character was a form feed, [w] is the
    piece being read. *)
Fixpoint re_split_ff_from (in_run : bool) (w : string) (s : string)
  : list string :=
  match s with
  | EmptyString => [w]
  | String c s' =>
      if is_ff c
      then (if in_run then re_split_ff_from true EmptyString s'
            else w :: re_split_ff_from true EmptyString s')
      else re_split_ff_from false (w +:+ String c EmptyString) s'
  end.

Definition re_split_ff (s : string) : list string :=
  re_split_ff_from false EmptyString s.

(** The loop of [extract_pages_pdfminer]:
    [for i, text in enumerate(raw_pages): text = text.strip();
     if text: pages.append({"page": i + 1, "text": text})]. *)
Fixpoint miner_loop (i : Z) (raw_pages : list string) : list Page :=
  match raw_pages with
  | [] => []
  | text :: rest =>
      let text := strip text in
      if negb (is_empty text)
      then mkPage (i + 1) text :: miner_loop (i + 1) rest
      else miner_loop (i + 1) rest
  end.

Definition extract_pages_pdfminer (self : t) : t * list Page :=
  let full_text := miner_text (pdf_path self) in
  let raw_pages := re_split_ff full_text in
  let pages := miner_loop 0 raw_pages in
  (set_pages self pages, pages).

(** ** Chunking *)

(** The body of [while start < len(words)] in [split_pages], for one page.
    [acc] is [all_chunks]. *)
Fixpoint chunk_loop (fuel : nat) (size ovl : Z) (page_no : Z)
    (words : list string) (start : Z) (acc : list Chunk)
  : result (list Chunk) :=
  match fuel with
  | O => OutOfFuel
  | S fuel' =>
      if start <? Z.of_nat (length words) then
        let chunk_words := slice words start (start + size) in
        let chunk_text := join " " chunk_words in
        let acc' :=
          if 20 <? len chunk_text
          then acc ++ [mkChunk page_no chunk_text]
          else acc in
        chunk_loop fuel' size ovl page_no words (start + (size - ovl)) acc'
      else Ok acc
  end.

(** [for page in self.pages: ...]; every [while] loop gets [fuel] steps. *)
Fixpoint pages_loop (fuel : nat) (size ovl : Z) (ps : list Page)
    (acc : list Chunk) : result (list Chunk) :=
  match ps with
  | [] => Ok acc
  | p :: rest =>
      let words := split (page_text p) in
      bind (chunk_loop fuel size ovl (page_number p) words 0 acc)
           (fun acc' => pages_loop fuel size ovl rest acc')
  end.

(** [if self.pages is None: self.extract_pages()] *)
Definition ensure_pages (self : t) : t * list Page :=
  match pages self with
  | None => extract_pages self
  | Some ps => (self, ps)
  end.

Definition split_pages (fuel : nat) (self : t) : t * result (list Chunk) :=
  let '(self1, ps) := ensure_pages self in
  match pages_loop fuel (chunk_size self1) (overlap self1) ps [] with
  | Ok all_chunks => (set_chunks self1 all_chunks, Ok all_chunks)
  | Raise e => (self1, Raise e)
  | OutOfFuel => (self1, OutOfFuel)
  end.

(** ** Index and search *)

(** [BM25Okapi(tokenized_chunks)] of [rank_bm25]: the constructor divides by
    the corpus size and by the vocabulary size, so a corpus without any
    token raises [ZeroDivisionError]. *)
Definition BM25Okapi (corpus : list (list string)) : result BM25 :=
  if forallb (fun d => match d with [] => true | _ => false end) corpus
  then Raise ZeroDivisionError
  else Ok corpus.

(** [if self.chunks is None: self.split_pages()] *)
Definition ensure_chunks (fuel : nat) (self : t) : t * result (list Chunk) :=
  match chunks self with
  | None => split_pages fuel self
  | Some cs => (self, Ok cs)
  end.

Definition build_index (fuel : nat) (self : t) : t * result BM25 :=
  let '(self1, r) := ensure_chunks fuel self in
  match r with
  | Ok cs =>
      let tokenized_chunks := map (fun c => split (chunk c)) cs in
      match BM25Okapi tokenized_chunks with
      | Ok ix => (set_bm25 self1 ix, Ok ix)
      | Raise e => (self1, Raise e)
      | OutOfFuel => (self1, OutOfFuel)
      end
  | Raise e => (self1, Raise e)
  | OutOfFuel => (self1, OutOfFuel)
  end.

(** [if self.bm25 is None: self.build_index()] *)
Definition ensure_index (fuel : nat) (self : t) : t * result BM25 :=
  match bm25 self with
  | None => build_index fuel self
  | Some ix => (self, Ok ix)
  end.

(** [[cs[i] for i in idx]] *)
Fixpoint select {A} (cs : list A) (idx : list nat) : result (list A) :=
  match idx with
  | [] => Ok []
  | i :: rest =>
      match cs !! i with
      | Some c => bind (select cs rest) (fun r => Ok (c :: r))
      | None => Raise IndexError
      end
  end.

Section Search.

(** The scores are the floats of a numpy array; the code only compares
    them, so they are kept abstract: [lt] is Python's [<] on them. *)
Context {score : Type} (lt : score -> score -> bool).

(** [self.bm25.get_scores(query_tokens)]: one score per document of the
    corpus the index was built from. *)
Context (get_scores : BM25 -> list string -> list score).

(** One insertion step of a stable descending sort: [x], which stood
    before every element of [l] in the input, moves right only past
    strictly larger keys. *)
Fixpoint insert_desc (x : nat * score) (l : list (nat * score))
  : list (nat * score) :=
  match l with
  | [] => [x]
  | y :: l' => if lt (snd x) (snd y) then y :: insert_desc x l' else x :: l
  end.

(** [range(len(scores))], each index [i] carried with its key
    [scores[i]]. *)
Fixpoint keyed_from (i : nat) (scores : list score) : list (nat * score) :=
  match scores with
  | [] => []
  | s :: rest => (i, s) :: keyed_from (S i) rest
  end.

(** [sorted(range(len(scores)), key=lambda i: scores[i], reverse=True)].
    Python's sort is stable, also with [reverse=True]: indices with equal
    keys stay in their original order. *)
Definition sorted_reverse (scores : list score) : list nat :=
  map fst (foldr insert_desc [] (keyed_from 0 scores)).

Definition top_indices (scores : list score) (top_k : Z) : list nat :=
  slice (sorted_reverse scores) 0 top_k.

Definition search_query (fuel : nat) (self : t) (query : string)
    (top_k : Z) : t * result (list Chunk) :=
  let '(self1, r) := ensure_index fuel self in
  match r with
  | Ok ix =>
      let query_tokens := split query in
      let scores := get_scores ix query_tokens in
      let idx := top_indices scores top_k in
      match chunks self1 with
      | Some cs => (self1, select cs idx)
      | None => (self1, Raise TypeError)
      end
  | Raise e => (self1, Raise e)
  | OutOfFuel => (self1, OutOfFuel)
  end.

End Search.

(** ** Chunk files *)

(** The pickle files: the chunk list each holds. [pickle.load] gives back
    a list equal to the one [pickle.dump] was given; writing succeeds. *)
Abbreviation chunk_files := (gmap string (list Chunk)).

(** [save_chunks]: [if self.chunks is None: self.split_pages()], then
    [pickle.dump(self.chunks, f)]. *)
Definition save_chunks (fuel : nat) (self : t) (files : chunk_files)
    (chunks_path : string) : t * chunk_files * result unit :=
  let '(self1, r) := ensure_chunks fuel self in
  match r with
  | Ok cs => (self1, <[chunks_path := cs]> files, Ok tt)
  | Raise e => (self1, files, Raise e)
  | OutOfFuel => (self1, files, OutOfFuel)
  end.

(** [load_chunks]: [self.chunks = pickle.load(f)]; there is no [try], so a
    missing file raises. *)
Definition load_chunks (self : t) (files : chunk_files) (chunks_path : string)
  : t * result (list Chunk) :=
  match files !! chunks_path with
  | Some cs => (set_chunks self cs, Ok cs)
  | None => (self, Raise FileNotFoundError)
  end.

End PDFRAGPipeline.

(* ===================================================================== *)
(** * [src/llm_pipeline.py] *)
(* ===================================================================== *)

Module LLMPipeline.

(** [self.model_pipeline] is the text-generation collaborator: called with
    the prompt, [max_length] and [do_sample], it returns a list of dicts,
    each with or without a ['generated_text'] entry, or raises. *)
Record t := mk {
  model_pipeline : string -> Z -> bool -> result (list (option string));
  max_length : Z;
  do_sample : bool
}.

Definition nl : string := String "010"%char EmptyString.
Definition dquote : string := String "034"%char EmptyString.

(** The second line of the prompt. *)
Definition instruction : string :=
  "If the answer is not contained in the context, say "
  +:+ dquote +:+ "I don't know." +:+ dquote.

(** The f-string of [generate_answer]. *)
Definition prompt (query context : string) : string :=
  "Use the following context extracted from the document to answer the question."
  +:+ nl +:+ instruction +:+ nl
  +:+ nl +:+ "Context:" +:+ nl
  +:+ context +:+ nl
  +:+ nl +:+ "Question:" +:+ nl
  +:+ query +:+ nl
  +:+ nl +:+ "Answer:".

(** The fixed text around the two holes of the prompt. *)
Definition prompt_head : string :=
  "Use the following context extracted from the document to answer the question."
  +:+ nl +:+ instruction +:+ nl +:+ nl +:+ "Context:" +:+ nl.
Definition prompt_middle : string := nl +:+ nl +:+ "Question:" +:+ nl.
Definition prompt_tail : string := nl +:+ nl +:+ "Answer:".

(** [result[0]['generated_text'].strip()] *)
Definition generated_text (res : list (option string)) : result string :=
  match res with
  | [] => Raise IndexError
  | None :: _ => Raise KeyError
  | Some text :: _ => Ok (strip text)
  end.

Definition generate_answer (self : t) (query context : string)
  : result string :=
  bind (model_pipeline self (prompt query context)
          (max_length self) (do_sample self))
       generated_text.

(** The f-string of [generate_answer_no_context]. *)
Definition prompt_no_context (query : string) : string :=
  "Answer the following question:" +:+ nl
  +:+ query +:+ nl
  +:+ nl +:+ "Answer:".

Definition generate_answer_no_context (self : t) (query : string)
  : result string :=
  bind (model_pipeline self (prompt_no_context query)
          (max_length self) (do_sample self))
       generated_text.

End LLMPipeline.

(* ===================================================================== *)
(** * [src/telegram_rag_bot.py] *)
(* ===================================================================== *)

Module TelegramRAGBot.

Import PDFRAGPipeline.

(** Texts sent to the chat. [AnswerMsg page answer] is the f-string
    "Ответ (retrieved from page {page}):\n{answer}\n\nОцените, верный ли ответ:"
    sent with the two feedback buttons; [ErrorMsg] is
    "Произошла ошибка при обработке запроса. Попробуйте позже.";
    [ThanksCorrect] and [ThanksIncorrect] are the two
    "Спасибо за обратную связь! ..." acknowledgements. *)
Inductive message :=
  | AnswerMsg (retrieved_page : Z) (answer : string)
  | ErrorMsg
  | ThanksCorrect
  | ThanksIncorrect.

Inductive output :=
  | reply_text (m : message)
  | logger_error (e : exn)
  | logger_info (path : string).

(** The files at [stats_path] and [qa_log_path]: the text each holds.
    Writing always succeeds here; the sources log and swallow a failed
    write. *)
Abbreviation storage := (gmap string string).

Section Bot.

(** [retrieval_pipeline] is any object with a [search_query] method
    ("например, экземпляр PDFRAGPipeline"); [R] is its state. *)
Context {R : Type}.
Context (search_query : R -> string -> Z -> R * result (list Chunk)).

(** [json.dump(obj, f, ensure_ascii=False, indent=4)], the text it writes,
    and [json.load(f)] on the text of a file, [None] when it raises. *)
Context (json_dump : value -> string).
Context (json_load : string -> option value).

Record t := mk {
  retrieval_pipeline : R;
  llm_pipeline : LLMPipeline.t;
  stats_path : string;
  qa_log_path : string;
  stats : value;
  qa_log : value
}.

Definition initial_stats : value :=
  PDict [("total", PInt 0); ("correct", PInt 0); ("incorrect", PInt 0)].

(** [TelegramRAGBot(token, retrieval_pipeline, llm_pipeline, stats_path,
    qa_log_path)] *)
Definition init (rp : R) (llm : LLMPipeline.t) (stats_path qa_log_path : string)
  : t :=
  mk rp llm stats_path qa_log_path initial_stats (PList []).

Definition set_retrieval (self : t) (rp : R) : t :=
  mk rp (llm_pipeline self) (stats_path self) (qa_log_path self)
     (stats self) (qa_log self).

Definition set_stats (self : t) (v : value) : t :=
  mk (retrieval_pipeline self) (llm_pipeline self) (stats_path self)
     (qa_log_path self) v (qa_log self).

Definition set_qa_log (self : t) (v : value) : t :=
  mk (retrieval_pipeline self) (llm_pipeline self) (stats_path self)
     (qa_log_path self) (stats self) v.

(** The dict literal of [answer_query]. A chunk always has both of its
    keys, so the defaults of the two [.get] calls are never used. *)
Definition qa_record (user_query context_text : string) (retrieved_page : Z)
    (answer : string) : value :=
  PDict [("query", PStr user_query);
         ("retrieval_context", PStr context_text);
         ("retrieved_page", PInt retrieved_page);
         ("generated_answer", PStr answer);
         ("feedback", PNone)].

(** The [try] block of [answer_query], up to the reply. *)
Definition answer_try (self : t) (user_query : string)
  : t * result message :=
  let '(rp, r) := search_query (retrieval_pipeline self) user_query 1 in
  let self := set_retrieval self rp in
  match r with
  | Ok [] => (self, Raise IndexError)
  | Ok (retrieval_result :: _) =>
      let context_text := chunk retrieval_result in
      let retrieved_page := page retrieval_result in
      match LLMPipeline.generate_answer (llm_pipeline self)
              user_query context_text with
      | Ok answer =>
          match iadd_item (stats self) "total" with
          | Ok stats' =>
              let self := set_stats self stats' in
              let record :=
                qa_record user_query context_text retrieved_page answer in
              match append (qa_log self) record with
              | Ok qa_log' =>
                  (set_qa_log self qa_log',
                   Ok (AnswerMsg retrieved_page answer))
              | Raise e => (self, Raise e)
              | OutOfFuel => (self, OutOfFuel)
              end
          | Raise e => (self, Raise e)
          | OutOfFuel => (self, OutOfFuel)
          end
      | Raise e => (self, Raise e)
      | OutOfFuel => (self, OutOfFuel)
      end
  | Raise e => (self, Raise e)
  | OutOfFuel => (self, OutOfFuel)
  end.

(** [answer_query]: [except Exception] logs the error and replies with
    the error text. *)
Definition answer_query (self : t) (user_query : string)
  : t * result (list output) :=
  let '(self', r) := answer_try self user_query in
  match r with
  | Ok m => (self', Ok [reply_text m])
  | Raise e => (self', Ok [logger_error e; reply_text ErrorMsg])
  | OutOfFuel => (self', OutOfFuel)
  end.

(** [answer_query] with the outcome of its Telegram calls made explicit.
    [reply m] is [update.message.reply_text] for the text [m]: [None]
    when the call returns, [Some e] when it raises [e]. The answer is
    sent inside the [try], after [total] and the log have been updated;
    the error text is sent from the [except] branch, where nothing
    catches what that call raises. [answer_query] above is the case in
    which every reply is delivered. *)
Definition answer_query_sending (reply : message -> option exn) (self : t)
    (user_query : string) : t * result (list output) :=
  let '(self', r) := answer_try self user_query in
  let on_error (e : exn) : t * result (list output) :=
    match reply ErrorMsg with
    | None => (self', Ok [logger_error e; reply_text ErrorMsg])
    | Some e' => (self', Raise e')
    end in
  match r with
  | Ok m =>
      match reply m with
      | None => (self', Ok [reply_text m])
      | Some e => on_error e
      end
  | Raise e => on_error e
  | OutOfFuel => (self', OutOfFuel)
  end.

Definition save_stats (self : t) (fs : storage) (path : string)
  : storage * list output :=
  (<[path := json_dump (stats self)]> fs, [logger_info path]).

Definition save_qa_log (self : t) (fs : storage) (path : string)
  : storage * list output :=
  (<[path := json_dump (qa_log self)]> fs, [logger_info path]).

(** [load_stats]: a missing file or a text that [json.load] refuses is
    logged and leaves [self.stats] as it was. *)
Definition load_stats (self : t) (fs : storage) (path : string)
  : t * list output :=
  match fs !! path with
  | Some text =>
      match json_load text with
      | Some v => (set_stats self v, [logger_info path])
      | None => (self, [logger_error JSONDecodeError])
      end
  | None => (self, [logger_error FileNotFoundError])
  end.

Definition load_qa_log (self : t) (fs : storage) (path : string)
  : t * list output :=
  match fs !! path with
  | Some text =>
      match json_load text with
      | Some v => (set_qa_log self v, [logger_info path])
      | None => (self, [logger_error JSONDecodeError])
      end
  | None => (self, [logger_error FileNotFoundError])
  end.

(** [self.qa_log and self.qa_log[-1]["feedback"] is None] *)
Definition last_unrated (log : value) : result bool :=
  if truthy log
  then bind (getitem_last log)
         (fun r => bind (getitem r "feedback") (fun f => Ok (is_None f)))
  else Ok false.

(** [feedback_callback], with [data = query.data]. There is no [try]:
    an exception leaves the handler with the state reached so far. *)
Definition feedback_callback (self : t) (fs : storage) (data : string)
  : t * storage * result (list output) :=
  let yes := String.eqb data "feedback_yes" in
  let key := if yes then "correct" else "incorrect" in
  let feedback_value := if yes then "yes" else "no" in
  let response := if yes then ThanksCorrect else ThanksIncorrect in
  match iadd_item (stats self) key with
  | Ok stats' =>
      let self := set_stats self stats' in
      let after_log :=
        match last_unrated (qa_log self) with
        | Ok true =>
            bind (setitem_last (qa_log self) "feedback" (PStr feedback_value))
                 (fun log' => Ok (set_qa_log self log'))
        | Ok false => Ok self
        | Raise e => Raise e
        | OutOfFuel => OutOfFuel
        end in
      match after_log with
      | Ok self =>
          let '(fs1, out1) := save_stats self fs (stats_path self) in
          let '(fs2, out2) := save_qa_log self fs1 (qa_log_path self) in
          (self, fs2, Ok (out1 ++ out2 ++ [reply_text response]))
      | Raise e => (self, fs, Raise e)
      | OutOfFuel => (self, fs, OutOfFuel)
      end
  | Raise e => (self, fs, Raise e)
  | OutOfFuel => (self, fs, OutOfFuel)
  end.

(** ** Event sequences *)

Inductive event :=
  | Message (text : string)        (* a text message: [answer_query] *)
  | Callback (data : string).      (* a pressed button: [feedback_callback] *)

Definition handle (ev : event) (w : t * storage) : t * storage :=
  let '(self, fs) := w in
  match ev with
  | Message text => (fst (answer_query self text), fs)
  | Callback data => fst (feedback_callback self fs data)
  end.

(** The state after the dispatcher has handled [evs] in order. *)
Definition run (evs : list event) (w : t * storage) : t * storage :=
  fold_left (fun w ev => handle ev w) evs w.

End Bot.

Arguments t R : clear implicits.

End TelegramRAGBot.

(* ===================================================================== *)
(** * The rules of the specification, in its own words *)
(* ===================================================================== *)

Module Spec.

Import PDFRAGPipeline.

(** Section 4.2: window starts are the offsets [0, step, 2*step, ...] below
    the word count [n]. *)
Definition window_starts (n step : nat) : list nat :=
  List.filter (fun s => (s <? n)%nat) (map (fun k => (k * step)%nat) (seq 0 n)).

(** A window of [size] words starting at word offset [s]. *)
Definition window {A} (size : nat) (words : list A) (s : nat) : list A :=
  take size (drop s words).

(** The chunks of one page: the windows joined with single spaces, those
    of more than 20 characters kept, left to right. *)
Definition page_chunks (size step : nat) (p : Page) : list Chunk :=
  let words := split (page_text p) in
  List.filter (fun c => 20 <? len (chunk c))
    (map (fun s => mkChunk (page_number p) (join " " (window size words s)))
         (window_starts (length words) step)).

(** All chunks, page-major. *)
Definition chunk_pages (size ovl : nat) (ps : list Page) : list Chunk :=
  flat_map (page_chunks size (size - ovl)) ps.

(** The chunks of one page that come from the windows at [starts]. *)
Definition emitted (size : nat) (pno : Z) (words : list string)
    (starts : list nat) : list Chunk :=
  List.filter (fun c => 20 <? len (chunk c))
    (map (fun s => mkChunk pno (join " " (window size words s))) starts).

(** A number of loop iterations that no page of [ps] needs more than. *)
Definition words_fuel (ps : list Page) : nat :=
  S (list_max (map (fun p => length (split (page_text p))) ps)).

(** Section 4.2: the configurations a chunker accepts. *)
Definition valid_config (size ovl : Z) : bool :=
  (0 <=? ovl) && (ovl <? size).

(** Chunking with a step that need not come from a valid configuration:
    the window starts are [0, step, 2*step, ...] below the word count
    [n]. *)
Definition step_starts (n : nat) (step : Z) : list Z :=
  List.filter (fun s => s <? Z.of_nat n)
    (map (fun k => Z.of_nat k * step) (seq 0 n)).

(** The chunks of one page with these starts: each window holds the words
    from its start up to, and not including, [start + size], as the slice
    [words[start : start + size]] has them; the windows are joined with
    single spaces and those of more than 20 characters are kept. *)
Definition page_chunks_step (size step : Z) (p : Page) : list Chunk :=
  let words := split (page_text p) in
  List.filter (fun c => 20 <? len (chunk c))
    (map (fun s => mkChunk (page_number p)
                     (join " " (slice words s (s + size))))
         (step_starts (length words) step)).

(** All chunks, page-major. *)
Definition chunk_pages_step (size step : Z) (ps : list Page) : list Chunk :=
  flat_map (page_chunks_step size step) ps.

Section Ranking.
Context {score : Type} (lt : score -> score -> bool).

(** Section 8, ranking monotonicity: along [idx], scores never increase,
    and of two indices with equal scores the smaller comes first. *)
Definition ranked (scores : list score) (idx : list nat) : Prop :=
  Forall (fun i => is_Some (scores !! i)) idx /\
  forall p q i j si sj,
    (p < q)%nat -> idx !! p = Some i -> idx !! q = Some j ->
    scores !! i = Some si -> scores !! j = Some sj ->
    lt si sj = false /\ (lt sj si = false -> (i < j)%nat).

(** [x] may stand before [y] in the output: its score is not smaller,
    and when the scores are equal its index is. *)
Definition before (x y : nat * score) : Prop :=
  lt (snd x) (snd y) = false
  /\ (lt (snd y) (snd x) = false -> (fst x < fst y)%nat).
End Ranking.

(** An index that has been built from the stored chunks. *)
Definition built_over (self : t) (cs : list Chunk) : Prop :=
  chunks self = Some cs
  /\ bm25 self = Some (map (fun c => split (chunk c)) cs).

(** Section 3: a well-formed [Stats] object. *)
Definition stats_dict (total correct incorrect : Z) : value :=
  PDict [("total", PInt total); ("correct", PInt correct);
         ("incorrect", PInt incorrect)].

(** Section 8, ledger conservation, the part on [total]: [stats] is a
    well-formed Stats dict, [qa_log] is a list of values without repeated
    keys, and [total] counts its records. *)
Definition conserved (stats qa_log : value) : Prop :=
  exists t c i recs,
    stats = stats_dict t c i
    /\ qa_log = PList recs
    /\ t = Z.of_nat (length recs)
    /\ forallb Json.well_formed recs = true.

End Spec.

(* ===================================================================== *)
(** * Sample collaborators and documents *)
(* ===================================================================== *)

Module Sample.

Import PDFRAGPipeline.

(** A scorer in place of BM25: the number of tokens of a document that
    occur in the query. *)
Definition overlap_scores (ix : BM25) (query_tokens : list string) : list Z :=
  map (fun doc =>
         Z.of_nat (length (List.filter
                             (fun w => existsb (String.eqb w) query_tokens)
                             doc)))
      ix.

Definition ff : string := String form_feed EmptyString.

Definition page1 : string := "alpha0000 beta00000 gamma0000 delta0000 epsilon00".
Definition page3 : string := "zeta00000 eta000000 theta0000 iota00000".

(** Three physical pages, of five words, none and four words. pdfplumber
    and PyPDF2 report blanks for the second page; pdfminer writes nothing
    for it and ends every page with a form feed. *)
Definition pdf : PdfFile :=
  mkPdf [Some page1; Some "   "; Some page3]
        (page1 +:+ ff +:+ ff +:+ page3 +:+ ff)
        [Some page1; Some "   "; Some page3].

Definition pipeline : PDFRAGPipeline.t := PDFRAGPipeline.init pdf 3 1.

(** The pipeline after [build_index]. *)
Definition built : PDFRAGPipeline.t :=
  fst (build_index 10 pipeline).

Definition search (self : PDFRAGPipeline.t) (query : string) (top_k : Z) :=
  search_query Z.ltb overlap_scores 10 self query top_k.

(** A generator that answers every prompt, and one that is unreachable. *)
Definition llm : LLMPipeline.t :=
  LLMPipeline.mk (fun _ _ _ => Ok [Some " forty-two "]) 200 false.

Definition llm_down : LLMPipeline.t :=
  LLMPipeline.mk (fun _ _ _ => Raise (CollaboratorError "unreachable"))
                 200 false.

Definition bot : TelegramRAGBot.t PDFRAGPipeline.t :=
  TelegramRAGBot.init built llm "bot_stats.json" "bot_qa_log.json".

Definition bot_down : TelegramRAGBot.t PDFRAGPipeline.t :=
  TelegramRAGBot.init built llm_down "bot_stats.json" "bot_qa_log.json".

(** The record of the question "gamma0000" on the sample bot. *)
Definition record1 (feedback : value) : value :=
  PDict [("query", PStr "gamma0000");
         ("retrieval_context", PStr "alpha0000 beta00000 gamma0000");
         ("retrieved_page", PInt 1);
         ("generated_answer", PStr "forty-two");
         ("feedback", feedback)].

(** The bot after one answered question that was rated correct. *)
Definition rated_bot : TelegramRAGBot.t PDFRAGPipeline.t * gmap string string :=
  TelegramRAGBot.run search Json.dumps
    [TelegramRAGBot.Message "gamma0000"; TelegramRAGBot.Callback "feedback_yes"]
    (bot, ∅).

End Sample.

(* ===================================================================== *)
(** * [evaluate_retrieval.py] *)
(* ===================================================================== *)

Module EvaluateRetrieval.

Import PDFRAGPipeline.

Section Evaluate.

(** [pipeline] is any object with a [search_query] method; [P] is its
    state. *)
Context {P : Type}.
Context (search_query : P -> string -> Z -> P * result (list Chunk)).

(** [for idx, query in enumerate(queries): ...], with [correct] so far.
    The prints of the non-silent mode are left out. *)
Fixpoint loop (pipeline : P) (queries : list string) (expected_pages : list Z)
    (top_k : Z) (idx : nat) (correct : Z) : P * result Z :=
  match queries with
  | [] => (pipeline, Ok correct)
  | query :: rest =>
      let '(pipeline1, r) := search_query pipeline query top_k in
      match r with
      | Ok [] => (pipeline1, Raise IndexError)
      | Ok (res :: _) =>
          match expected_pages !! idx with
          | None => (pipeline1, Raise IndexError)
          | Some expected_page =>
              let correct' :=
                if page res =? expected_page then correct + 1 else correct in
              loop pipeline1 rest expected_pages top_k (S idx) correct'
          end
      | Raise e => (pipeline1, Raise e)
      | OutOfFuel => (pipeline1, OutOfFuel)
      end
  end.

(** [evaluate_retrieval]: the accuracy it returns is the float
    [correct / total], or [0] when [total] is [0]; it is given here by
    the two integers. *)
Definition evaluate_retrieval (pipeline : P) (queries : list string)
    (expected_pages : list Z) (top_k : Z) : P * result (Z * Z) :=
  let total := Z.of_nat (length queries) in
  let '(pipeline1, r) := loop pipeline queries expected_pages top_k 0 0 in
  match r with
  | Ok correct => (pipeline1, Ok (correct, total))
  | Raise e => (pipeline1, Raise e)
  | OutOfFuel => (pipeline1, OutOfFuel)
  end.

End Evaluate.

End EvaluateRetrieval.

(* ===================================================================== *)
(** * [main_tg_bot.py] *)
(* ===================================================================== *)

Module MainTgBot.

Import PDFRAGPipeline.

Definition chunks_path : string := "data/apple_chunks.pkl".
Definition stats_path : string := "data/bot_stats.json".
Definition qa_log_path : string := "data/bot_qa_log.json".

(** [main] up to [bot.run()]: the pipeline is made for the PDF, the chunk
    file is loaded, the index is built, and the bot is made around it.
    [model] is the Hugging Face pipeline of "google/flan-t5-base". *)
Definition main (fuel : nat) (pdf : PdfFile) (files : chunk_files)
    (model : string -> Z -> bool -> result (list (option string)))
  : result (TelegramRAGBot.t PDFRAGPipeline.t) :=
  let retrieval_pipeline := init pdf 1000 50 in
  let '(retrieval_pipeline, loaded) :=
    load_chunks retrieval_pipeline files chunks_path in
  bind loaded (fun _ =>
    let '(retrieval_pipeline, built) := build_index fuel retrieval_pipeline in
    bind built (fun _ =>
      let llm_pipeline := LLMPipeline.mk model 200 false in
      Ok (TelegramRAGBot.init retrieval_pipeline llm_pipeline
            stats_path qa_log_path))).

End MainTgBot.

(* ===================================================================== *)
(** * Notions used to state further properties *)
(* ===================================================================== *)

Module Notions.

Import PDFRAGPipeline TelegramRAGBot.

(** [s] neither begins nor ends with a whitespace character. *)
Definition trimmed (s : string) : Prop :=
  (forall c rest, s = String c rest -> isspace c = false)
  /\ (forall pre c, s = pre +:+ String c EmptyString -> isspace c = false).

(** [ps] holds one page for every position of [texts] with a non-empty
    text, numbered by that position counted from one, in document order. *)
Definition numbered_by_position (texts : list (option string))
    (ps : list Page) : Prop :=
  (forall p, In p ps <->
     exists (k : nat) (text : string),
       texts !! k = Some (Some text)
       /\ is_empty text = false
       /\ p = mkPage (Z.of_nat k + 1) (strip text))
  /\ StronglySorted (fun p q => page_number p < page_number q) ps.

(** A word as [split] returns it: not empty, no whitespace. *)
Fixpoint no_space (w : string) : bool :=
  match w with
  | EmptyString => true
  | String c w' => negb (isspace c) && no_space w'
  end.

Definition is_word (w : string) : bool := negb (is_empty w) && no_space w.

(** No form feed occurs in [s]. *)
Fixpoint no_ff (s : string) : bool :=
  match s with
  | EmptyString => true
  | String c s' => negb (is_ff c) && no_ff s'
  end.

(** [pdfminer.high_level.extract_text] on a document whose pages have the
    texts [texts]: every page is followed by a form feed. *)
Fixpoint miner_output (texts : list string) : string :=
  match texts with
  | [] => EmptyString
  | text :: rest => text +:+ String form_feed (miner_output rest)
  end.

(** The pages of a document, numbered from [i + 1]. *)
Fixpoint numbered (i : Z) (texts : list string) : list Page :=
  match texts with
  | [] => []
  | text :: rest => mkPage (i + 1) (strip text) :: numbered (i + 1) rest
  end.

(** [c] is cut from page [p]: it carries the number of [p], and its text
    is a run of consecutive words of [p] joined by single spaces, which
    are also its tokens. *)
Definition cut_from (p : Page) (c : Chunk) : Prop :=
  page c = page_number p
  /\ exists start stop : Z,
       chunk c = join " " (slice (split (page_text p)) start stop)
       /\ split (chunk c) = slice (split (page_text p)) start stop.

(** The text of a page with every run of whitespace turned into one
    space, as the chunks carry it. *)
Definition normalised (p : Page) : string := join " " (split (page_text p)).

(** The chunk of a page that fits in one window. *)
Definition whole_page_chunk (p : Page) : list Chunk :=
  let text := join " " (split (page_text p)) in
  if 20 <? len text then [mkChunk (page_number p) text] else [].

Section Best.
Context {score : Type} (lt : score -> score -> bool).

(** [i] is the first index of the largest score. *)
Definition first_best (scores : list score) (i : nat) : Prop :=
  exists si, scores !! i = Some si
    /\ forall j sj, scores !! j = Some sj ->
         lt si sj = false /\ ((j < i)%nat -> lt sj si = true).
End Best.

(** Button presses in an event sequence: those with the data
    "feedback_yes", and all others. *)
Definition is_yes (ev : event) : bool :=
  match ev with
  | Callback data => String.eqb data "feedback_yes"
  | Message _ => false
  end.

Definition is_other_press (ev : event) : bool :=
  match ev with
  | Callback data => negb (String.eqb data "feedback_yes")
  | Message _ => false
  end.

Definition is_message (ev : event) : bool :=
  match ev with
  | Message _ => true
  | Callback _ => false
  end.

Definition count {A} (f : A -> bool) (l : list A) : Z :=
  Z.of_nat (length (List.filter f l)).

(** [evaluate_retrieval] counts the pair of a query and its expected page
    when the first result of the query, searched alone on [pipeline], is
    on that page. *)
Definition hit {P : Type}
    (search_query : P -> string -> Z -> P * result (list Chunk))
    (pipeline : P) (top_k : Z) (qe : string * Z) : bool :=
  match snd (search_query pipeline (fst qe) top_k) with
  | Ok (res :: _) => page res =? snd qe
  | _ => false
  end.

(** The record carries the feedback value [v]. *)
Definition rated_as (v : string) (r : value) : bool :=
  match r with
  | PDict d =>
      match dict_get "feedback" d with
      | Some (PStr s) => String.eqb s v
      | _ => false
      end
  | _ => false
  end.

End Notions.

(* ===================================================================== *)
(** * [json.load] reads back what [json.dump] wrote *)
(* ===================================================================== *)

Module JsonFacts.

Import Json.

Lemma append_assoc (a b c : string) : (a +:+ b) +:+ c = a +:+ (b +:+ c).
Proof.
  induction a as [|x a IH]; [reflexivity|].
  change (String x ((a +:+ b) +:+ c) = String x (a +:+ b +:+ c)).
  now rewrite IH.
Qed.

Lemma append_nil_r (a : string) : a +:+ EmptyString = a.
Proof.
  induction a as [|x a IH]; [reflexivity|].
  change (String x (a +:+ EmptyString) = String x a). now rewrite IH.
Qed.

(** ** Strings *)

Lemma scan_escape_char (c : ascii) (t : string) :
  scan Plain (escape_char c +:+ t) = cons_char c (scan Plain t).
Proof.
  destruct c as [[] [] [] [] [] [] [] []]; reflexivity.
Qed.

Lemma scan_escape (s rest : string) :
  scan Plain (escape s +:+ String dq rest) = Some (s, rest).
Proof.
  induction s as [|c s IH]; [reflexivity|].
  cbn [escape]. rewrite append_assoc, scan_escape_char, IH. reflexivity.
Qed.

Lemma read_encode_str (fuel : nat) (s rest : string) :
  read_value (S fuel) (encode_str s +:+ rest) = Some (PStr s, rest).
Proof.
  unfold encode_str.
  change (String dq (escape s +:+ String dq EmptyString) +:+ rest)
    with (String dq ((escape s +:+ String dq EmptyString) +:+ rest)).
  rewrite append_assoc. cbn [read_value].
  change (nat_of_ascii dq =? 34)%nat with true. cbn match.
  change (String dq EmptyString +:+ rest) with (String dq rest).
  now rewrite scan_escape.
Qed.

(** ** Integers *)

Lemma delimited_no_digit (rest : string) :
  delimited rest -> read_uint rest = (Decimal.Nil, rest).
Proof.
  destruct rest as [|c rest]; [reflexivity|]. cbn [delimited read_uint].
  unfold digit_of. intros [-> | ->]; reflexivity.
Qed.

Lemma delimited_no_float (rest : string) :
  delimited rest -> float_follows rest = false.
Proof.
  destruct rest as [|c rest]; [reflexivity|]. cbn [delimited float_follows].
  intros [-> | ->]; reflexivity.
Qed.

Lemma read_uint_string (d : Decimal.uint) (rest : string) :
  delimited rest ->
  read_uint (NilEmpty.string_of_uint d +:+ rest) = (d, rest).
Proof.
  intros Hrest.
  induction d as [|d IH|d IH|d IH|d IH|d IH|d IH|d IH|d IH|d IH|d IH];
    [now apply delimited_no_digit|..];
    cbn [NilEmpty.string_of_uint];
    match goal with
    | |- read_uint (String ?c ?t +:+ rest) = _ =>
        change (String c t +:+ rest) with (String c (t +:+ rest))
    end;
    cbn [read_uint]; unfold digit_of; cbn; now rewrite IH.
Qed.

Lemma unorm_head (d : Decimal.uint) :
  Decimal.unorm d = Decimal.zero \/ leading_nonzero (Decimal.unorm d).
Proof.
  induction d; cbn; auto.
Qed.

Lemma to_uint_leading (p : positive) : leading_nonzero (Pos.to_uint p).
Proof.
  assert (Hn : Decimal.unorm (Pos.to_uint p) = Pos.to_uint p).
  { rewrite <- DecimalPos.Unsigned.to_of, DecimalPos.Unsigned.of_to.
    reflexivity. }
  destruct (unorm_head (Pos.to_uint p)) as [H|H]; rewrite Hn in H;
    [|assumption].
  now apply DecimalPos.Unsigned.to_uint_nonzero in H.
Qed.

Lemma read_nat_pos (p : positive) (rest : string) :
  delimited rest ->
  read_nat (NilEmpty.string_of_uint (Pos.to_uint p) +:+ rest)
  = Some (Z.pos p, rest).
Proof.
  intros Hrest.
  assert (Hz : Z.of_uint (Pos.to_uint p) = Z.pos p).
  { unfold Z.of_uint. now rewrite DecimalPos.Unsigned.of_to. }
  pose proof (to_uint_leading p) as Hlead.
  pose proof (read_uint_string (Pos.to_uint p) rest Hrest) as Hread.
  destruct (Pos.to_uint p) as [|d|d|d|d|d|d|d|d|d|d]; cbn in Hlead;
    try contradiction;
    cbn [NilEmpty.string_of_uint] in *;
    match goal with
    | |- read_nat (String ?c ?t +:+ rest) = _ =>
        change (String c t +:+ rest) with (String c (t +:+ rest)) in *
    end;
    unfold read_nat;
    match goal with
    | |- context [(nat_of_ascii ?c =? 48)%nat] =>
        change (nat_of_ascii c =? 48)%nat with false
    end;
    cbn match; rewrite Hread; cbn match;
    rewrite (delimited_no_float rest Hrest); now rewrite Hz.
Qed.

Lemma read_int_repr (z : Z) (rest : string) :
  delimited rest ->
  read_int (int_repr z +:+ rest) = Some (z, rest).
Proof.
  intros Hrest. unfold int_repr. destruct z as [|p|p]; cbn [Z.to_int].
  - change (read_int (String "0" rest) = Some (0, rest)).
    unfold read_int, read_nat.
    change (nat_of_ascii "0" =? 45)%nat with false.
    change (nat_of_ascii "0" =? 48)%nat with true.
    cbn match. now rewrite delimited_no_float.
  - pose proof (read_nat_pos p rest Hrest) as H.
    pose proof (to_uint_leading p) as Hlead.
    destruct (Pos.to_uint p) as [|d|d|d|d|d|d|d|d|d|d]; cbn in Hlead;
      try contradiction; exact H.
  - change (String "-" (NilEmpty.string_of_uint (Pos.to_uint p)) +:+ rest)
      with (String "-" (NilEmpty.string_of_uint (Pos.to_uint p) +:+ rest)).
    cbn [read_int]. change (nat_of_ascii "-" =? 45)%nat with true. cbn match.
    now rewrite read_nat_pos.
Qed.

(** ** Values *)

Section ValueInd.
Variable P : value -> Prop.
Hypothesis HNone : P PNone.
Hypothesis HInt : forall n, P (PInt n).
Hypothesis HStr : forall s, P (PStr s).
Hypothesis HList : forall l, Forall P l -> P (PList l).
Hypothesis HDict : forall d, Forall (fun kv => P (snd kv)) d -> P (PDict d).

Fixpoint value_nested_ind (v : value) : P v :=
  match v with
  | PNone => HNone
  | PInt n => HInt n
  | PStr s => HStr s
  | PList l =>
      HList l ((fix go (l : list value) : Forall P l :=
                  match l with
                  | [] => @List.Forall_nil _ P
                  | x :: xs => @List.Forall_cons _ P x xs (value_nested_ind x) (go xs)
                  end) l)
  | PDict d =>
      HDict d ((fix go (d : list (string * value))
                  : Forall (fun kv => P (snd kv)) d :=
                  match d with
                  | [] => @List.Forall_nil _ _
                  | kv :: kvs =>
                      @List.Forall_cons _ (fun kv => P (snd kv)) kv kvs
                        (value_nested_ind (snd kv)) (go kvs)
                  end) d)
  end.
End ValueInd.

Lemma newline_indent_app (lvl : nat) (x : string) :
  newline_indent lvl +:+ x = String "010" (spaces (4 * lvl) +:+ x).
Proof. reflexivity. Qed.

Lemma skip_ws_spaces (n : nat) (x : string) :
  skip_ws (spaces n +:+ x) = skip_ws x.
Proof. induction n as [|n IH]; [reflexivity|exact IH]. Qed.

Lemma skip_ws_newline_indent (lvl : nat) (x : string) :
  skip_ws (newline_indent lvl +:+ x) = skip_ws x.
Proof. rewrite newline_indent_app. apply skip_ws_spaces. Qed.

Lemma delimited_newline_indent (lvl : nat) (x : string) :
  delimited (newline_indent lvl +:+ x).
Proof. rewrite newline_indent_app. now right. Qed.

Ltac solve_opens :=
  cbn; repeat split; first [reflexivity | discriminate | lia].

Lemma opens_value_app (a b : string) : opens_value a -> opens_value (a +:+ b).
Proof. destruct a; [contradiction|exact (fun H => H)]. Qed.

Lemma opens_uint (d : Decimal.uint) :
  d <> Decimal.Nil -> opens_value (NilEmpty.string_of_uint d).
Proof. destruct d; try congruence; intros _; solve_opens. Qed.

Lemma opens_int_repr (z : Z) : opens_value (int_repr z).
Proof.
  unfold int_repr. destruct z as [|p|p]; cbn [Z.to_int].
  - solve_opens.
  - apply opens_uint, DecimalPos.Unsigned.to_uint_nonnil.
  - solve_opens.
Qed.

Lemma opens_dumps_at (lvl : nat) (v : value) : opens_value (dumps_at lvl v).
Proof.
  destruct v as [|n|s|l|d]; cbn [dumps_at].
  - solve_opens.
  - apply opens_int_repr.
  - solve_opens.
  - destruct l; solve_opens.
  - destruct d; solve_opens.
Qed.

Lemma skip_ws_opens (s : string) : opens_value s -> skip_ws s = s.
Proof. destruct s as [|c s]; [contradiction|]. intros [H _]. cbn. now rewrite H. Qed.

Lemma expect_opens_93 (s : string) : opens_value s -> expect 93 s = None.
Proof.
  destruct s as [|c s]; [contradiction|]. intros (_ & H & _). cbn.
  apply Nat.eqb_neq in H. now rewrite H.
Qed.

Lemma skip_ws_char (c : ascii) (s : string) :
  is_ws c = false -> skip_ws (String c s) = String c s.
Proof. intros H. cbn. now rewrite H. Qed.

Lemma uint_head (d : Decimal.uint) :
  d <> Decimal.Nil ->
  exists c t, NilEmpty.string_of_uint d = String c t
              /\ (48 <= nat_of_ascii c <= 57)%nat.
Proof.
  destruct d; try congruence; intros _; cbn [NilEmpty.string_of_uint];
    eexists _, _; (split; [reflexivity|vm_compute; lia]).
Qed.

Lemma int_head (z : Z) :
  exists c t, int_repr z = String c t
              /\ (nat_of_ascii c = 45 \/ 48 <= nat_of_ascii c <= 57)%nat.
Proof.
  unfold int_repr. destruct z as [|p|p]; cbn [Z.to_int].
  - eexists _, _. split; [reflexivity|vm_compute; lia].
  - destruct (uint_head (Pos.to_uint p)) as (c & t & -> & H);
      [apply DecimalPos.Unsigned.to_uint_nonnil|]. eauto.
  - eexists _, _. split; [reflexivity|vm_compute; lia].
Qed.

Lemma read_value_int (fuel : nat) (z : Z) (rest : string) :
  delimited rest ->
  read_value (S fuel) (int_repr z +:+ rest) = Some (PInt z, rest).
Proof.
  intros Hrest. pose proof (read_int_repr z rest Hrest) as Hread.
  destruct (int_head z) as (c & t & E & Hc). rewrite E in *.
  change (String c t +:+ rest) with (String c (t +:+ rest)) in *.
  cbn [read_value].
  destruct (Nat.eqb_spec (nat_of_ascii c) 34); [lia|].
  destruct (Nat.eqb_spec (nat_of_ascii c) 91); [lia|].
  destruct (Nat.eqb_spec (nat_of_ascii c) 123); [lia|].
  destruct (Nat.eqb_spec (nat_of_ascii c) 110); [lia|].
  now rewrite Hread.
Qed.

(** ** Arrays *)

Lemma read_items_last (fuel lvl : nat) (s rest : string) (v : value) :
  read_value fuel s = Some (v, newline_indent lvl +:+ String "]" rest) ->
  read_items (S fuel) s = Some ([v], rest).
Proof.
  intros H. cbn [read_items]. rewrite H, skip_ws_newline_indent.
  reflexivity.
Qed.

Lemma read_items_more (fuel lvl : nat) (s s2 rest : string) (v : value)
    (vs : list value) :
  read_value fuel s = Some (v, String "," (newline_indent lvl +:+ s2)) ->
  opens_value s2 ->
  read_items fuel s2 = Some (vs, rest) ->
  read_items (S fuel) s = Some (v :: vs, rest).
Proof.
  intros H Ho Hs2. cbn [read_items]. rewrite H.
  rewrite skip_ws_char by reflexivity. cbn [expect].
  change (nat_of_ascii "," =? 44)%nat with true. cbn match.
  rewrite skip_ws_newline_indent, skip_ws_opens by assumption.
  now rewrite Hs2.
Qed.

Lemma opens_join (lvl : nat) (texts : list string) :
  texts <> [] -> Forall opens_value texts ->
  opens_value (join (item_separator lvl) texts).
Proof.
  intros Hne Hall. destruct Hall as [|t ts Ht Hts]; [congruence|].
  destruct ts; cbn [join]; [assumption|now apply opens_value_app].
Qed.

Lemma read_items_join (lvl : nat) (l : list value) :
  Forall reads l -> forallb well_formed l = true -> l <> [] ->
  forall (fuel : nat) (rest : string),
    (list_sum (map (fun x => S (cost x)) l) <= fuel)%nat ->
    read_items fuel
      (join (item_separator (S lvl)) (map (dumps_at (S lvl)) l)
       +:+ newline_indent lvl +:+ String "]" rest)
    = Some (l, rest).
Proof.
  induction 1 as [|x xs Hx Hxs IH]; intros Hwf Hne fuel rest Hfuel;
    [congruence|].
  cbn [forallb] in Hwf. apply andb_true_iff in Hwf as [Hwx Hwxs].
  change (list_sum (map (fun x => S (cost x)) (x :: xs)))
    with (S (cost x) + list_sum (map (fun x => S (cost x)) xs))%nat in Hfuel.
  destruct fuel as [|fuel]; [lia|].
  destruct xs as [|y ys].
  - cbn [map join]. apply (read_items_last fuel lvl).
    apply Hx; [assumption|lia|apply delimited_newline_indent].
  - change (join (item_separator (S lvl)) (map (dumps_at (S lvl)) (x :: y :: ys)))
      with (dumps_at (S lvl) x +:+ item_separator (S lvl)
            +:+ join (item_separator (S lvl)) (map (dumps_at (S lvl)) (y :: ys))).
    rewrite !append_assoc.
    apply (read_items_more fuel (S lvl) _
             (join (item_separator (S lvl)) (map (dumps_at (S lvl)) (y :: ys))
              +:+ newline_indent lvl +:+ String "]" rest)).
    + apply Hx; [assumption|lia|now left].
    + apply opens_value_app, opens_join; [discriminate|].
      apply List.Forall_forall. intros t Ht. apply in_map_iff in Ht.
      destruct Ht as (v & <- & _). apply opens_dumps_at.
    + apply IH; [assumption|discriminate|lia].
Qed.

(** ** Objects *)

Lemma encode_str_app (k x : string) :
  encode_str k +:+ x = String dq (escape k +:+ String dq x).
Proof.
  unfold encode_str.
  change (String dq (escape k +:+ String dq EmptyString) +:+ x)
    with (String dq ((escape k +:+ String dq EmptyString) +:+ x)).
  now rewrite append_assoc.
Qed.

Lemma opens_encode_str (k x : string) : opens_value (encode_str k +:+ x).
Proof. rewrite encode_str_app. solve_opens. Qed.

Lemma expect_opens_125 (s : string) : opens_value s -> expect 125 s = None.
Proof.
  destruct s as [|c s]; [contradiction|]. intros (_ & _ & H). cbn.
  apply Nat.eqb_neq in H. now rewrite H.
Qed.

Lemma read_members_key (fuel : nat) (k s : string) :
  opens_value s ->
  read_members (S fuel) (encode_str k +:+ String ":" (String " " s))
  = match read_value fuel s with
    | Some (v, rest) =>
        let rest := skip_ws rest in
        match expect 44 rest with
        | Some rest' =>
            match read_members fuel (skip_ws rest') with
            | Some (kvs, rest'') => Some ((k, v) :: kvs, rest'')
            | None => None
            end
        | None =>
            match expect 125 rest with
            | Some rest' => Some ([(k, v)], rest')
            | None => None
            end
        end
    | None => None
    end.
Proof.
  intros Ho. rewrite encode_str_app. cbn [read_members expect].
  change (nat_of_ascii dq =? 34)%nat with true. cbn match.
  rewrite scan_escape. rewrite skip_ws_char by reflexivity.
  cbn [expect]. change (nat_of_ascii ":" =? 58)%nat with true. cbn match.
  change (skip_ws (String " " s)) with (skip_ws s).
  now rewrite skip_ws_opens.
Qed.

Lemma read_members_last (fuel lvl : nat) (k s rest : string) (v : value) :
  opens_value s ->
  read_value fuel s = Some (v, newline_indent lvl +:+ String "}" rest) ->
  read_members (S fuel) (encode_str k +:+ String ":" (String " " s))
  = Some ([(k, v)], rest).
Proof.
  intros Ho H. rewrite read_members_key, H by assumption.
  cbv zeta. rewrite skip_ws_newline_indent. reflexivity.
Qed.

Lemma read_members_more (fuel lvl : nat) (k s s2 rest : string) (v : value)
    (kvs : list (string * value)) :
  opens_value s ->
  read_value fuel s = Some (v, String "," (newline_indent lvl +:+ s2)) ->
  opens_value s2 ->
  read_members fuel s2 = Some (kvs, rest) ->
  read_members (S fuel) (encode_str k +:+ String ":" (String " " s))
  = Some ((k, v) :: kvs, rest).
Proof.
  intros Ho H Ho2 H2. rewrite read_members_key, H by assumption.
  cbv zeta. rewrite skip_ws_char by reflexivity. cbn [expect].
  change (nat_of_ascii "," =? 44)%nat with true. cbn match.
  rewrite skip_ws_newline_indent, skip_ws_opens by assumption.
  now rewrite H2.
Qed.

Lemma member_app (lvl : nat) (kv : string * value) (x : string) :
  member lvl kv +:+ x
  = encode_str (fst kv)
    +:+ String ":" (String " " (dumps_at lvl (snd kv) +:+ x)).
Proof. unfold member. now rewrite !append_assoc. Qed.

Lemma read_members_join (lvl : nat) (d : list (string * value)) :
  Forall (fun kv => reads (snd kv)) d ->
  forallb (fun kv => well_formed (snd kv)) d = true -> d <> [] ->
  forall (fuel : nat) (rest : string),
    (list_sum (map (fun kv => S (cost (snd kv))) d) <= fuel)%nat ->
    read_members fuel
      (join (item_separator (S lvl)) (map (member (S lvl)) d)
       +:+ newline_indent lvl +:+ String "}" rest)
    = Some (d, rest).
Proof.
  induction 1 as [|[k v] kvs Hx Hxs IH]; intros Hwf Hne fuel rest Hfuel;
    [congruence|].
  cbn [forallb snd] in Hwf. apply andb_true_iff in Hwf as [Hwx Hwxs].
  change (list_sum (map (fun kv => S (cost (snd kv))) ((k, v) :: kvs)))
    with (S (cost v)
          + list_sum (map (fun kv => S (cost (snd kv))) kvs))%nat in Hfuel.
  destruct fuel as [|fuel]; [lia|]. cbn [snd] in Hx.
  destruct kvs as [|kv' kvs'].
  - cbn [map join]. rewrite member_app. cbn [fst snd].
    apply (read_members_last fuel lvl).
    + apply opens_value_app, opens_dumps_at.
    + apply Hx; [assumption|lia|apply delimited_newline_indent].
  - change (join (item_separator (S lvl))
              (map (member (S lvl)) ((k, v) :: kv' :: kvs')))
      with (member (S lvl) (k, v) +:+ item_separator (S lvl)
            +:+ join (item_separator (S lvl))
                  (map (member (S lvl)) (kv' :: kvs'))).
    rewrite append_assoc, member_app. cbn [fst snd]. rewrite !append_assoc.
    apply (read_members_more fuel (S lvl) _ _
             (join (item_separator (S lvl)) (map (member (S lvl)) (kv' :: kvs'))
              +:+ newline_indent lvl +:+ String "}" rest)).
    + apply opens_value_app, opens_dumps_at.
    + apply Hx; [assumption|lia|now left].
    + apply opens_value_app, opens_join; [discriminate|].
      apply List.Forall_forall. intros t Ht. apply in_map_iff in Ht.
      destruct Ht as (kv & <- & _). apply opens_encode_str.
    + apply IH; [assumption|discriminate|lia].
Qed.

(** ** [dict(pairs)] on distinct keys *)

Lemma dict_set_fresh (k : string) (v : value) (d : list (string * value)) :
  existsb (String.eqb k) (map fst d) = false ->
  dict_set k v d = d ++ [(k, v)].
Proof.
  induction d as [|[k' v'] d IH]; [reflexivity|]. cbn [map fst existsb].
  intros H. apply orb_false_iff in H as [Hk Hd]. cbn [dict_set].
  rewrite Hk. cbn. now rewrite IH.
Qed.

Lemma dict_of_pairs_acc (pairs acc : list (string * value)) :
  distinct (map fst (acc ++ pairs)) = true ->
  fold_left (fun d kv => dict_set (fst kv) (snd kv) d) pairs acc
  = acc ++ pairs.
Proof.
  revert acc. induction pairs as [|[k v] pairs IH]; intros acc Hd.
  - now rewrite app_nil_r.
  - cbn [fold_left fst snd]. rewrite dict_set_fresh.
    + rewrite IH; rewrite <- app_assoc; [reflexivity|exact Hd].
    + clear IH. induction acc as [|[k' v'] acc IHacc]; [reflexivity|].
      cbn [app map fst distinct existsb] in *.
      apply andb_true_iff in Hd as [Hk' Hd].
      rewrite IHacc by assumption. rewrite orb_false_r.
      apply negb_true_iff in Hk'.
      rewrite map_app, existsb_app in Hk'.
      apply orb_false_iff in Hk' as [_ Hk']. cbn [map fst existsb] in Hk'.
      apply orb_false_iff in Hk' as [Hk' _].
      rewrite String.eqb_sym. exact Hk'.
Qed.

Lemma dict_of_pairs_distinct (d : list (string * value)) :
  distinct (map fst d) = true -> dict_of_pairs d = d.
Proof. intros H. unfold dict_of_pairs. now rewrite dict_of_pairs_acc. Qed.

(** ** Every well-formed value is read back *)

Lemma reads_all (v : value) : reads v.
Proof.
  induction v as [|n|s|l IH|d IH] using value_nested_ind;
    intros Hwf lvl fuel rest Hfuel Hrest;
    (destruct fuel as [|fuel]; [cbn in Hfuel; lia|]).
  - reflexivity.
  - now apply read_value_int.
  - apply read_encode_str.
  - destruct l as [|x xs]; [reflexivity|].
    cbn [well_formed] in Hwf.
    change (cost (PList (x :: xs)))
      with (S (list_sum (map (fun x => S (cost x)) (x :: xs)))) in Hfuel.
    pose proof (read_items_join lvl (x :: xs) IH Hwf ltac:(discriminate)
                  fuel rest ltac:(lia)) as Hitems.
    change (dumps_at lvl (PList (x :: xs)))
      with ("[" +:+ newline_indent (S lvl)
            +:+ join (item_separator (S lvl)) (map (dumps_at (S lvl)) (x :: xs))
            +:+ newline_indent lvl +:+ "]").
    rewrite !append_assoc.
    change ("]" +:+ rest) with (String "]" rest).
    change ("[" +:+ ?x) with (String "[" x).
    set (body := join _ _ +:+ _) in *.
    assert (Hbody : opens_value body).
    { subst body. apply opens_value_app, opens_join; [discriminate|].
      apply List.Forall_forall. intros t Ht. apply in_map_iff in Ht.
      destruct Ht as (v & <- & _). apply opens_dumps_at. }
    cbn [read_value]. change (nat_of_ascii "[" =? 34)%nat with false.
    change (nat_of_ascii "[" =? 91)%nat with true. cbn match.
    rewrite skip_ws_newline_indent, skip_ws_opens by assumption.
    rewrite expect_opens_93 by assumption. now rewrite Hitems.
  - destruct d as [|kv kvs]; [reflexivity|].
    cbn [well_formed] in Hwf. apply andb_true_iff in Hwf as [Hkeys Hwf].
    change (cost (PDict (kv :: kvs)))
      with (S (list_sum (map (fun kv => S (cost (snd kv))) (kv :: kvs))))
      in Hfuel.
    pose proof (read_members_join lvl (kv :: kvs) IH Hwf ltac:(discriminate)
                  fuel rest ltac:(lia)) as Hmembers.
    change (dumps_at lvl (PDict (kv :: kvs)))
      with ("{" +:+ newline_indent (S lvl)
            +:+ join (item_separator (S lvl)) (map (member (S lvl)) (kv :: kvs))
            +:+ newline_indent lvl +:+ "}").
    rewrite !append_assoc.
    change ("}" +:+ rest) with (String "}" rest).
    change ("{" +:+ ?x) with (String "{" x).
    set (body := join _ _ +:+ _) in *.
    assert (Hbody : opens_value body).
    { subst body. apply opens_value_app, opens_join; [discriminate|].
      apply List.Forall_forall. intros t Ht. apply in_map_iff in Ht.
      destruct Ht as (kv' & <- & _). apply opens_encode_str. }
    cbn [read_value]. change (nat_of_ascii "{" =? 34)%nat with false.
    change (nat_of_ascii "{" =? 91)%nat with false.
    change (nat_of_ascii "{" =? 123)%nat with true. cbn match.
    rewrite skip_ws_newline_indent, skip_ws_opens by assumption.
    rewrite expect_opens_125 by assumption. rewrite Hmembers.
    now rewrite dict_of_pairs_distinct.
Qed.

(** ** The text is long enough to serve as fuel *)

Lemma length_append (a b : string) :
  String.length (a +:+ b) = (String.length a + String.length b)%nat.
Proof.
  induction a as [|c a IH]; [reflexivity|].
  change (S (String.length (a +:+ b)) = S (String.length a + String.length b)).
  now rewrite IH.
Qed.

Lemma opens_length (s : string) : opens_value s -> (1 <= String.length s)%nat.
Proof. destruct s; [contradiction|]. cbn. lia. Qed.

Lemma sum_le_join {A} (text : A -> string) (weight : A -> nat) (sep : string)
    (l : list A) :
  (1 <= String.length sep)%nat ->
  Forall (fun x => (weight x <= String.length (text x))%nat) l ->
  l <> [] ->
  (list_sum (map (fun x => S (weight x)) l)
   <= String.length (join sep (map text l)) + 1)%nat.
Proof.
  intros Hsep. induction 1 as [|x xs Hx Hxs IH]; intros Hne; [congruence|].
  change (list_sum (map (fun x => S (weight x)) (x :: xs)))
    with (S (weight x) + list_sum (map (fun x => S (weight x)) xs))%nat.
  destruct xs as [|y ys].
  - cbn. lia.
  - change (join sep (map text (x :: y :: ys)))
      with (text x +:+ sep +:+ join sep (map text (y :: ys))).
    rewrite !length_append. specialize (IH ltac:(discriminate)). lia.
Qed.

Lemma item_separator_length (lvl : nat) :
  (1 <= String.length (item_separator lvl))%nat.
Proof.
  change (1 <= S (String.length (newline_indent lvl)))%nat. lia.
Qed.

Lemma cost_le_length (v : value) :
  forall lvl, (cost v <= String.length (dumps_at lvl v))%nat.
Proof.
  induction v as [|n|s|l IH|d IH] using value_nested_ind; intros lvl.
  - cbn. lia.
  - apply (opens_length _ (opens_int_repr n)).
  - cbn. lia.
  - destruct l as [|x xs]; [cbn; lia|].
    change (cost (PList (x :: xs)))
      with (S (list_sum (map (fun x => S (cost x)) (x :: xs)))).
    change (dumps_at lvl (PList (x :: xs)))
      with ("[" +:+ newline_indent (S lvl)
            +:+ join (item_separator (S lvl)) (map (dumps_at (S lvl)) (x :: xs))
            +:+ newline_indent lvl +:+ "]").
    pose proof (sum_le_join (dumps_at (S lvl)) cost (item_separator (S lvl))
                  (x :: xs) (item_separator_length _)) as H.
    rewrite !length_append.
    change (String.length "[") with 1%nat.
    change (String.length "]") with 1%nat.
    enough (list_sum (map (fun x => S (cost x)) (x :: xs))
            <= String.length
                 (join (item_separator (S lvl))
                    (map (dumps_at (S lvl)) (x :: xs))) + 1)%nat by lia.
    apply H; [|discriminate].
    eapply List.Forall_impl; [|exact IH]. cbn. auto.
  - destruct d as [|kv kvs]; [cbn; lia|].
    change (cost (PDict (kv :: kvs)))
      with (S (list_sum (map (fun kv => S (cost (snd kv))) (kv :: kvs)))).
    change (dumps_at lvl (PDict (kv :: kvs)))
      with ("{" +:+ newline_indent (S lvl)
            +:+ join (item_separator (S lvl)) (map (member (S lvl)) (kv :: kvs))
            +:+ newline_indent lvl +:+ "}").
    pose proof (sum_le_join (member (S lvl)) (fun kv => cost (snd kv))
                  (item_separator (S lvl)) (kv :: kvs)
                  (item_separator_length _)) as H.
    rewrite !length_append.
    change (String.length "{") with 1%nat.
    change (String.length "}") with 1%nat.
    enough (list_sum (map (fun kv => S (cost (snd kv))) (kv :: kvs))
            <= String.length
                 (join (item_separator (S lvl))
                    (map (member (S lvl)) (kv :: kvs))) + 1)%nat by lia.
    apply H; [|discriminate].
    eapply List.Forall_impl; [|exact IH]. cbn. intros a Ha.
    unfold member. rewrite !length_append. specialize (Ha (S lvl)). lia.
Qed.

(** [json.loads(json.dumps(v, ensure_ascii=False, indent=4)) == v] *)
Theorem loads_dumps (v : value) :
  well_formed v = true -> loads (dumps v) = Some v.
Proof.
  intros Hwf. unfold loads, dumps.
  rewrite skip_ws_opens by apply opens_dumps_at.
  pose proof (reads_all v Hwf 0%nat (String.length (dumps_at 0 v))
                EmptyString (cost_le_length v 0%nat) I) as H.
  rewrite append_nil_r in H. now rewrite H.
Qed.

End JsonFacts.

(* ===================================================================== *)
(** * Chunking ([split_pages]) *)
(* ===================================================================== *)

Module Chunking.

Import PDFRAGPipeline.

Lemma slice_window {A} (l : list A) (s size : nat) :
  (s < length l)%nat ->
  slice l (Z.of_nat s) (Z.of_nat s + Z.of_nat size) = Spec.window size l s.
Proof.
  intros Hs. unfold slice, Spec.window, slice_bound.
  destruct (Z.ltb_spec (Z.of_nat s) 0) as [H0|_]; [lia|].
  destruct (Z.ltb_spec (Z.of_nat s + Z.of_nat size) 0) as [H0|_]; [lia|].
  rewrite (Z.min_l (Z.of_nat s)) by lia. rewrite Nat2Z.id.
  destruct (Z.le_gt_cases (Z.of_nat s + Z.of_nat size) (Z.of_nat (length l)))
    as [Hle|Hgt].
  - rewrite Z.min_l by lia. f_equal. lia.
  - rewrite Z.min_r by lia.
    rewrite !take_ge; [reflexivity| |]; rewrite length_drop; lia.
Qed.

Lemma starts_above (n step k m : nat) :
  (n <= k * step)%nat -> (1 <= step)%nat ->
  List.filter (fun s => (s <? n)%nat) (map (fun j => (j * step)%nat) (seq k m))
  = [].
Proof.
  revert k. induction m as [|m IH]; intros k Hk Hstep; [reflexivity|].
  cbn [seq map List.filter].
  destruct (Nat.ltb_spec (k * step) n) as [Hlt|_]; [lia|].
  apply IH; [nia|assumption].
Qed.

Lemma chunk_loop_windows (size ovl : Z) (pno : Z) (words : list string) :
  0 <= ovl < size ->
  forall (m k fuel : nat) (acc : list Chunk),
    (length words <= k + m)%nat -> (m < fuel)%nat ->
    chunk_loop fuel size ovl pno words
      (Z.of_nat (k * Z.to_nat (size - ovl))) acc
    = Ok (acc ++ Spec.emitted (Z.to_nat size) pno words
                   (List.filter (fun s => (s <? length words)%nat)
                      (map (fun j => (j * Z.to_nat (size - ovl))%nat)
                           (seq k (length words - k))))).
Proof.
  intros Hcfg. set (step := Z.to_nat (size - ovl)).
  assert (Hstep : (1 <= step)%nat) by (subst step; lia).
  induction m as [|m IH]; intros k fuel acc Hk Hfuel;
    (destruct fuel as [|fuel]; [lia|]); cbn [chunk_loop].
  - destruct (Z.ltb_spec (Z.of_nat (k * step)) (Z.of_nat (length words)))
      as [Hlt|_]; [nia|].
    replace (length words - k)%nat with 0%nat by lia.
    cbn. now rewrite app_nil_r.
  - destruct (Z.ltb_spec (Z.of_nat (k * step)) (Z.of_nat (length words)))
      as [Hlt|Hge].
    + assert (Hkn : (k < length words)%nat) by nia.
      replace (length words - k)%nat with (S (length words - S k)) by lia.
      cbn [seq map List.filter].
      destruct (Nat.ltb_spec (k * step) (length words)) as [_|Hbad]; [|lia].
      replace (Z.of_nat (k * step) + size)
        with (Z.of_nat (k * step) + Z.of_nat (Z.to_nat size)) by lia.
      rewrite slice_window by lia.
      replace (Z.of_nat (k * step) + (size - ovl))
        with (Z.of_nat (S k * step)) by (subst step; lia).
      rewrite IH by lia.
      unfold Spec.emitted. cbn [map List.filter chunk].
      destruct (20 <? len (join " " (Spec.window (Z.to_nat size) words (k * step))));
        [rewrite <- app_assoc|]; reflexivity.
    + rewrite starts_above by (try assumption; lia).
      cbn. now rewrite app_nil_r.
Qed.

Lemma chunk_loop_page (fuel : nat) (size ovl : Z) (p : Page)
    (acc : list Chunk) :
  0 <= ovl < size ->
  (length (split (page_text p)) < fuel)%nat ->
  chunk_loop fuel size ovl (page_number p) (split (page_text p)) 0 acc
  = Ok (acc ++ Spec.page_chunks (Z.to_nat size) (Z.to_nat size - Z.to_nat ovl) p).
Proof.
  intros Hcfg Hfuel.
  pose proof (chunk_loop_windows size ovl (page_number p)
                (split (page_text p)) Hcfg
                (length (split (page_text p))) 0 fuel acc) as H.
  change (Z.of_nat (0 * Z.to_nat (size - ovl))) with 0 in H. rewrite H by lia.
  rewrite Nat.sub_0_r. unfold Spec.page_chunks, Spec.window_starts, Spec.emitted.
  replace (Z.to_nat size - Z.to_nat ovl)%nat with (Z.to_nat (size - ovl)) by lia.
  reflexivity.
Qed.

Lemma pages_loop_spec (fuel : nat) (size ovl : Z) (ps : list Page) :
  0 <= ovl < size ->
  (forall p, In p ps -> (length (split (page_text p)) < fuel)%nat) ->
  forall acc,
    pages_loop fuel size ovl ps acc
    = Ok (acc ++ Spec.chunk_pages (Z.to_nat size) (Z.to_nat ovl) ps).
Proof.
  intros Hcfg. induction ps as [|p ps IH]; intros Hfuel acc.
  - cbn. now rewrite app_nil_r.
  - cbn [pages_loop]. rewrite chunk_loop_page by (auto using in_eq).
    cbn [bind]. rewrite IH by (intros; apply Hfuel; now right).
    unfold Spec.chunk_pages. cbn [flat_map]. now rewrite <- app_assoc.
Qed.

(** C3. With [0 <= overlap < chunk_size], [split_pages] returns and stores
    exactly the chunks of the sliding-window rule: per page the words of
    [text.split()], windows of [chunk_size] words at the offsets
    [0, step, 2*step, ...] below the word count with
    [step = chunk_size - overlap], each joined with single spaces, those
    longer than 20 characters kept, in window order within a page and page
    by page. [fuel] bounds the iterations of each [while] loop; any value
    above the largest word count of a page is enough. *)
Theorem split_pages_sliding_window (fuel : nat) (self : t) :
  0 <= overlap self < chunk_size self ->
  (forall p, In p (snd (ensure_pages self)) ->
             (length (split (page_text p)) < fuel)%nat) ->
  let all_chunks :=
    Spec.chunk_pages (Z.to_nat (chunk_size self)) (Z.to_nat (overlap self))
      (snd (ensure_pages self)) in
  split_pages fuel self
  = (set_chunks (fst (ensure_pages self)) all_chunks, Ok all_chunks).
Proof.
  intros Hcfg Hfuel. unfold split_pages.
  destruct (ensure_pages self) as [self1 ps] eqn:E.
  assert (Hsame : chunk_size self1 = chunk_size self
                  /\ overlap self1 = overlap self).
  { unfold ensure_pages, extract_pages in E.
    destruct (pages self); inversion E; subst; auto. }
  destruct Hsame as [-> ->]. cbn [fst snd] in *.
  rewrite pages_loop_spec by assumption. reflexivity.
Qed.

Lemma words_fuel_enough (ps : list Page) (fuel : nat) :
  (Spec.words_fuel ps <= fuel)%nat ->
  forall p, In p ps -> (length (split (page_text p)) < fuel)%nat.
Proof.
  unfold Spec.words_fuel. intros Hfuel p Hp.
  assert (H : (list_max (map (fun p => length (split (page_text p))) ps)
               <= list_max (map (fun p => length (split (page_text p))) ps))%nat)
    by lia.
  apply list_max_le in H. rewrite List.Forall_forall in H.
  specialize (H (length (split (page_text p)))
                (in_map (fun p => length (split (page_text p))) ps p Hp)).
  lia.
Qed.

(** With a valid configuration [split_pages] returns: from
    [Spec.words_fuel] on, every amount of fuel gives the chunk list. *)
Lemma split_pages_returns (fuel : nat) (self : t) :
  0 <= overlap self < chunk_size self ->
  (Spec.words_fuel (snd (ensure_pages self)) <= fuel)%nat ->
  snd (split_pages fuel self)
  = Ok (Spec.chunk_pages (Z.to_nat (chunk_size self))
          (Z.to_nat (overlap self)) (snd (ensure_pages self))).
Proof.
  intros Hcfg Hfuel. unfold split_pages.
  destruct (ensure_pages self) as [self1 ps] eqn:E.
  assert (Hsame : chunk_size self1 = chunk_size self
                  /\ overlap self1 = overlap self).
  { unfold ensure_pages, extract_pages in E.
    destruct (pages self); inversion E; subst; auto. }
  destruct Hsame as [-> ->]. cbn [fst snd] in *.
  rewrite pages_loop_spec; [reflexivity|assumption|].
  now apply words_fuel_enough.
Qed.

(** The five-word page of scenario C with [window = 3] and [overlap = 1]:
    the rule puts windows at the word offsets 0, 2 and 4. *)
Example window_starts_scenario_C : Spec.window_starts 5 (3 - 1) = [0; 2; 4]%nat.
Proof. reflexivity. Qed.

(** C3 on the sample document: the five-word page yields the windows at
    offsets 0 and 2 (the one-word tail at offset 4 is too short), the blank
    page nothing, the four-word page the window at offset 0. *)
Lemma split_pages_sliding_window_witness :
  split_pages 10 Sample.pipeline
  = (set_chunks (fst (ensure_pages Sample.pipeline))
       [mkChunk 1 "alpha0000 beta00000 gamma0000";
        mkChunk 1 "gamma0000 delta0000 epsilon00";
        mkChunk 3 "zeta00000 eta000000 theta0000"],
     Ok [mkChunk 1 "alpha0000 beta00000 gamma0000";
         mkChunk 1 "gamma0000 delta0000 epsilon00";
         mkChunk 3 "zeta00000 eta000000 theta0000"]).
Proof.
  refine (split_pages_sliding_window 10 Sample.pipeline _ _).
  - cbn. lia.
  - intros p Hp. cbn in Hp.
    destruct Hp as [<-|[<-|[<-|[]]]]; vm_compute; lia.
Defined.

(** ** No configuration is rejected *)

Lemma chunk_loop_never_raises (fuel : nat) (size ovl pno : Z)
    (words : list string) (start : Z) (acc : list Chunk) (e : exn) :
  chunk_loop fuel size ovl pno words start acc <> Raise e.
Proof.
  revert start acc. induction fuel as [|fuel IH]; intros start acc;
    cbn [chunk_loop]; [discriminate|].
  destruct (start <? Z.of_nat (length words)); [apply IH|discriminate].
Qed.

Lemma pages_loop_never_raises (fuel : nat) (size ovl : Z) (ps : list Page)
    (acc : list Chunk) (e : exn) :
  pages_loop fuel size ovl ps acc <> Raise e.
Proof.
  revert acc. induction ps as [|p ps IH]; intros acc; cbn [pages_loop];
    [discriminate|].
  destruct (chunk_loop fuel size ovl (page_number p) (split (page_text p)) 0 acc)
    as [acc'| e' |] eqn:E; cbn [bind].
  - apply IH.
  - now apply chunk_loop_never_raises in E.
  - discriminate.
Qed.

(** A positive step reaches the end of the words, whatever the window. *)
Lemma chunk_loop_terminates (size ovl pno : Z) (words : list string) :
  1 <= size - ovl ->
  forall (m fuel : nat) (start : Z) (acc : list Chunk),
    Z.of_nat (length words) - start <= Z.of_nat m -> (m < fuel)%nat ->
    exists acc', chunk_loop fuel size ovl pno words start acc = Ok acc'.
Proof.
  intros Hstep. induction m as [|m IH]; intros fuel start acc Hm Hfuel;
    (destruct fuel as [|fuel]; [lia|]); cbn [chunk_loop];
    destruct (Z.ltb_spec start (Z.of_nat (length words))) as [Hlt|Hge];
    eauto; try lia.
  apply IH; lia.
Qed.

Lemma pages_loop_terminates (fuel : nat) (size ovl : Z) (ps : list Page) :
  1 <= size - ovl ->
  (forall p, In p ps -> (length (split (page_text p)) < fuel)%nat) ->
  forall acc, exists acc', pages_loop fuel size ovl ps acc = Ok acc'.
Proof.
  intros Hstep. induction ps as [|p ps IH]; intros Hfuel acc;
    cbn [pages_loop]; [eauto|].
  destruct (chunk_loop_terminates size ovl (page_number p)
              (split (page_text p)) Hstep
              (length (split (page_text p))) fuel 0 acc) as [acc' ->];
    [lia|auto using in_eq|].
  cbn [bind]. apply IH. intros; apply Hfuel; now right.
Qed.

(** A step of zero or less never leaves the loop once it is entered. *)
Lemma chunk_loop_diverges (size ovl pno : Z) (words : list string) :
  size - ovl <= 0 ->
  forall (fuel : nat) (start : Z) (acc : list Chunk),
    start < Z.of_nat (length words) ->
    chunk_loop fuel size ovl pno words start acc = OutOfFuel.
Proof.
  intros Hstep. induction fuel as [|fuel IH]; intros start acc Hlt;
    cbn [chunk_loop]; [reflexivity|].
  destruct (Z.ltb_spec start (Z.of_nat (length words))); [|lia].
  apply IH; lia.
Qed.

Lemma pages_loop_diverges (fuel : nat) (size ovl : Z) (ps : list Page) :
  size - ovl <= 0 ->
  (exists p, In p ps /\ split (page_text p) <> []) ->
  forall acc, pages_loop fuel size ovl ps acc = OutOfFuel.
Proof.
  intros Hstep. induction ps as [|p ps IH]; intros [q [Hin Hq]] acc;
    [destruct Hin|]. cbn [pages_loop].
  destruct (split (page_text p)) as [|w ws] eqn:Ew.
  - destruct Hin as [->|Hin]; [congruence|].
    destruct fuel as [|fuel]; [reflexivity|]. cbn [chunk_loop length Z.of_nat].
    cbn [bind Z.ltb Z.compare]. apply IH. eauto.
  - rewrite chunk_loop_diverges; [reflexivity|assumption|cbn; lia].
Qed.

Lemma ensure_pages_config (self : t) :
  chunk_size (fst (ensure_pages self)) = chunk_size self
  /\ overlap (fst (ensure_pages self)) = overlap self.
Proof.
  unfold ensure_pages, extract_pages. destruct (pages self); auto.
Qed.

Lemma step_starts_above (n : nat) (step : Z) (k m : nat) :
  1 <= step -> Z.of_nat n <= Z.of_nat k * step ->
  List.filter (fun s => s <? Z.of_nat n)
    (map (fun j => Z.of_nat j * step) (seq k m))
  = [].
Proof.
  revert k. induction m as [|m IH]; intros k Hstep Hk; [reflexivity|].
  cbn [seq map List.filter].
  destruct (Z.ltb_spec (Z.of_nat k * step) (Z.of_nat n)) as [Hlt|_]; [lia|].
  apply IH; [assumption|nia].
Qed.

(** The loop for one page with any step of at least one: from the [k]-th
    start on, it appends the kept windows at the remaining starts. *)
Lemma chunk_loop_steps (size ovl pno : Z) (words : list string) :
  1 <= size - ovl ->
  forall (m k fuel : nat) (acc : list Chunk),
    (length words <= k + m)%nat -> (m < fuel)%nat ->
    chunk_loop fuel size ovl pno words (Z.of_nat k * (size - ovl)) acc
    = Ok (acc ++ List.filter (fun c => 20 <? len (chunk c))
                   (map (fun s => mkChunk pno
                                    (join " " (slice words s (s + size))))
                      (List.filter (fun s => s <? Z.of_nat (length words))
                         (map (fun j => Z.of_nat j * (size - ovl))
                              (seq k (length words - k)))))).
Proof.
  intros Hstep. induction m as [|m IH]; intros k fuel acc Hk Hfuel;
    (destruct fuel as [|fuel]; [lia|]); cbn [chunk_loop].
  - destruct (Z.ltb_spec (Z.of_nat k * (size - ovl))
                (Z.of_nat (length words))) as [Hlt|_]; [nia|].
    replace (length words - k)%nat with 0%nat by lia.
    cbn. now rewrite app_nil_r.
  - destruct (Z.ltb_spec (Z.of_nat k * (size - ovl))
                (Z.of_nat (length words))) as [Hlt|Hge].
    + assert (Hkn : (k < length words)%nat) by nia.
      replace (length words - k)%nat with (S (length words - S k)) by lia.
      cbn [seq map List.filter].
      destruct (Z.ltb_spec (Z.of_nat k * (size - ovl))
                  (Z.of_nat (length words))) as [_|Hbad]; [|lia].
      replace (Z.of_nat k * (size - ovl) + (size - ovl))
        with (Z.of_nat (S k) * (size - ovl)) by lia.
      rewrite IH by lia. cbn [map List.filter chunk].
      destruct (20 <? len (join " " (slice words (Z.of_nat k * (size - ovl))
                                       (Z.of_nat k * (size - ovl) + size))));
        [rewrite <- app_assoc|]; reflexivity.
    + rewrite step_starts_above by (try assumption; lia).
      cbn. now rewrite app_nil_r.
Qed.

Lemma chunk_loop_page_step (fuel : nat) (size ovl : Z) (p : Page)
    (acc : list Chunk) :
  1 <= size - ovl ->
  (length (split (page_text p)) < fuel)%nat ->
  chunk_loop fuel size ovl (page_number p) (split (page_text p)) 0 acc
  = Ok (acc ++ Spec.page_chunks_step size (size - ovl) p).
Proof.
  intros Hstep Hfuel.
  pose proof (chunk_loop_steps size ovl (page_number p)
                (split (page_text p)) Hstep
                (length (split (page_text p))) 0 fuel acc) as H.
  change (Z.of_nat 0 * (size - ovl)) with 0 in H. rewrite H by lia.
  rewrite Nat.sub_0_r. reflexivity.
Qed.

Lemma pages_loop_steps (fuel : nat) (size ovl : Z) (ps : list Page) :
  1 <= size - ovl ->
  (forall p, In p ps -> (length (split (page_text p)) < fuel)%nat) ->
  forall acc,
    pages_loop fuel size ovl ps acc
    = Ok (acc ++ Spec.chunk_pages_step size (size - ovl) ps).
Proof.
  intros Hstep. induction ps as [|p ps IH]; intros Hfuel acc.
  - cbn. now rewrite app_nil_r.
  - cbn [pages_loop]. rewrite chunk_loop_page_step by (auto using in_eq).
    cbn [bind]. rewrite IH by (intros; apply Hfuel; now right).
    unfold Spec.chunk_pages_step. cbn [flat_map]. now rewrite <- app_assoc.
Qed.

(** C6, as the code has it. Neither [__init__] nor [split_pages] checks
    [chunk_size] and [overlap]: [split_pages] never raises, and whenever
    [chunk_size - overlap >= 1], also with a negative overlap or with
    [overlap >= 0] failing in any other way, it chunks with that step. It
    returns and stores exactly the chunks of [Spec.chunk_pages_step]: per
    page the windows [words[start : start + chunk_size]] at the starts
    [0, step, 2*step, ...] below the word count, joined with single
    spaces, those longer than 20 characters kept, page by page. *)
Theorem split_pages_no_validation (fuel : nat) (self : t) :
  (forall e, snd (split_pages fuel self) <> Raise e)
  /\ (1 <= chunk_size self - overlap self ->
      (forall p, In p (snd (ensure_pages self)) ->
                 (length (split (page_text p)) < fuel)%nat) ->
      let all_chunks :=
        Spec.chunk_pages_step (chunk_size self)
          (chunk_size self - overlap self) (snd (ensure_pages self)) in
      split_pages fuel self
      = (set_chunks (fst (ensure_pages self)) all_chunks, Ok all_chunks)).
Proof.
  pose proof (ensure_pages_config self) as [Hs Ho].
  unfold split_pages. destruct (ensure_pages self) as [self1 ps].
  cbn [fst snd] in *. rewrite Hs, Ho. split.
  - intros e.
    destruct (pages_loop fuel (chunk_size self) (overlap self) ps []) eqn:E;
      cbn [snd]; try discriminate.
    now apply pages_loop_never_raises in E.
  - intros Hstep Hfuel. cbv zeta.
    rewrite (pages_loop_steps fuel _ _ ps Hstep Hfuel []). reflexivity.
Qed.

(** With [chunk_size - overlap <= 0] the loop of [split_pages] is never
    left once a page has a word: no amount of fuel gives a result. *)
Lemma split_pages_diverges (fuel : nat) (self : t) :
  chunk_size self - overlap self <= 0 ->
  (exists p, In p (snd (ensure_pages self)) /\ split (page_text p) <> []) ->
  snd (split_pages fuel self) = OutOfFuel.
Proof.
  pose proof (ensure_pages_config self) as [Hs Ho].
  unfold split_pages. destruct (ensure_pages self) as [self1 ps].
  cbn [fst snd] in *. rewrite Hs, Ho.
  intros Hstep Hp. now rewrite pages_loop_diverges.
Qed.

(** C6 on a sample: the sample document chunked with window 3 and
    overlap -1, that is with step 4. The five-word page has the windows
    at the starts 0 and 4, of which the one-word window at 4 is too
    short; the four-word page has the window at 0. *)
Lemma split_pages_no_validation_witness :
  split_pages 10 (init Sample.pdf 3 (-1))
  = (set_chunks (fst (ensure_pages (init Sample.pdf 3 (-1))))
       [mkChunk 1 "alpha0000 beta00000 gamma0000";
        mkChunk 3 "zeta00000 eta000000 theta0000"],
     Ok [mkChunk 1 "alpha0000 beta00000 gamma0000";
         mkChunk 3 "zeta00000 eta000000 theta0000"]).
Proof.
  refine (proj2 (split_pages_no_validation 10 (init Sample.pdf 3 (-1))) _ _).
  - cbn. lia.
  - intros p Hp. cbn in Hp.
    destruct Hp as [<-|[<-|[<-|[]]]]; vm_compute; lia.
Defined.

(** A window size below zero is accepted as well: with window -2 and
    overlap -5 the step is 3, and the slice [words[0 : -2]] of the first
    window holds all words of a page but the last two. *)
Example negative_window_size :
  snd (split_pages 10 (init Sample.pdf (-2) (-5)))
  = Ok [mkChunk 1 "alpha0000 beta00000 gamma0000"].
Proof. vm_compute. reflexivity. Qed.

(** Window 3 with overlap 3 on the sample document: step 0. *)
Example split_pages_step_0 :
  snd (split_pages 10 (init Sample.pdf 3 3)) = OutOfFuel.
Proof. vm_compute. reflexivity. Qed.

(** C6 as stated fails: window 3 with overlap -1 violates
    [0 <= overlap < window], yet [split_pages] raises nothing and returns
    two chunks. *)
Lemma invalid_config_not_rejected :
  Spec.valid_config 3 (-1) = false
  /\ snd (split_pages 10 (init Sample.pdf 3 (-1)))
     = Ok [mkChunk 1 "alpha0000 beta00000 gamma0000";
           mkChunk 3 "zeta00000 eta000000 theta0000"].
Proof. split; vm_compute; reflexivity. Qed.

End Chunking.

(* ===================================================================== *)
(** * Retrieval ([search_query]) *)
(* ===================================================================== *)

Module Retrieval.

Import PDFRAGPipeline.

Lemma slice_from_0 {A} (l : list A) (stop : Z) :
  slice l 0 stop = take (Z.to_nat (slice_bound (Z.of_nat (length l)) stop)) l.
Proof.
  unfold slice. replace (slice_bound (Z.of_nat (length l)) 0) with 0.
  - rewrite Z.sub_0_r. reflexivity.
  - unfold slice_bound. cbn. lia.
Qed.

Lemma slice_top_k {A} (l : list A) (top_k : Z) :
  0 <= top_k -> slice l 0 top_k = take (Z.to_nat top_k) l.
Proof.
  intros Hk. rewrite slice_from_0. unfold slice_bound.
  destruct (Z.ltb_spec top_k 0); [lia|].
  destruct (Z.le_gt_cases top_k (Z.of_nat (length l))).
  - now rewrite Z.min_l by lia.
  - rewrite Z.min_r by lia. rewrite Nat2Z.id.
    rewrite !take_ge; [reflexivity|lia|lia].
Qed.

Lemma StronglySorted_lookup {A} (R : A -> A -> Prop) (l : list A) :
  StronglySorted R l ->
  forall p q x y, (p < q)%nat -> l !! p = Some x -> l !! q = Some y -> R x y.
Proof.
  induction 1 as [|a l Hl IH Ha]; intros p q x y Hpq Hp Hq.
  - destruct p; discriminate.
  - destruct q as [|q]; [lia|]. cbn in Hq. destruct p as [|p].
    + cbn in Hp. inversion Hp; subst.
      rewrite List.Forall_forall in Ha. apply Ha.
      apply list_elem_of_In. eapply list_elem_of_lookup_2; eauto.
    + cbn in Hp. eapply IH; [|eassumption|eassumption]. lia.
Qed.

Lemma select_ok {A} (cs : list A) (idx : list nat) :
  Forall (fun i => (i < length cs)%nat) idx ->
  exists results,
    select cs idx = Ok results
    /\ Forall2 (fun i c => cs !! i = Some c) idx results.
Proof.
  induction 1 as [|i idx Hi _ [results [Hsel Hres]]].
  - exists []. split; [reflexivity|constructor].
  - apply lookup_lt_is_Some_2 in Hi. destruct Hi as [c Hc].
    exists (c :: results). cbn [select]. rewrite Hc, Hsel. cbn.
    split; [reflexivity|now constructor].
Qed.

Section Ranking.

Context {score : Type} (lt : score -> score -> bool).
Context (get_scores : BM25 -> list string -> list score).

(** Python's [<] on the scores is a strict weak order: the scores of
    BM25 are finite floats. *)
Hypothesis lt_irrefl : forall a, lt a a = false.
Hypothesis lt_trans :
  forall a b c, lt a b = true -> lt b c = true -> lt a c = true.
Hypothesis lt_neg_trans :
  forall a b c, lt a b = false -> lt b c = false -> lt a c = false.

(** [get_scores] returns one score per document of the index. *)
Hypothesis get_scores_length :
  forall ix q, length (get_scores ix q) = length ix.

Local Abbreviation before := (Spec.before lt).

Lemma lt_asym a b : lt a b = true -> lt b a = false.
Proof.
  intros Hab. destruct (lt b a) eqn:Hba; [|reflexivity].
  pose proof (lt_trans _ _ _ Hab Hba) as H. now rewrite lt_irrefl in H.
Qed.

Lemma insert_desc_perm x l : Permutation (insert_desc lt x l) (x :: l).
Proof.
  induction l as [|y l IH]; cbn [insert_desc]; [reflexivity|].
  destruct (lt (snd x) (snd y)); [|reflexivity].
  rewrite IH. apply perm_swap.
Qed.

Lemma insert_desc_sorted x l :
  StronglySorted before l ->
  Forall (fun y => (fst x < fst y)%nat) l ->
  StronglySorted before (insert_desc lt x l).
Proof.
  induction 1 as [|y l Hl IH Hy]; intros Hidx; cbn [insert_desc].
  - repeat constructor.
  - inversion Hidx as [|? ? Hxy Hxl]; subst.
    destruct (lt (snd x) (snd y)) eqn:Hlt.
    + constructor; [now apply IH|].
      rewrite (insert_desc_perm x l). constructor; [|assumption].
      split; [now apply lt_asym|]. intros H. congruence.
    + constructor; [now constructor|].
      constructor; [split; auto|].
      rewrite List.Forall_forall in *. intros z Hz. split.
      * eapply lt_neg_trans; [exact Hlt|]. now apply (Hy z).
      * intros _. now apply Hxl.
Qed.

Lemma keyed_from_above (i : nat) (scores : list score) :
  Forall (fun y => (i <= fst y)%nat) (keyed_from i scores).
Proof.
  revert i. induction scores as [|s rest IH]; intros i; cbn [keyed_from];
    constructor; [cbn; lia|].
  eapply List.Forall_impl; [|apply IH]. cbn. intros; lia.
Qed.

Lemma keyed_from_fst (i : nat) (scores : list score) :
  map fst (keyed_from i scores) = seq i (length scores).
Proof.
  revert i. induction scores as [|s rest IH]; intros i; cbn; [reflexivity|].
  now rewrite IH.
Qed.

Lemma keyed_from_lookup (i : nat) (scores : list score) x :
  In x (keyed_from i scores) ->
  (i <= fst x)%nat /\ scores !! (fst x - i)%nat = Some (snd x).
Proof.
  revert i. induction scores as [|s rest IH]; intros i; cbn [keyed_from In];
    [tauto|].
  intros [<-|Hin].
  - cbn. rewrite Nat.sub_diag. auto.
  - apply IH in Hin as [Hle Hl]. split; [lia|].
    replace (fst x - i)%nat with (S (fst x - S i)) by lia. exact Hl.
Qed.

Lemma sort_perm (l : list (nat * score)) :
  Permutation (foldr (insert_desc lt) [] l) l.
Proof.
  induction l as [|x l IH]; cbn [foldr]; [constructor|].
  rewrite insert_desc_perm. now constructor.
Qed.

Lemma sort_sorted (i : nat) (scores : list score) :
  StronglySorted before (foldr (insert_desc lt) [] (keyed_from i scores)).
Proof.
  revert i. induction scores as [|s rest IH]; intros i; cbn [keyed_from foldr].
  - constructor.
  - apply insert_desc_sorted; [apply IH|].
    rewrite sort_perm. eapply List.Forall_impl; [|apply keyed_from_above].
    cbn. intros; lia.
Qed.

Lemma sorted_reverse_perm (scores : list score) :
  Permutation (sorted_reverse lt scores) (seq 0 (length scores)).
Proof.
  unfold sorted_reverse. rewrite <- keyed_from_fst.
  apply Permutation_map, sort_perm.
Qed.

Lemma sorted_reverse_ranked (scores : list score) :
  Spec.ranked lt scores (sorted_reverse lt scores).
Proof.
  unfold sorted_reverse.
  pose proof (sort_sorted 0 scores) as Hs.
  pose proof (sort_perm (keyed_from 0 scores)) as Hp.
  set (L := foldr (insert_desc lt) [] (keyed_from 0 scores)) in *.
  assert (Hkey : forall x, In x L -> scores !! fst x = Some (snd x)).
  { intros x Hx. eapply Permutation_in in Hx; [|exact Hp].
    apply keyed_from_lookup in Hx as [_ Hx].
    now rewrite Nat.sub_0_r in Hx. }
  split.
  - rewrite List.Forall_forall. intros i Hi. apply in_map_iff in Hi.
    destruct Hi as [x [<- Hx]]. rewrite (Hkey x Hx). eauto.
  - intros p q i j si sj Hpq Hp' Hq' Hsi Hsj.
    change (map fst L) with (fst <$> L) in Hp', Hq'.
    rewrite list_lookup_fmap in Hp', Hq'.
    destruct (L !! p) as [x|] eqn:Ex; [|discriminate].
    destruct (L !! q) as [y|] eqn:Ey; [|discriminate].
    cbn in Hp', Hq'. inversion Hp'; inversion Hq'; subst.
    pose proof (StronglySorted_lookup _ _ Hs p q x y Hpq Ex Ey) as [H1 H2].
    assert (Hx : In x L).
    { apply list_elem_of_In. eapply list_elem_of_lookup_2; eauto. }
    assert (Hy : In y L).
    { apply list_elem_of_In. eapply list_elem_of_lookup_2; eauto. }
    apply Hkey in Hx, Hy. rewrite Hsi in Hx. rewrite Hsj in Hy.
    inversion Hx; inversion Hy; subst. auto.
Qed.

Lemma ranked_take (scores : list score) (idx : list nat) (m : nat) :
  Spec.ranked lt scores idx -> Spec.ranked lt scores (take m idx).
Proof.
  intros [Hall Hord]. split; [now apply Forall_take|].
  intros p q i j si sj Hpq Hp Hq.
  apply lookup_take_Some in Hp as [Hp _].
  apply lookup_take_Some in Hq as [Hq _]. eauto.
Qed.

Lemma top_indices_prefix (scores : list score) (top_k : Z) :
  exists m, top_indices lt scores top_k = take m (sorted_reverse lt scores).
Proof. unfold top_indices. rewrite slice_from_0. eauto. Qed.

Lemma top_indices_in_range (scores : list score) (top_k : Z) :
  Forall (fun i => (i < length scores)%nat) (top_indices lt scores top_k).
Proof.
  destruct (top_indices_prefix scores top_k) as [m ->].
  apply Forall_take. rewrite List.Forall_forall. intros i Hi.
  eapply Permutation_in in Hi; [|apply sorted_reverse_perm].
  apply in_seq in Hi. lia.
Qed.

Lemma sorted_reverse_length (scores : list score) :
  length (sorted_reverse lt scores) = length scores.
Proof.
  rewrite (Permutation_length (sorted_reverse_perm scores)).
  apply length_seq.
Qed.

Lemma sorted_reverse_NoDup (scores : list score) :
  List.NoDup (sorted_reverse lt scores).
Proof.
  eapply Permutation_NoDup; [symmetry; apply sorted_reverse_perm|].
  apply seq_NoDup.
Qed.

Lemma NoDup_take_list {A} (l : list A) (m : nat) :
  List.NoDup l -> List.NoDup (take m l).
Proof.
  intros H. rewrite <- (take_drop m l) in H.
  now apply NoDup_app_remove_r in H.
Qed.

(** C9. On a pipeline whose chunks and index are built, [search_query]
    returns, for every query and every [top_k], a list whose elements
    all belong to the stored chunk list, and the pipeline it leaves is
    the one it was given: pages, chunks and index are untouched. *)
Theorem search_query_read_only (fuel : nat) (self : t) (query : string)
    (top_k : Z) (cs : list Chunk) :
  Spec.built_over self cs ->
  exists results,
    search_query lt get_scores fuel self query top_k = (self, Ok results)
    /\ Forall (fun c => In c cs) results.
Proof.
  intros [Hcs Hix]. unfold search_query, ensure_index. rewrite Hix, Hcs.
  set (scores := get_scores _ _).
  destruct (select_ok cs (top_indices lt scores top_k)) as [results [-> Hres]].
  - eapply List.Forall_impl; [|apply top_indices_in_range].
    intros i Hi. subst scores. cbn in Hi.
    now rewrite get_scores_length, length_map in Hi.
  - exists results. split; [reflexivity|].
    clear -Hres. induction Hres as [|i c idx results Hc _ IH]; constructor;
      [|assumption].
    apply list_elem_of_In. eapply list_elem_of_lookup_2; eauto.
Qed.

(** C4. On an index built over [n] chunks and for [top_k >= 0],
    [search_query] returns [min(top_k, n)] results, taken from distinct
    chunk indices [idx]; along [idx] the scores of the query never
    increase, and of two results with equal scores the one with the
    smaller chunk index comes first. *)
Theorem search_query_ranked (fuel : nat) (self : t) (query : string)
    (top_k : Z) (cs : list Chunk) :
  Spec.built_over self cs ->
  0 <= top_k ->
  let scores :=
    get_scores (map (fun c => split (chunk c)) cs) (split query) in
  exists idx results,
    search_query lt get_scores fuel self query top_k = (self, Ok results)
    /\ Forall2 (fun i c => cs !! i = Some c) idx results
    /\ List.NoDup idx
    /\ length results = Nat.min (Z.to_nat top_k) (length cs)
    /\ Spec.ranked lt scores idx.
Proof.
  intros [Hcs Hix] Hk scores. unfold search_query, ensure_index.
  rewrite Hix, Hcs. fold scores.
  assert (Hlen : length scores = length cs).
  { subst scores. now rewrite get_scores_length, length_map. }
  destruct (select_ok cs (top_indices lt scores top_k)) as [results [-> Hres]].
  { rewrite <- Hlen. apply top_indices_in_range. }
  exists (top_indices lt scores top_k), results.
  split; [reflexivity|]. split; [assumption|].
  unfold top_indices in *. rewrite slice_top_k in * by assumption.
  split; [apply NoDup_take_list, sorted_reverse_NoDup|]. split.
  - rewrite <- (Forall2_length _ _ _ Hres), length_take,
      sorted_reverse_length, Hlen. reflexivity.
  - apply ranked_take, sorted_reverse_ranked.
Qed.

End Ranking.

(** The sample scorer meets the assumptions on BM25. *)
Lemma overlap_scores_length (ix : BM25) (q : list string) :
  length (Sample.overlap_scores ix q) = length ix.
Proof. apply length_map. Qed.

Lemma Zltb_trans (a b c : Z) :
  (a <? b) = true -> (b <? c) = true -> (a <? c) = true.
Proof. rewrite !Z.ltb_lt. lia. Qed.

Lemma Zltb_neg_trans (a b c : Z) :
  (a <? b) = false -> (b <? c) = false -> (a <? c) = false.
Proof. rewrite !Z.ltb_ge. lia. Qed.

Lemma sample_built_over :
  Spec.built_over Sample.built
    [mkChunk 1 "alpha0000 beta00000 gamma0000";
     mkChunk 1 "gamma0000 delta0000 epsilon00";
     mkChunk 3 "zeta00000 eta000000 theta0000"].
Proof. split; vm_compute; reflexivity. Qed.

(** C9 on the sample pipeline, with a negative [top_k]. *)
Lemma search_query_read_only_witness :
  exists results,
    Sample.search Sample.built "gamma0000 theta0000" (-1)
    = (Sample.built, Ok results)
    /\ Forall (fun c => In c [mkChunk 1 "alpha0000 beta00000 gamma0000";
                              mkChunk 1 "gamma0000 delta0000 epsilon00";
                              mkChunk 3 "zeta00000 eta000000 theta0000"])
              results.
Proof.
  apply (search_query_read_only Z.ltb Sample.overlap_scores
           overlap_scores_length 10 Sample.built "gamma0000 theta0000" (-1)).
  exact sample_built_over.
Defined.

(** C4 on the sample pipeline: all three chunks score 1 for the query, and
    the two best are asked for. *)
Lemma search_query_ranked_witness :
  exists idx results,
    Sample.search Sample.built "gamma0000 theta0000" 2
    = (Sample.built, Ok results)
    /\ Forall2 (fun i c =>
                  [mkChunk 1 "alpha0000 beta00000 gamma0000";
                   mkChunk 1 "gamma0000 delta0000 epsilon00";
                   mkChunk 3 "zeta00000 eta000000 theta0000"] !! i = Some c)
               idx results
    /\ List.NoDup idx
    /\ length results = 2%nat
    /\ Spec.ranked Z.ltb [1; 1; 1] idx.
Proof.
  apply (search_query_ranked Z.ltb Sample.overlap_scores
           Z.ltb_irrefl Zltb_trans Zltb_neg_trans overlap_scores_length
           10 Sample.built "gamma0000 theta0000" 2).
  - exact sample_built_over.
  - lia.
Defined.

(** Ties on the sample: the three equal scores keep the corpus order. *)
Example sample_ties :
  snd (Sample.search Sample.built "gamma0000 theta0000" 2)
  = Ok [mkChunk 1 "alpha0000 beta00000 gamma0000";
        mkChunk 1 "gamma0000 delta0000 epsilon00"].
Proof. vm_compute. reflexivity. Qed.

(** A negative [top_k] drops results from the end instead of giving none. *)
Example negative_top_k :
  top_indices Z.ltb [1; 3; 2; 3; 0] (-1) = [1; 3; 2; 0]%nat.
Proof. vm_compute. reflexivity. Qed.

End Retrieval.

(* ===================================================================== *)
(** * The grounding prompt ([generate_answer]) *)
(* ===================================================================== *)

Module Prompt.

Import LLMPipeline.
Import JsonFacts.

Lemma contains_middle (pre x post : string) : contains x (pre +:+ x +:+ post).
Proof. now exists pre, post. Qed.

Lemma prompt_layout (query context : string) :
  prompt query context = prompt_head +:+ context +:+ prompt_middle +:+ query +:+ prompt_tail.
Proof. unfold prompt, prompt_head, prompt_middle, prompt_tail. rewrite ?append_assoc; reflexivity. Qed.

Lemma instruction_in_head : contains instruction prompt_head.
Proof.
  exists ("Use the following context extracted from the document to answer the question."
          +:+ nl),
         (nl +:+ nl +:+ "Context:" +:+ nl).
  unfold prompt_head. rewrite ?append_assoc; reflexivity.
Qed.

(** C10. For every query and every context, the empty one included,
    [generate_answer] hands the generator the prompt written out below:
    the line "Use the following context ...", the line that tells it to
    say "I don't know." if the answer is not contained in the context, an
    empty line, "Context:", the context, an empty line, "Question:", the
    query, an empty line and "Answer:". So the prompt contains that
    instruction, the context and the query verbatim whatever was
    retrieved. *)
Theorem prompt_grounding (self : LLMPipeline.t) (query context : string) :
  let newline := String "010"%char EmptyString in
  let quote := String "034"%char EmptyString in
  let told :=
    "If the answer is not contained in the context, say "
    +:+ quote +:+ "I don't know." +:+ quote in
  generate_answer self query context
  = bind (model_pipeline self (prompt query context)
            (max_length self) (do_sample self))
         generated_text
  /\ prompt query context
     = "Use the following context extracted from the document to answer the question."
       +:+ newline +:+ told +:+ newline
       +:+ newline +:+ "Context:" +:+ newline
       +:+ context +:+ newline
       +:+ newline +:+ "Question:" +:+ newline
       +:+ query +:+ newline
       +:+ newline +:+ "Answer:"
  /\ contains told (prompt query context)
  /\ contains context (prompt query context)
  /\ contains query (prompt query context).
Proof.
  cbv zeta. split; [reflexivity|]. split; [reflexivity|].
  rewrite prompt_layout. repeat split.
  - change (contains instruction
              (prompt_head +:+ context +:+ prompt_middle +:+ query
               +:+ prompt_tail)).
    destruct instruction_in_head as [pre [post ->]].
    exists pre, (post +:+ context +:+ prompt_middle +:+ query +:+ prompt_tail).
    rewrite ?append_assoc; reflexivity.
  - apply contains_middle.
  - exists (prompt_head +:+ context +:+ prompt_middle), prompt_tail. rewrite ?append_assoc; reflexivity.
Qed.

(** The instruction is there with an empty context as well. *)
Example prompt_empty_context :
  prompt "Who?" "" = prompt_head +:+ prompt_middle +:+ "Who?" +:+ prompt_tail.
Proof. vm_compute. reflexivity. Qed.

End Prompt.

(* ===================================================================== *)
(** * The feedback ledger ([answer_query], [feedback_callback], save/load) *)
(* ===================================================================== *)

Module Ledger.

Import PDFRAGPipeline TelegramRAGBot.

Section Handlers.

Context {R : Type}.
Context (search_query : R -> string -> Z -> R * result (list Chunk)).
Context (json_dump : value -> string).
Context (json_load : string -> option value).

Lemma iadd_total (t c i : Z) :
  iadd_item (Spec.stats_dict t c i) "total" = Ok (Spec.stats_dict (t + 1) c i).
Proof. reflexivity. Qed.

Lemma iadd_correct (t c i : Z) :
  iadd_item (Spec.stats_dict t c i) "correct"
  = Ok (Spec.stats_dict t (c + 1) i).
Proof. reflexivity. Qed.

Lemma iadd_incorrect (t c i : Z) :
  iadd_item (Spec.stats_dict t c i) "incorrect"
  = Ok (Spec.stats_dict t c (i + 1)).
Proof. reflexivity. Qed.

(** ** Failed generation *)

(** C7. When retrieval has returned its best chunk and the call of
    [generate_answer] on it raises (the collaborator is unreachable, or
    its output has no first element or no ['generated_text']),
    [answer_query] appends no record and leaves [stats] as it was; the
    handler itself returns normally, having logged the exception and
    replied with the error text. *)
Theorem generation_failure_atomic (self : t R) (user_query : string)
    (rp : R) (c : Chunk) (cs : list Chunk) (e : exn) :
  search_query (retrieval_pipeline self) user_query 1 = (rp, Ok (c :: cs)) ->
  LLMPipeline.generate_answer (llm_pipeline self) user_query (chunk c)
  = Raise e ->
  answer_query search_query self user_query
  = (set_retrieval self rp, Ok [logger_error e; reply_text ErrorMsg])
  /\ stats (fst (answer_query search_query self user_query)) = stats self
  /\ qa_log (fst (answer_query search_query self user_query)) = qa_log self.
Proof.
  intros Hs Hg.
  assert (H : answer_query search_query self user_query
              = (set_retrieval self rp,
                 Ok [logger_error e; reply_text ErrorMsg])).
  { unfold answer_query, answer_try. rewrite Hs.
    cbn [set_retrieval llm_pipeline]. rewrite Hg. reflexivity. }
  rewrite H. auto.
Qed.

(** A generator whose output is malformed raises inside
    [generate_answer], so C7 covers it. *)
Lemma malformed_output_raises (mp : string -> Z -> bool -> result (list (option string)))
    (n : Z) (b : bool) (query context : string) :
  (mp (LLMPipeline.prompt query context) n b = Ok []
   -> LLMPipeline.generate_answer (LLMPipeline.mk mp n b) query context
      = Raise IndexError)
  /\ (forall rest, mp (LLMPipeline.prompt query context) n b = Ok (None :: rest)
      -> LLMPipeline.generate_answer (LLMPipeline.mk mp n b) query context
         = Raise KeyError).
Proof.
  split; [intros H|intros rest H]; unfold LLMPipeline.generate_answer;
    cbn [LLMPipeline.model_pipeline LLMPipeline.max_length
         LLMPipeline.do_sample]; now rewrite H.
Qed.

(** ** The ledger invariant *)

Local Abbreviation conserved self :=
  (Spec.conserved (stats self) (qa_log self)).

Lemma init_conserved (rp : R) llm sp qp : conserved (init rp llm sp qp).
Proof. exists 0, 0, 0, []. repeat split. Qed.

Lemma conserved_well_formed (s q : value) :
  Spec.conserved s q ->
  Json.well_formed s = true /\ Json.well_formed q = true.
Proof. intros (t & c & i & recs & -> & -> & _ & Hwf). split; auto. Qed.

Lemma dict_set_keys (k : string) (v x : value) (d : list (string * value)) :
  dict_get k d = Some x -> map fst (dict_set k v d) = map fst d.
Proof.
  induction d as [|[k' v'] d IH]; [discriminate|]. cbn [dict_get dict_set].
  destruct (String.eqb k k'); [reflexivity|]. intros H. cbn. now rewrite IH.
Qed.

Lemma dict_set_well_formed (k : string) (v : value)
    (d : list (string * value)) :
  Json.well_formed v = true ->
  forallb (fun kv => Json.well_formed (snd kv)) d = true ->
  forallb (fun kv => Json.well_formed (snd kv)) (dict_set k v d) = true.
Proof.
  intros Hv. induction d as [|[k' v'] d IH]; cbn [dict_set forallb snd].
  - now rewrite Hv.
  - intros H. apply andb_true_iff in H as [H1 H2].
    destruct (String.eqb k k'); cbn [forallb snd].
    + now rewrite Hv, H2.
    + now rewrite H1, IH.
Qed.

Lemma replace_last_well_formed (recs : list value)
    (d : list (string * value)) (k : string) (v x : value) :
  last recs = Some (PDict d) ->
  dict_get k d = Some x ->
  Json.well_formed v = true ->
  forallb Json.well_formed recs = true ->
  forallb Json.well_formed
    (take (length recs - 1) recs ++ [PDict (dict_set k v d)]) = true.
Proof.
  intros Hlast Hk Hv Hwf. apply last_Some in Hlast as [l' ->].
  rewrite length_app, Nat.add_sub, take_app_length.
  rewrite forallb_app in *. apply andb_true_iff in Hwf as [Hl' Hd].
  rewrite Hl'. cbn [forallb Json.well_formed andb] in *.
  rewrite andb_true_r in *. apply andb_true_iff in Hd as [Hkeys Hvals].
  rewrite (dict_set_keys k v x d Hk), Hkeys.
  now apply dict_set_well_formed.
Qed.

Lemma answer_query_conserved (self : t R) (q : string) :
  conserved self -> conserved (fst (answer_query search_query self q)).
Proof.
  intros (t & c & i & recs & Hst & Hlog & Ht & Hwf).
  assert (Hkeep : forall rp, conserved (set_retrieval self rp)).
  { intros rp. exists t, c, i, recs. auto. }
  unfold answer_query, answer_try.
  destruct (search_query (retrieval_pipeline self) q 1)
    as [rp [[|ch chs]|e|]]; cbn [fst]; auto.
  cbn [set_retrieval llm_pipeline stats qa_log].
  destruct (LLMPipeline.generate_answer (llm_pipeline self) q (chunk ch))
    as [answer|e|]; cbn [fst]; auto.
  rewrite Hst, iadd_total. cbn [set_stats set_retrieval qa_log]. rewrite Hlog.
  cbn [append set_qa_log fst].
  exists (t + 1), c, i,
    (recs ++ [qa_record q (chunk ch) (page ch) answer]).
  repeat split.
  - rewrite length_app. cbn. lia.
  - rewrite forallb_app, Hwf. reflexivity.
Qed.

Lemma last_unrated_true (recs : list value) :
  last_unrated (PList recs) = Ok true ->
  exists d, last recs = Some (PDict d) /\ dict_get "feedback" d = Some PNone.
Proof.
  unfold last_unrated. destruct recs as [|r0 recs0]; [discriminate|].
  cbn [truthy getitem_last].
  destruct (last (r0 :: recs0)) as [x|]; [|discriminate]. cbn [bind].
  destruct x as [| | | |d]; try discriminate. cbn [getitem].
  destruct (dict_get "feedback" d) as [v|] eqn:Ed; [|discriminate].
  cbn [bind]. destruct v; try discriminate. eauto.
Qed.

Lemma feedback_callback_conserved (self : t R) (fs : storage) (data : string) :
  conserved self ->
  conserved (fst (fst (feedback_callback json_dump self fs data))).
Proof.
  intros (t & c & i & recs & Hst & Hlog & Ht & Hwf).
  unfold feedback_callback. rewrite Hst.
  set (stats' := if String.eqb data "feedback_yes"
                 then Spec.stats_dict t (c + 1) i
                 else Spec.stats_dict t c (i + 1)).
  replace (iadd_item (Spec.stats_dict t c i)
             (if String.eqb data "feedback_yes" then "correct" else "incorrect"))
    with (Ok stats') by (subst stats'; now destruct (String.eqb data _)).
  assert (Hstats' : exists c' i', stats' = Spec.stats_dict t c' i').
  { subst stats'. destruct (String.eqb data _); eauto. }
  destruct Hstats' as (c' & i' & Hstats').
  assert (Hkeep : conserved (set_stats self stats')).
  { exists t, c', i', recs. auto. }
  cbn [set_stats qa_log stats_path qa_log_path]. rewrite Hlog.
  destruct (last_unrated (PList recs)) as [[|]|e|] eqn:Hlast; cbn [fst];
    auto.
  apply last_unrated_true in Hlast as (d & Hd & Hfb).
  cbn [setitem_last]. rewrite Hd. cbn [setitem bind fst set_qa_log].
  cbn [save_stats save_qa_log fst stats qa_log].
  eexists t, c', i', _. split; [exact Hstats'|]. split; [reflexivity|].
  split.
  - rewrite length_app, length_take. cbn.
    destruct recs; [discriminate|cbn in *; lia].
  - eapply replace_last_well_formed; eauto.
Qed.

Lemma handle_conserved (ev : event) (w : t R * storage) :
  conserved (fst w) -> conserved (fst (handle search_query json_dump ev w)).
Proof.
  destruct w as [self fs]. destruct ev as [text|data]; cbn [handle fst].
  - apply answer_query_conserved.
  - apply feedback_callback_conserved.
Qed.

(** The half of ledger conservation that holds: after any sequence of
    messages and button presses on a new bot, [stats["total"]] is the
    length of [qa_log]. *)
Lemma run_total_is_log_length (evs : list event) (w : t R * storage) :
  conserved (fst w) -> conserved (fst (run search_query json_dump evs w)).
Proof.
  revert w. induction evs as [|ev evs IH]; intros w Hw; [assumption|].
  cbn [run fold_left]. apply IH, handle_conserved, Hw.
Qed.

(** ** Feedback on a rated record *)

Lemma last_unrated_rated (l : list value) (d : list (string * value))
    (v : value) :
  dict_get "feedback" d = Some v -> v <> PNone ->
  last_unrated (PList (l ++ [PDict d])) = Ok false.
Proof.
  intros Hd Hv. unfold last_unrated.
  replace (truthy (PList (l ++ [PDict d]))) with true by (now destruct l).
  cbn [getitem_last]. rewrite last_snoc. cbn [bind getitem]. rewrite Hd.
  cbn [bind]. destruct v; try reflexivity. congruence.
Qed.

(** C1, as the code has it. When a button press arrives while the last
    record of the log already has a feedback value, the handler leaves
    the whole log, hence that record's feedback field, and
    [stats["total"]] as they were, writes the log through to its file,
    and answers with the ordinary acknowledgement of the verdict: the
    code has no feedback-conflict signal. *)
Theorem feedback_on_rated_record (self : t R) (fs : storage) (data : string)
    (t c i : Z) (l : list value) (d : list (string * value)) (v : value) :
  stats self = Spec.stats_dict t c i ->
  qa_log self = PList (l ++ [PDict d]) ->
  dict_get "feedback" d = Some v ->
  v <> PNone ->
  let r := feedback_callback json_dump self fs data in
  qa_log (fst (fst r)) = qa_log self
  /\ getitem (stats (fst (fst r))) "total" = Ok (PInt t)
  /\ snd r = Ok [logger_info (stats_path self);
                 logger_info (qa_log_path self);
                 reply_text (if String.eqb data "feedback_yes"
                             then ThanksCorrect else ThanksIncorrect)]
  /\ snd (fst r) !! qa_log_path self = Some (json_dump (qa_log self)).
Proof.
  intros Hst Hlog Hd Hv r. subst r. unfold feedback_callback.
  rewrite Hst.
  destruct (String.eqb data "feedback_yes");
    [rewrite iadd_correct | rewrite iadd_incorrect];
    cbn [set_stats qa_log]; rewrite Hlog;
    rewrite (last_unrated_rated l d v Hd Hv);
    cbn [save_stats save_qa_log set_stats fst snd stats qa_log stats_path
         qa_log_path app getitem dict_get String.eqb Ascii.eqb Bool.eqb];
    rewrite lookup_insert_eq, ?Hlog; repeat split; reflexivity.
Qed.

(** ** Persistence *)

Lemma save_then_load (self fresh : t R) (fs : storage)
    (stats_file qa_log_file : string) :
  json_load (json_dump (stats self)) = Some (stats self) ->
  json_load (json_dump (qa_log self)) = Some (qa_log self) ->
  stats_file <> qa_log_file ->
  let fs1 := fst (save_stats json_dump self fs stats_file) in
  let fs2 := fst (save_qa_log json_dump self fs1 qa_log_file) in
  let loaded :=
    fst (load_qa_log json_load
           (fst (load_stats json_load fresh fs2 stats_file))
           fs2 qa_log_file) in
  stats loaded = stats self /\ qa_log loaded = qa_log self.
Proof.
  intros Hs Hq Hne. cbn [save_stats save_qa_log fst]. unfold load_stats.
  rewrite lookup_insert_ne by congruence. rewrite lookup_insert_eq, Hs.
  cbn [fst]. unfold load_qa_log. rewrite lookup_insert_eq, Hq. auto.
Qed.

(** C8. Take the bot after any sequence of messages and button presses
    on a new bot, save its [stats] and its [qa_log] to two different
    paths, and load both paths into any other bot: that bot then holds
    the saved [stats] and the saved [qa_log], record for record. The
    [json] module comes in through its contract: [json.load] reads back
    what [json.dump] wrote for a value without repeated dict keys. *)
Theorem save_load_roundtrip (evs : list event) (rp : R)
    (llm : LLMPipeline.t) (sp qp : string) (fs0 : storage) (fresh : t R)
    (stats_file qa_log_file : string) :
  (forall v, Json.well_formed v = true -> json_load (json_dump v) = Some v) ->
  stats_file <> qa_log_file ->
  let w := run search_query json_dump evs (init rp llm sp qp, fs0) in
  let fs1 := fst (save_stats json_dump (fst w) (snd w) stats_file) in
  let fs2 := fst (save_qa_log json_dump (fst w) fs1 qa_log_file) in
  let loaded :=
    fst (load_qa_log json_load
           (fst (load_stats json_load fresh fs2 stats_file))
           fs2 qa_log_file) in
  stats loaded = stats (fst w) /\ qa_log loaded = qa_log (fst w).
Proof.
  intros Hjson Hne w.
  assert (Hw : conserved (fst w)).
  { apply run_total_is_log_length. apply init_conserved. }
  apply conserved_well_formed in Hw as [Hs Hq].
  apply save_then_load; auto.
Qed.

(** With one path for both files the log overwrites the stats. *)
Lemma save_same_path (self : t R) (fs : storage) (path : string) :
  let fs1 := fst (save_stats json_dump self fs path) in
  let fs2 := fst (save_qa_log json_dump self fs1 path) in
  fs2 !! path = Some (json_dump (qa_log self)).
Proof. cbn [save_stats save_qa_log fst]. apply lookup_insert_eq. Qed.

(** A button press that is handled to the end has written both
    attributes through to their files. *)
Lemma feedback_write_through (self : t R) (fs : storage) (data : string)
    (out : list output) :
  stats_path self <> qa_log_path self ->
  snd (feedback_callback json_dump self fs data) = Ok out ->
  let self' := fst (fst (feedback_callback json_dump self fs data)) in
  let fs' := snd (fst (feedback_callback json_dump self fs data)) in
  fs' !! stats_path self = Some (json_dump (stats self'))
  /\ fs' !! qa_log_path self = Some (json_dump (qa_log self')).
Proof.
  intros Hne. unfold feedback_callback.
  destruct (iadd_item (stats self) _) as [stats'| |]; try discriminate.
  cbn [set_stats qa_log stats_path qa_log_path].
  destruct (last_unrated (qa_log self)) as [[|]| |]; try discriminate.
  - destruct (setitem_last (qa_log self) "feedback" _) as [log'| |];
      try discriminate.
    cbn. intros _. rewrite lookup_insert_ne by congruence.
    now rewrite !lookup_insert_eq.
  - cbn. intros _. rewrite lookup_insert_ne by congruence.
    now rewrite !lookup_insert_eq.
Qed.

End Handlers.

(** ** On the sample bot *)

Lemma rated_bot_state :
  stats (fst Sample.rated_bot) = Spec.stats_dict 1 1 0
  /\ qa_log (fst Sample.rated_bot) = PList [Sample.record1 (PStr "yes")].
Proof. split; vm_compute; reflexivity. Qed.

(** The text of the stats file after the rated answer, as
    [json.dump(..., indent=4)] lays it out. *)
Example rated_bot_stats_file :
  snd Sample.rated_bot !! "bot_stats.json"
  = Some ("{" +:+ Json.nl
          +:+ "    " +:+ Json.encode_str "total" +:+ ": 1," +:+ Json.nl
          +:+ "    " +:+ Json.encode_str "correct" +:+ ": 1," +:+ Json.nl
          +:+ "    " +:+ Json.encode_str "incorrect" +:+ ": 0" +:+ Json.nl
          +:+ "}").
Proof. vm_compute. reflexivity. Qed.

(** C7 on the sample bot whose generator is unreachable. *)
Lemma generation_failure_atomic_witness :
  answer_query Sample.search Sample.bot_down "gamma0000"
  = (set_retrieval Sample.bot_down Sample.built,
     Ok [logger_error (CollaboratorError "unreachable"); reply_text ErrorMsg])
  /\ stats (fst (answer_query Sample.search Sample.bot_down "gamma0000"))
     = stats Sample.bot_down
  /\ qa_log (fst (answer_query Sample.search Sample.bot_down "gamma0000"))
     = qa_log Sample.bot_down.
Proof.
  apply (generation_failure_atomic Sample.search Sample.bot_down "gamma0000"
           Sample.built (mkChunk 1 "alpha0000 beta00000 gamma0000") []
           (CollaboratorError "unreachable")).
  - vm_compute. reflexivity.
  - vm_compute. reflexivity.
Defined.

(** C1 on the sample bot: a second press after the answer was rated. *)
Lemma feedback_on_rated_record_witness :
  let r := feedback_callback Json.dumps (fst Sample.rated_bot)
             (snd Sample.rated_bot) "feedback_no" in
  qa_log (fst (fst r)) = qa_log (fst Sample.rated_bot)
  /\ getitem (stats (fst (fst r))) "total" = Ok (PInt 1)
  /\ snd r = Ok [logger_info (stats_path (fst Sample.rated_bot));
                 logger_info (qa_log_path (fst Sample.rated_bot));
                 reply_text (if String.eqb "feedback_no" "feedback_yes"
                             then ThanksCorrect else ThanksIncorrect)]
  /\ snd (fst r) !! qa_log_path (fst Sample.rated_bot)
     = Some (Json.dumps (qa_log (fst Sample.rated_bot))).
Proof.
  apply (feedback_on_rated_record Json.dumps (fst Sample.rated_bot)
           (snd Sample.rated_bot) "feedback_no" 1 1 0 []
           [("query", PStr "gamma0000");
            ("retrieval_context", PStr "alpha0000 beta00000 gamma0000");
            ("retrieved_page", PInt 1);
            ("generated_answer", PStr "forty-two");
            ("feedback", PStr "yes")]
           (PStr "yes")).
  - vm_compute. reflexivity.
  - vm_compute. reflexivity.
  - vm_compute. reflexivity.
  - discriminate.
Defined.

(** C1 as stated fails: the last record of the sample bot is rated, and a
    second press of "correct" raises [stats["correct"]] from 1 to 2 and is
    answered with the acknowledgement. *)
Lemma feedback_on_rated_changes_stats :
  let r := feedback_callback Json.dumps (fst Sample.rated_bot)
             (snd Sample.rated_bot) "feedback_yes" in
  qa_log (fst Sample.rated_bot) = PList [Sample.record1 (PStr "yes")]
  /\ stats (fst Sample.rated_bot) = Spec.stats_dict 1 1 0
  /\ stats (fst (fst r)) = Spec.stats_dict 1 2 0
  /\ stats (fst (fst r)) <> stats (fst Sample.rated_bot)
  /\ snd r = Ok [logger_info "bot_stats.json"; logger_info "bot_qa_log.json";
                 reply_text ThanksCorrect].
Proof.
  cbv zeta. repeat split; try (vm_compute; reflexivity).
  vm_compute. discriminate.
Qed.

(** C2 on the code: one answered question, rated correct and then rated
    incorrect, leaves a well-formed Stats dict whose [correct + incorrect]
    exceeds its [total]. *)
Theorem conservation_violated :
  let w := run Sample.search Json.dumps
             [Message "gamma0000"; Callback "feedback_yes";
              Callback "feedback_no"]
             (Sample.bot, ∅) in
  exists total correct incorrect,
    stats (fst w) = Spec.stats_dict total correct incorrect
    /\ qa_log (fst w) = PList [Sample.record1 (PStr "yes")]
    /\ total = 1
    /\ ~ (correct + incorrect <= total).
Proof.
  exists 1, 1, 1. repeat split; try (vm_compute; reflexivity). lia.
Qed.

(** The same with no question at all: a press on a button left over from
    an earlier run of the bot. *)
Example conservation_violated_empty_log :
  let w := run Sample.search Json.dumps [Callback "feedback_yes"]
             (Sample.bot, ∅) in
  stats (fst w) = Spec.stats_dict 0 1 0 /\ qa_log (fst w) = PList [].
Proof. split; vm_compute; reflexivity. Qed.

(** C8 on the sample bot, with the model of the [json] module. *)
Lemma save_load_roundtrip_witness :
  let w := run Sample.search Json.dumps
             [Message "gamma0000"; Callback "feedback_yes"]
             (init Sample.built Sample.llm "bot_stats.json" "bot_qa_log.json",
              ∅) in
  let fs1 := fst (save_stats Json.dumps (fst w) (snd w) "stats.json") in
  let fs2 := fst (save_qa_log Json.dumps (fst w) fs1 "qa_log.json") in
  let loaded :=
    fst (load_qa_log Json.loads
           (fst (load_stats Json.loads Sample.bot_down fs2 "stats.json"))
           fs2 "qa_log.json") in
  stats loaded = stats (fst w) /\ qa_log loaded = qa_log (fst w).
Proof.
  apply (save_load_roundtrip Sample.search Json.dumps Json.loads
           [Message "gamma0000"; Callback "feedback_yes"]
           Sample.built Sample.llm "bot_stats.json" "bot_qa_log.json" ∅
           Sample.bot_down "stats.json" "qa_log.json").
  - exact JsonFacts.loads_dumps.
  - discriminate.
Defined.

End Ledger.

(* ===================================================================== *)
(** * Page extraction and page numbers *)
(* ===================================================================== *)

Module Pages.

Import PDFRAGPipeline.

(** What holds of the pdfplumber and PyPDF2 loops: every emitted page
    carries its position in the document, counted from [i + 1], and the
    stripped text of that position; pages with no text or the empty text
    are not emitted. *)
Lemma extract_loop_numbers (texts : list (option string)) (i : Z) (p : Page) :
  In p (extract_loop i texts) ->
  exists (k : nat) (text : string),
    texts !! k = Some (Some text)
    /\ is_empty text = false
    /\ page_number p = i + Z.of_nat k + 1
    /\ page_text p = strip text.
Proof.
  revert i. induction texts as [|o texts IH]; intros i Hp; [destruct Hp|].
  assert (Hrest : In p (extract_loop (i + 1) texts) ->
                  exists (k : nat) (text : string),
                    (o :: texts) !! k = Some (Some text)
                    /\ is_empty text = false
                    /\ page_number p = i + Z.of_nat k + 1
                    /\ page_text p = strip text).
  { intros H. apply IH in H as (k & text & Hk & He & Hn & Ht).
    exists (S k), text. repeat split; auto. lia. }
  cbn [extract_loop] in Hp. destruct o as [text|]; [|auto].
  destruct (is_empty text) eqn:He; cbn [negb] in Hp; [auto|].
  destruct Hp as [<-|Hp]; [|auto].
  exists 0%nat, text. repeat split; auto. cbn. lia.
Qed.

(** What holds of the pdfminer loop: every emitted page has a non-empty
    stripped text and carries the position of its piece of
    [re.split(r'\f+', full_text)]. *)
Lemma miner_loop_numbers (raw_pages : list string) (i : Z) (p : Page) :
  In p (miner_loop i raw_pages) ->
  is_empty (page_text p) = false
  /\ exists (k : nat) (text : string),
       raw_pages !! k = Some text
       /\ page_number p = i + Z.of_nat k + 1
       /\ page_text p = strip text.
Proof.
  revert i. induction raw_pages as [|text raw IH]; intros i Hp;
    [destruct Hp|].
  assert (Hrest : In p (miner_loop (i + 1) raw) ->
                  is_empty (page_text p) = false
                  /\ exists (k : nat) (text0 : string),
                       (text :: raw) !! k = Some text0
                       /\ page_number p = i + Z.of_nat k + 1
                       /\ page_text p = strip text0).
  { intros H. apply IH in H as (He & k & text0 & Hk & Hn & Ht).
    split; [assumption|]. exists (S k), text0. repeat split; auto. lia. }
  cbn [miner_loop] in Hp.
  destruct (is_empty (strip text)) eqn:He; cbn [negb] in Hp; [auto|].
  destruct Hp as [<-|Hp]; [|auto].
  split; [assumption|]. exists 0%nat, text. repeat split; auto. cbn. lia.
Qed.

(** Chunking keeps the page number it is given: every chunk carries the
    number of a page of the list, and its text is a window of that page's
    words. *)
Lemma chunk_page_of_pages (size ovl : nat) (ps : list Page) (c : Chunk) :
  In c (Spec.chunk_pages size ovl ps) ->
  exists (p : Page) (s : nat),
    In p ps
    /\ page c = page_number p
    /\ chunk c = join " " (Spec.window size (split (page_text p)) s).
Proof.
  unfold Spec.chunk_pages. rewrite in_flat_map. intros (p & Hp & Hc).
  unfold Spec.page_chunks in Hc. apply filter_In in Hc as [Hc _].
  apply in_map_iff in Hc as (s & <- & _). exists p, s. auto.
Qed.

(** C5 on the code. The sample document has three physical pages, the
    second one blank. [extract_pages] and [extract_pages_pypdf2] test the
    text before stripping it and emit the blank page with an empty text.
    [extract_pages_pdfminer] splits at runs of form feeds, so the two form
    feeds around the empty second page count as one separator: the third
    physical page is emitted as page 2, and so is its chunk. *)
Theorem extraction_keeps_blank_and_renumbers :
  snd (extract_pages Sample.pipeline)
  = [mkPage 1 Sample.page1; mkPage 2 ""; mkPage 3 Sample.page3]
  /\ snd (extract_pages_pypdf2 Sample.pipeline)
     = [mkPage 1 Sample.page1; mkPage 2 ""; mkPage 3 Sample.page3]
  /\ snd (extract_pages_pdfminer Sample.pipeline)
     = [mkPage 1 Sample.page1; mkPage 2 Sample.page3]
  /\ snd (split_pages 10 (fst (extract_pages_pdfminer Sample.pipeline)))
     = Ok [mkChunk 1 "alpha0000 beta00000 gamma0000";
           mkChunk 1 "gamma0000 delta0000 epsilon00";
           mkChunk 2 "zeta00000 eta000000 theta0000"].
Proof. repeat split; vm_compute; reflexivity. Qed.

(** The sibling test of the pdfminer loop, [strip] first and then
    [if text], drops the same blank page. *)
Example miner_loop_drops_blank :
  miner_loop 0 [Sample.page1; "   "; Sample.page3]
  = [mkPage 1 Sample.page1; mkPage 3 Sample.page3].
Proof. vm_compute. reflexivity. Qed.

End Pages.

(* ===================================================================== *)
(** * Page extraction: numbering and trimmed texts *)
(* ===================================================================== *)

Module Extraction.

Import PDFRAGPipeline Notions.

(** ** [str.strip] *)

Lemma lstrip_head (s : string) (c : ascii) (rest : string) :
  lstrip s = String c rest -> isspace c = false.
Proof.
  induction s as [|a s IH]; cbn; [discriminate|].
  destruct (isspace a) eqn:Ea; [exact IH|].
  intros H. injection H as <- _. exact Ea.
Qed.

Lemma rstrip_head (c : ascii) (s : string) :
  isspace c = false -> rstrip (String c s) = String c (rstrip s).
Proof. intros H. cbn. rewrite H. reflexivity. Qed.

Lemma rstrip_last (s : string) :
  forall pre c, rstrip s = pre +:+ String c EmptyString -> isspace c = false.
Proof.
  induction s as [|a s IH]; intros pre c; cbn.
  - destruct pre; discriminate.
  - destruct (isspace a && is_empty (rstrip s)) eqn:E.
    + destruct pre; discriminate.
    + destruct pre as [|b pre].
      * change (EmptyString +:+ String c EmptyString) with (String c EmptyString).
        intros H. injection H as -> Hr. rewrite Hr in E. cbn in E.
        rewrite andb_true_r in E. exact E.
      * change (String b pre +:+ String c EmptyString)
          with (String b (pre +:+ String c EmptyString)).
        intros H. injection H as _ Hr. exact (IH _ _ Hr).
Qed.

Lemma strip_trimmed (s : string) : trimmed (strip s).
Proof.
  split.
  - intros c rest H. unfold strip in H.
    destruct (lstrip s) as [|a r] eqn:El; [discriminate|].
    pose proof (lstrip_head _ _ _ El) as Ha.
    rewrite (rstrip_head _ _ Ha) in H. injection H as -> _. exact Ha.
  - intros pre c H. exact (rstrip_last _ _ _ H).
Qed.

(** ** The loop of [extract_pages] and [extract_pages_pypdf2] *)

Lemma extract_loop_complete (texts : list (option string)) :
  forall (i : Z) (k : nat) (text : string),
    texts !! k = Some (Some text) -> is_empty text = false ->
    In (mkPage (i + Z.of_nat k + 1) (strip text)) (extract_loop i texts).
Proof.
  induction texts as [|o texts IH]; intros i k text Hk He; [discriminate|].
  destruct k as [|k].
  - cbn in Hk. injection Hk as ->. cbn [extract_loop]. rewrite He. cbn [negb].
    left. f_equal. lia.
  - cbn in Hk. specialize (IH (i + 1) k text Hk He).
    replace (i + Z.of_nat (S k) + 1) with (i + 1 + Z.of_nat k + 1) by lia.
    cbn [extract_loop]. destruct o as [t|]; [destruct (negb (is_empty t))|];
      try right; exact IH.
Qed.

Lemma extract_loop_sorted (texts : list (option string)) :
  forall i : Z,
    Forall (fun p => i < page_number p) (extract_loop i texts)
    /\ StronglySorted (fun p q => page_number p < page_number q)
         (extract_loop i texts).
Proof.
  induction texts as [|o texts IH]; intros i; cbn [extract_loop].
  - split; constructor.
  - destruct (IH (i + 1)) as [Hlow Hs].
    assert (Hlow' : Forall (fun p => i < page_number p)
                      (extract_loop (i + 1) texts)).
    { eapply List.Forall_impl; [|exact Hlow]. cbn. intros; lia. }
    destruct o as [t|]; [destruct (negb (is_empty t))|]; try (split; assumption).
    split.
    + constructor; [cbn; lia|exact Hlow'].
    + constructor; [exact Hs|].
      eapply List.Forall_impl; [|exact Hlow]. cbn. intros; lia.
Qed.

Lemma extract_loop_by_position (texts : list (option string)) :
  numbered_by_position texts (extract_loop 0 texts).
Proof.
  split; [|apply extract_loop_sorted].
  intros p. split.
  - intros Hin. destruct (Pages.extract_loop_numbers _ _ _ Hin)
      as (k & text & Hk & He & Hn & Ht).
    exists k, text. repeat split; try assumption.
    destruct p as [n t]. cbn in Hn, Ht. subst. f_equal.
  - intros (k & text & Hk & He & ->).
    exact (extract_loop_complete texts 0 k text Hk He).
Qed.

(** X1. [extract_pages] and [extract_pages_pypdf2] emit exactly one page
    for every position of the reader's page list whose text is neither
    [None] nor empty. The page carries the position counted from one and
    the stripped text, and the pages come in strictly increasing number;
    both store the list in [self.pages]. *)
Theorem extract_pages_by_position (self : t) :
  numbered_by_position (plumber_pages (pdf_path self))
    (snd (extract_pages self))
  /\ numbered_by_position (pypdf2_pages (pdf_path self))
       (snd (extract_pages_pypdf2 self))
  /\ pages (fst (extract_pages self)) = Some (snd (extract_pages self))
  /\ pages (fst (extract_pages_pypdf2 self))
     = Some (snd (extract_pages_pypdf2 self)).
Proof.
  repeat split; try apply extract_loop_by_position; apply extract_loop_sorted.
Qed.

(** ** The loop of [extract_pages_pdfminer] *)

Lemma miner_loop_sorted (raw_pages : list string) :
  forall i : Z,
    Forall (fun p => i < page_number p) (miner_loop i raw_pages)
    /\ StronglySorted (fun p q => page_number p < page_number q)
         (miner_loop i raw_pages).
Proof.
  induction raw_pages as [|t raw IH]; intros i; cbn [miner_loop].
  - split; constructor.
  - destruct (IH (i + 1)) as [Hlow Hs].
    assert (Hlow' : Forall (fun p => i < page_number p)
                      (miner_loop (i + 1) raw)).
    { eapply List.Forall_impl; [|exact Hlow]. cbn. intros; lia. }
    destruct (negb (is_empty (strip t))); [|split; assumption].
    split.
    + constructor; [cbn; lia|exact Hlow'].
    + constructor; [exact Hs|].
      eapply List.Forall_impl; [|exact Hlow]. cbn. intros; lia.
Qed.

(** X2. [extract_pages_pdfminer] never emits a page without text: every
    page text is non-empty and neither begins nor ends with whitespace,
    and the page numbers are strictly increasing. *)
Theorem pdfminer_pages_trimmed_nonempty (self : t) :
  let ps := snd (extract_pages_pdfminer self) in
  Forall (fun p => is_empty (page_text p) = false /\ trimmed (page_text p)) ps
  /\ StronglySorted (fun p q => page_number p < page_number q) ps
  /\ pages (fst (extract_pages_pdfminer self)) = Some ps.
Proof.
  cbv zeta. split; [|split; [apply miner_loop_sorted|reflexivity]].
  apply List.Forall_forall. intros p Hin.
  destruct (Pages.miner_loop_numbers _ _ _ Hin) as (He & k & text & _ & _ & Ht).
  split; [exact He|]. rewrite Ht. apply strip_trimmed.
Qed.

(** ** [re.split] on the text of pdfminer *)

Lemma no_ff_cons (c : ascii) (s : string) :
  no_ff (String c s) = true -> is_ff c = false /\ no_ff s = true.
Proof.
  cbn. intros H. apply andb_true_iff in H as [H1 H2].
  split; [apply negb_true_iff; exact H1|exact H2].
Qed.

Lemma is_ff_form_feed : is_ff form_feed = true.
Proof. reflexivity. Qed.

Lemma re_split_ff_piece (text : string) :
  forall (in_run : bool) (w rest : string),
    no_ff text = true -> is_empty text = false ->
    re_split_ff_from in_run w (text +:+ String form_feed rest)
    = (w +:+ text) :: re_split_ff_from true EmptyString rest.
Proof.
  induction text as [|c text IH]; intros in_run w rest Hff Hne; [discriminate|].
  apply no_ff_cons in Hff as [Hc Hff].
  change (String c text +:+ String form_feed rest)
    with (String c (text +:+ String form_feed rest)).
  cbn [re_split_ff_from]. rewrite Hc.
  destruct text as [|d text].
  - change (EmptyString +:+ String form_feed rest) with (String form_feed rest).
    cbn [re_split_ff_from]. rewrite is_ff_form_feed. reflexivity.
  - rewrite (IH false _ rest Hff eq_refl).
    rewrite JsonFacts.append_assoc. reflexivity.
Qed.

Lemma strip_nonempty (s : string) :
  is_empty (strip s) = false -> is_empty s = false.
Proof. destruct s; [discriminate|reflexivity]. Qed.

Lemma re_split_miner_output (texts : list string) :
  Forall (fun text => no_ff text = true /\ is_empty (strip text) = false)
    texts ->
  forall in_run,
    re_split_ff_from in_run EmptyString (miner_output texts)
    = texts ++ [EmptyString].
Proof.
  induction 1 as [|text texts [Hff Hne] _ IH]; intros in_run; [reflexivity|].
  cbn [miner_output].
  rewrite (re_split_ff_piece text in_run EmptyString _ Hff (strip_nonempty _ Hne)).
  rewrite IH. reflexivity.
Qed.

Lemma miner_loop_numbered (texts : list string) :
  Forall (fun text => no_ff text = true /\ is_empty (strip text) = false)
    texts ->
  forall i, miner_loop i (texts ++ [EmptyString]) = numbered i texts.
Proof.
  induction 1 as [|text texts [Hff Hne] _ IH]; intros i; [reflexivity|].
  cbn [app miner_loop numbered]. rewrite Hne. cbn [negb]. rewrite IH.
  reflexivity.
Qed.

(** X3. When every page of the document has a text that is not blank and
    holds no form feed, and pdfminer writes each page followed by one form
    feed, [extract_pages_pdfminer] returns one page per page of the
    document, numbered 1, 2, ... in order, with the stripped texts. *)
Theorem pdfminer_numbers_nonblank_pages (self : t) (texts : list string) :
  miner_text (pdf_path self) = miner_output texts ->
  Forall (fun text => no_ff text = true /\ is_empty (strip text) = false)
    texts ->
  snd (extract_pages_pdfminer self) = numbered 0 texts.
Proof.
  intros Hm Hall. unfold extract_pages_pdfminer. cbn [snd]. rewrite Hm.
  unfold re_split_ff. rewrite (re_split_miner_output texts Hall).
  apply miner_loop_numbered. exact Hall.
Qed.

Lemma pdfminer_numbers_nonblank_pages_witness :
  snd (extract_pages_pdfminer
         (init (mkPdf [] (miner_output [Sample.page1; Sample.page3]) []) 3 1))
  = numbered 0 [Sample.page1; Sample.page3].
Proof.
  apply (pdfminer_numbers_nonblank_pages
           (init (mkPdf [] (miner_output [Sample.page1; Sample.page3]) []) 3 1)).
  - reflexivity.
  - repeat constructor.
Defined.

End Extraction.

(* ===================================================================== *)
(** * Generated answers *)
(* ===================================================================== *)

Module Generation.

Import LLMPipeline Notions.

Lemma generated_text_trimmed (res : list (option string)) (answer : string) :
  generated_text res = Ok answer -> trimmed answer.
Proof.
  destruct res as [|[text|] res]; cbn; try discriminate.
  intros H. injection H as <-. apply Extraction.strip_trimmed.
Qed.

(** X21. An answer that [generate_answer] or [generate_answer_no_context]
    returns neither begins nor ends with whitespace, whatever the model
    wrote. *)
Theorem generated_answers_trimmed (self : t) (query context answer : string) :
  generate_answer self query context = Ok answer
  \/ generate_answer_no_context self query = Ok answer ->
  trimmed answer.
Proof.
  unfold generate_answer, generate_answer_no_context.
  intros [H|H];
    [destruct (model_pipeline self (prompt query context) _ _) as [res| |]
    |destruct (model_pipeline self (prompt_no_context query) _ _) as [res| |]];
    cbn [bind] in H; try discriminate;
    exact (generated_text_trimmed res answer H).
Qed.

Lemma generated_answers_trimmed_witness : trimmed "forty-two".
Proof.
  apply (generated_answers_trimmed Sample.llm "Who?" "" "forty-two").
  right. reflexivity.
Defined.

End Generation.

(* ===================================================================== *)
(** * Chunks as runs of page words *)
(* ===================================================================== *)

Module Windows.

Import PDFRAGPipeline Notions.

(** ** [str.split] and [str.join] *)

Lemma no_space_snoc (w : string) (c : ascii) :
  no_space (w +:+ String c EmptyString) = no_space w && negb (isspace c).
Proof.
  induction w as [|a w IH].
  - change (negb (isspace c) && true = negb (isspace c)).
    now rewrite andb_true_r.
  - change (String a w +:+ String c EmptyString)
      with (String a (w +:+ String c EmptyString)).
    cbn [no_space]. rewrite IH. now rewrite andb_assoc.
Qed.

Lemma split_from_words (s : string) :
  forall w, no_space w = true ->
            Forall (fun x => is_word x = true) (split_from w s).
Proof.
  induction s as [|c s IH]; intros w Hw; cbn [split_from].
  - destruct (is_empty w) eqn:E; constructor; [|constructor].
    unfold is_word. now rewrite E, Hw.
  - destruct (isspace c) eqn:Ec.
    + destruct (is_empty w) eqn:E; [now apply IH|].
      constructor; [|now apply IH]. unfold is_word. now rewrite E, Hw.
    + apply IH. rewrite no_space_snoc, Hw, Ec. reflexivity.
Qed.

Lemma split_words (s : string) : Forall (fun x => is_word x = true) (split s).
Proof. now apply split_from_words. Qed.

Lemma split_from_no_space (u : string) :
  forall w rest, no_space u = true ->
                 split_from w (u +:+ rest) = split_from (w +:+ u) rest.
Proof.
  induction u as [|c u IH]; intros w rest Hu.
  - now rewrite JsonFacts.append_nil_r.
  - cbn in Hu. apply andb_true_iff in Hu as [Hc Hu].
    apply negb_true_iff in Hc.
    change (String c u +:+ rest) with (String c (u +:+ rest)).
    cbn [split_from]. rewrite Hc, (IH _ _ Hu), JsonFacts.append_assoc.
    reflexivity.
Qed.

Lemma split_join (ws : list string) :
  Forall (fun x => is_word x = true) ws -> split (join " " ws) = ws.
Proof.
  induction 1 as [|w ws Hw Hws IH]; [reflexivity|].
  unfold is_word in Hw. apply andb_true_iff in Hw as [Hne Hns].
  apply negb_true_iff in Hne.
  destruct ws as [|w2 ws].
  - cbn [join]. unfold split.
    rewrite <- (JsonFacts.append_nil_r w) at 1.
    rewrite (split_from_no_space w EmptyString EmptyString Hns).
    cbn [split_from]. change (EmptyString +:+ w) with w. now rewrite Hne.
  - change (join " " (w :: w2 :: ws))
      with (w +:+ String " "%char (join " " (w2 :: ws))).
    unfold split. rewrite (split_from_no_space w EmptyString _ Hns).
    change (EmptyString +:+ w) with w. cbn [split_from].
    change (isspace " ") with true. cbn match. rewrite Hne.
    f_equal. exact IH.
Qed.

Lemma Forall_take_drop {A} (P : A -> Prop) (l : list A) (n m : nat) :
  Forall P l -> Forall P (take n (drop m l)).
Proof. intros H. apply Forall_take, Forall_drop, H. Qed.

Lemma slice_words (s : string) (a b : Z) :
  Forall (fun x => is_word x = true) (slice (split s) a b).
Proof. apply Forall_take_drop, split_words. Qed.

(** ** Lengths of joined runs *)

Lemma length_join_head (w : string) (ws : list string) :
  (String.length w <= String.length (join " " (w :: ws)))%nat.
Proof.
  destruct ws; cbn [join]; [lia|]. rewrite JsonFacts.length_append. lia.
Qed.

Lemma length_join_tail (w : string) (ws : list string) :
  (String.length (join " " ws) <= String.length (join " " (w :: ws)))%nat.
Proof.
  destruct ws as [|x ws]; [cbn; lia|].
  change (join " " (w :: x :: ws))
    with (w +:+ String " "%char (join " " (x :: ws))).
  rewrite JsonFacts.length_append. cbn [String.length]. lia.
Qed.

Lemma length_join_drop (l : list string) (n : nat) :
  (String.length (join " " (drop n l)) <= String.length (join " " l))%nat.
Proof.
  revert n. induction l as [|w l IH]; intros [|n]; cbn [drop]; try lia.
  etransitivity; [apply IH|apply length_join_tail].
Qed.

Lemma length_join_take (l : list string) (n : nat) :
  (String.length (join " " (take n l)) <= String.length (join " " l))%nat.
Proof.
  revert n. induction l as [|w l IH]; intros [|n]; cbn [take]; try lia.
  - cbn. lia.
  - destruct (take n l) as [|x t] eqn:Et; [apply length_join_head|].
    destruct l as [|y l]; [destruct n; discriminate|].
    rewrite <- Et.
    assert (Hc : forall u v vs, join " " (u :: v :: vs)
               = u +:+ String " "%char (join " " (v :: vs))) by reflexivity.
    rewrite Hc. rewrite Et, Hc, <- Et.
    rewrite !JsonFacts.length_append. cbn [String.length].
    specialize (IH n). lia.
Qed.

Lemma len_join_slice (l : list string) (a b : Z) :
  len (join " " (slice l a b)) <= len (join " " l).
Proof.
  unfold len, slice. apply inj_le.
  etransitivity; [apply length_join_take|apply length_join_drop].
Qed.

(** ** The loops of [split_pages], for any configuration *)

Local Abbreviation cut_ok p c :=
  (cut_from p c /\ 20 < len (chunk c) <= len (normalised p)).

Lemma chunk_loop_cuts (fuel : nat) (size ovl : Z) (p : Page) :
  forall (start : Z) (acc acc' : list Chunk),
    chunk_loop fuel size ovl (page_number p) (split (page_text p)) start acc
    = Ok acc' ->
    exists new, acc' = acc ++ new /\ Forall (fun c => cut_ok p c) new.
Proof.
  induction fuel as [|fuel IH]; intros start acc acc'; cbn [chunk_loop];
    [discriminate|].
  destruct (start <? Z.of_nat (length (split (page_text p)))).
  - destruct (20 <? len (join " " (slice (split (page_text p)) start
                                     (start + size)))) eqn:E.
    + intros H. destruct (IH _ _ _ H) as (new & -> & Hnew).
      eexists (_ :: new). split; [now rewrite <- app_assoc|].
      constructor; [|exact Hnew].
      split; [split; [reflexivity|]|].
      * exists start, (start + size). cbn [chunk]. split; [reflexivity|].
        apply split_join, slice_words.
      * cbn [chunk]. split; [now apply Z.ltb_lt|apply len_join_slice].
    + apply IH.
  - intros H. injection H as <-. exists []. split; [now rewrite app_nil_r|].
    constructor.
Qed.

Lemma pages_loop_cuts (fuel : nat) (size ovl : Z) (ps : list Page) :
  forall (acc acc' : list Chunk),
    pages_loop fuel size ovl ps acc = Ok acc' ->
    exists new,
      acc' = acc ++ new
      /\ Forall (fun c => exists p, In p ps /\ cut_ok p c) new.
Proof.
  induction ps as [|p ps IH]; intros acc acc'; cbn [pages_loop].
  - intros H. injection H as <-. exists []. split; [now rewrite app_nil_r|].
    constructor.
  - destruct (chunk_loop fuel size ovl (page_number p) (split (page_text p))
                0 acc) as [acc1| |] eqn:E; cbn [bind]; try discriminate.
    intros H. destruct (chunk_loop_cuts _ _ _ _ _ _ _ E) as (new1 & -> & H1).
    destruct (IH _ _ H) as (new2 & -> & H2).
    exists (new1 ++ new2). split; [now rewrite <- app_assoc|].
    apply Forall_app. split.
    + eapply List.Forall_impl; [|exact H1]. intros c Hc. exists p.
      split; [now left|exact Hc].
    + eapply List.Forall_impl; [|exact H2]. intros c (q & Hq & Hc). exists q.
      split; [now right|exact Hc].
Qed.

Lemma cut_tokens (p : Page) (c : Chunk) :
  cut_from p c -> 0 < len (chunk c) -> split (chunk c) <> [].
Proof.
  intros (_ & a & b & Ht & Hs) Hl Hnil. rewrite Hs in Hnil.
  rewrite Hnil in Ht. rewrite Ht in Hl. vm_compute in Hl. discriminate.
Qed.

Lemma split_pages_tokens (fuel : nat) (self : t) (cs : list Chunk) :
  snd (split_pages fuel self) = Ok cs ->
  Forall (fun c => split (chunk c) <> []) cs.
Proof.
  unfold split_pages. destruct (ensure_pages self) as [self1 ps].
  destruct (pages_loop fuel (chunk_size self1) (overlap self1) ps [])
    as [all| |] eqn:El; cbn [snd]; try discriminate.
  intros H. injection H as ->.
  destruct (pages_loop_cuts _ _ _ _ _ _ El) as (new & -> & Hnew).
  cbn [app]. eapply List.Forall_impl; [|exact Hnew].
  intros c (p & _ & Hc & Hl). apply (cut_tokens p c Hc). lia.
Qed.

(** X4. Whatever [chunk_size] and [overlap] are, when [split_pages]
    returns, every chunk is cut from one of the pages: it carries that
    page's number, its text is a run of consecutive words of the page
    joined by single spaces, and splitting it gives those words back. Its
    text has more than 20 characters and no more than the page's text
    with whitespace normalised, so a page of at most 20 such characters
    gives no chunk. The list is stored in [self.chunks]. *)
Theorem split_pages_chunks_cut_from_pages (fuel : nat) (self : t)
    (cs : list Chunk) :
  snd (split_pages fuel self) = Ok cs ->
  Forall (fun c => exists p, In p (snd (ensure_pages self))
                             /\ cut_from p c
                             /\ 20 < len (chunk c) <= len (normalised p)) cs
  /\ chunks (fst (split_pages fuel self)) = Some cs.
Proof.
  unfold split_pages. destruct (ensure_pages self) as [self1 ps] eqn:E.
  cbn [snd].
  destruct (pages_loop fuel (chunk_size self1) (overlap self1) ps [])
    as [all| |] eqn:El; cbn [snd fst]; try discriminate.
  intros H. injection H as ->. split; [|reflexivity].
  destruct (pages_loop_cuts _ _ _ _ _ _ El) as (new & -> & Hnew).
  cbn [app]. eapply List.Forall_impl; [|exact Hnew].
  intros c (p & Hp & Hc & Hl). exists p. repeat split; try assumption;
    apply Hc || apply Hl.
Qed.

Lemma split_pages_chunks_cut_from_pages_witness :
  Forall (fun c => exists p, In p (snd (ensure_pages Sample.pipeline))
                             /\ cut_from p c
                             /\ 20 < len (chunk c) <= len (normalised p))
    [mkChunk 1 "alpha0000 beta00000 gamma0000";
     mkChunk 1 "gamma0000 delta0000 epsilon00";
     mkChunk 3 "zeta00000 eta000000 theta0000"]
  /\ chunks (fst (split_pages 10 Sample.pipeline))
     = Some [mkChunk 1 "alpha0000 beta00000 gamma0000";
             mkChunk 1 "gamma0000 delta0000 epsilon00";
             mkChunk 3 "zeta00000 eta000000 theta0000"].
Proof.
  apply (split_pages_chunks_cut_from_pages 10 Sample.pipeline).
  vm_compute. reflexivity.
Defined.

(** ** Pages that fit in one step *)

Lemma window_starts_short (n step : nat) :
  (1 <= n <= step)%nat -> Spec.window_starts n step = [0%nat].
Proof.
  intros [H1 H2]. unfold Spec.window_starts.
  destruct n as [|n]; [lia|].
  cbn [seq map List.filter]. change (0 * step)%nat with 0%nat.
  cbn [Nat.ltb Nat.leb]. f_equal.
  apply (Chunking.starts_above (S n) step 1 n); lia.
Qed.

Lemma page_chunks_short (size step : nat) (p : Page) :
  (length (split (page_text p)) <= step)%nat -> (step <= size)%nat ->
  Spec.page_chunks size step p = whole_page_chunk p.
Proof.
  intros Hn Hs. unfold Spec.page_chunks, whole_page_chunk.
  destruct (split (page_text p)) as [|w ws] eqn:E.
  - reflexivity.
  - rewrite window_starts_short by (cbn [length] in *; lia).
    cbn [map List.filter chunk]. unfold Spec.window. rewrite drop_0.
    rewrite take_ge by lia. reflexivity.
Qed.

(** X5. With [0 <= overlap < chunk_size], when no page has more than
    [chunk_size - overlap] words, [split_pages] makes at most one chunk
    per page: the page text with whitespace normalised, kept when it has
    more than 20 characters. *)
Theorem split_pages_short_pages (fuel : nat) (self : t) :
  0 <= overlap self < chunk_size self ->
  (Spec.words_fuel (snd (ensure_pages self)) <= fuel)%nat ->
  Forall (fun p => Z.of_nat (length (split (page_text p)))
                   <= chunk_size self - overlap self)
    (snd (ensure_pages self)) ->
  snd (split_pages fuel self)
  = Ok (flat_map whole_page_chunk (snd (ensure_pages self))).
Proof.
  intros Hc Hf Hshort. rewrite (Chunking.split_pages_returns fuel self Hc Hf).
  clear Hf. f_equal. unfold Spec.chunk_pages.
  induction Hshort as [|p ps Hp _ IH]; [reflexivity|].
  cbn [flat_map]. rewrite IH. f_equal.
  apply page_chunks_short; lia.
Qed.

Lemma split_pages_short_pages_witness :
  snd (split_pages 10 (init Sample.pdf 6 1))
  = Ok (flat_map whole_page_chunk (snd (ensure_pages (init Sample.pdf 6 1)))).
Proof.
  apply (split_pages_short_pages 10 (init Sample.pdf 6 1)).
  - cbn. lia.
  - vm_compute. lia.
  - vm_compute. repeat constructor; discriminate.
Defined.

(** A page with more than [chunk_size - overlap] words, but no more than
    [chunk_size], gets a second chunk that repeats its last words. *)
Example split_pages_second_window :
  snd (split_pages 10 (init Sample.pdf 5 1))
  = Ok [mkChunk 1 Sample.page1; mkChunk 3 Sample.page3].
Proof. vm_compute. reflexivity. Qed.

(** ** No word is left out of the windows *)

Lemma window_starts_in (n step k : nat) :
  (k < n)%nat -> (k * step < n)%nat -> In (k * step)%nat (Spec.window_starts n step).
Proof.
  intros Hk Hs. unfold Spec.window_starts. apply filter_In. split.
  - apply in_map_iff. exists k. split; [reflexivity|]. apply in_seq. lia.
  - apply Nat.ltb_lt. exact Hs.
Qed.

Lemma covering_window (n size step j : nat) :
  (1 <= step <= size)%nat -> (j < n)%nat ->
  exists s, In s (Spec.window_starts n step) /\ (s <= j < s + size)%nat.
Proof.
  intros Hst Hj. exists ((j / step) * step)%nat.
  assert (Hstep : step <> 0%nat) by lia.
  pose proof (Nat.div_mod_eq j step) as Hdm.
  pose proof (Nat.mod_upper_bound j step Hstep) as Hm.
  assert (Hle : (j / step * step <= j)%nat) by lia.
  split; [|lia].
  apply window_starts_in; [|lia].
  assert (j / step <= j / step * step)%nat by nia. lia.
Qed.

Lemma window_lookup {A} (size : nat) (l : list A) (s j : nat) (x : A) :
  l !! j = Some x -> (s <= j < s + size)%nat -> In x (Spec.window size l s).
Proof.
  intros Hx Hj. unfold Spec.window.
  apply list_elem_of_In, (list_elem_of_lookup_2 _ (j - s)).
  rewrite lookup_take_lt by lia. rewrite lookup_drop.
  replace (s + (j - s))%nat with j by lia. exact Hx.
Qed.

(** X6. With [0 <= overlap < chunk_size], every word of every page lies
    in one of the windows that [split_pages] forms, the window of
    [chunk_size] words that starts at a multiple of
    [chunk_size - overlap] below the word count. The text of that window
    is a chunk of the returned list exactly when it has more than 20
    characters, and then the words of the window are its tokens. *)
Theorem split_pages_covers_words (fuel : nat) (self : t) (p : Page)
    (w : string) :
  0 <= overlap self < chunk_size self ->
  (Spec.words_fuel (snd (ensure_pages self)) <= fuel)%nat ->
  In p (snd (ensure_pages self)) ->
  In w (split (page_text p)) ->
  exists (k : nat) (cs : list Chunk),
    let words := split (page_text p) in
    let start :=
      (k * (Z.to_nat (chunk_size self) - Z.to_nat (overlap self)))%nat in
    let ws := Spec.window (Z.to_nat (chunk_size self)) words start in
    (start < length words)%nat
    /\ In w ws
    /\ snd (split_pages fuel self) = Ok cs
    /\ (In (mkChunk (page_number p) (join " " ws)) cs
        <-> 20 < len (join " " ws))
    /\ split (join " " ws) = ws.
Proof.
  intros Hc Hf Hp Hw.
  apply list_elem_of_In, list_elem_of_lookup_1 in Hw as [j Hj].
  pose proof (lookup_lt_Some _ _ _ Hj) as Hlt.
  set (size := Z.to_nat (chunk_size self)).
  set (step := (Z.to_nat (chunk_size self) - Z.to_nat (overlap self))%nat).
  assert (Hstep : (1 <= step <= size)%nat) by (subst size step; lia).
  assert (Hne : step <> 0%nat) by lia.
  pose proof (Nat.div_mod_eq j step) as Hdm.
  pose proof (Nat.mod_upper_bound j step Hne) as Hm.
  assert (Hle : (j / step * step <= j)%nat) by lia.
  assert (Hk : (j / step < length (split (page_text p)))%nat).
  { assert (j / step <= j / step * step)%nat by nia. lia. }
  exists (j / step)%nat,
    (Spec.chunk_pages (Z.to_nat (chunk_size self)) (Z.to_nat (overlap self))
       (snd (ensure_pages self))).
  cbv zeta. change (size - Z.to_nat (overlap self))%nat with step.
  split; [lia|]. split; [apply (window_lookup _ _ _ j); [exact Hj|lia]|].
  split; [exact (Chunking.split_pages_returns fuel self Hc Hf)|].
  assert (Hsl : Spec.window size (split (page_text p)) (j / step * step)
                = slice (split (page_text p)) (Z.of_nat (j / step * step))
                    (Z.of_nat (j / step * step) + Z.of_nat size)).
  { symmetry. apply Chunking.slice_window. lia. }
  split; [|rewrite Hsl; apply split_join, slice_words].
  unfold Spec.chunk_pages.
  change (size - Z.to_nat (overlap self))%nat with step. split.
  - intros Hin. apply in_flat_map in Hin as (q & _ & Hq).
    unfold Spec.page_chunks in Hq. apply filter_In in Hq as [_ Hlong].
    cbn [chunk] in Hlong. now apply Z.ltb_lt.
  - intros Hlong. apply in_flat_map. exists p. split; [exact Hp|].
    unfold Spec.page_chunks. apply filter_In.
    split; [|cbn [chunk]; now apply Z.ltb_lt].
    apply in_map_iff. exists (j / step * step)%nat. split; [reflexivity|].
    apply window_starts_in; [exact Hk|lia].
Qed.

Lemma split_pages_covers_words_witness :
  exists (k : nat) (cs : list Chunk),
    let words := split Sample.page1 in
    let start := (k * (3 - 1))%nat in
    let ws := Spec.window 3 words start in
    (start < length words)%nat
    /\ In "delta0000" ws
    /\ snd (split_pages 10 Sample.pipeline) = Ok cs
    /\ (In (mkChunk 1 (join " " ws)) cs <-> 20 < len (join " " ws))
    /\ split (join " " ws) = ws.
Proof.
  apply (split_pages_covers_words 10 Sample.pipeline (mkPage 1 Sample.page1)
           "delta0000").
  - cbn. lia.
  - vm_compute. lia.
  - vm_compute. left. reflexivity.
  - vm_compute. right. right. right. left. reflexivity.
Defined.

(** The last word of the five-word sample page lies in the window at
    start 4 only, which has 9 characters: it is in no chunk. *)
Example word_in_dropped_window :
  In "epsilon00" (Spec.window 3 (split Sample.page1) 4)
  /\ snd (split_pages 10 (init Sample.pdf 3 (-1)))
     = Ok [mkChunk 1 "alpha0000 beta00000 gamma0000";
           mkChunk 3 "zeta00000 eta000000 theta0000"].
Proof. split; vm_compute; [left|]; reflexivity. Qed.

End Windows.

(* ===================================================================== *)
(** * Building the index, searching it, and the chunk files *)
(* ===================================================================== *)

Module Index.

Import PDFRAGPipeline Notions.

Local Abbreviation tokens := (fun c : Chunk => split (chunk c)).

(** ** [build_index] *)

Lemma BM25Okapi_inv (corpus ix : BM25) :
  BM25Okapi corpus = Ok ix ->
  ix = corpus /\ exists d, In d corpus /\ d <> [].
Proof.
  unfold BM25Okapi.
  destruct (forallb _ corpus) eqn:E; [discriminate|].
  intros H. injection H as <-. split; [reflexivity|].
  induction corpus as [|d corpus IH]; [discriminate|].
  cbn in E. destruct d as [|w d].
  - destruct (IH E) as (d' & Hin & Hne). exists d'. split; [now right|exact Hne].
  - exists (w :: d). split; [now left|discriminate].
Qed.

Lemma BM25Okapi_tokens (corpus : BM25) :
  corpus <> [] -> Forall (fun d => d <> []) corpus ->
  BM25Okapi corpus = Ok corpus.
Proof.
  intros Hne Hall. unfold BM25Okapi.
  destruct Hall as [|d corpus Hd _]; [congruence|].
  destruct d; [congruence|reflexivity].
Qed.

Lemma ensure_chunks_stores (fuel : nat) (self : t) (cs : list Chunk) :
  snd (ensure_chunks fuel self) = Ok cs ->
  chunks (fst (ensure_chunks fuel self)) = Some cs.
Proof.
  unfold ensure_chunks. destruct (chunks self) as [cs0|] eqn:E; cbn [fst snd].
  - intros H. injection H as <-. exact E.
  - unfold split_pages. destruct (ensure_pages self) as [self1 ps].
    destruct (pages_loop _ _ _ _ _); cbn [fst snd]; try discriminate.
    intros H. injection H as <-. reflexivity.
Qed.

(** X7. When [build_index] returns, the pipeline holds an index built
    over its stored chunks: the corpus is the token list of every chunk,
    in order, and at least one chunk has a token. The chunks are the ones
    already stored, and they are made by [split_pages] only when none
    were. *)
Theorem build_index_builds (fuel : nat) (self : t) (ix : BM25) :
  snd (build_index fuel self) = Ok ix ->
  exists cs,
    snd (ensure_chunks fuel self) = Ok cs
    /\ Spec.built_over (fst (build_index fuel self)) cs
    /\ ix = map tokens cs
    /\ exists c, In c cs /\ split (chunk c) <> [].
Proof.
  unfold build_index.
  pose proof (ensure_chunks_stores fuel self) as Hst.
  destruct (ensure_chunks fuel self) as [self1 [cs| |]]; cbn [fst snd] in *;
    try discriminate.
  destruct (BM25Okapi (map tokens cs)) as [ix'| |] eqn:Eb; cbn [fst snd];
    try discriminate.
  intros H. injection H as ->.
  destruct (BM25Okapi_inv _ _ Eb) as (-> & d & Hin & Hne).
  exists cs. split; [reflexivity|]. split; [|split; [reflexivity|]].
  - split; [exact (Hst cs eq_refl)|reflexivity].
  - apply in_map_iff in Hin as (c & <- & Hc). exists c. now split.
Qed.

Lemma build_index_builds_witness :
  exists cs,
    snd (ensure_chunks 10 Sample.pipeline) = Ok cs
    /\ Spec.built_over (fst (build_index 10 Sample.pipeline)) cs
    /\ [["alpha0000"; "beta00000"; "gamma0000"];
        ["gamma0000"; "delta0000"; "epsilon00"];
        ["zeta00000"; "eta000000"; "theta0000"]] = map tokens cs
    /\ exists c, In c cs /\ split (chunk c) <> [].
Proof.
  apply (build_index_builds 10 Sample.pipeline). vm_compute. reflexivity.
Defined.

(** X8. On a pipeline without stored chunks on which [split_pages]
    returns, [build_index] succeeds exactly when there is a chunk: every
    chunk of [split_pages] has a token. With no chunk the constructor of
    the index raises [ZeroDivisionError]; the empty chunk list stays
    stored and no index is set. *)
Theorem build_index_fresh (fuel : nat) (self : t) (cs : list Chunk) :
  chunks self = None ->
  snd (split_pages fuel self) = Ok cs ->
  build_index fuel self
  = match cs with
    | [] => (fst (split_pages fuel self), Raise ZeroDivisionError)
    | _ :: _ => (set_bm25 (fst (split_pages fuel self)) (map tokens cs),
                 Ok (map tokens cs))
    end.
Proof.
  intros Hnone Hsp. pose proof (Windows.split_pages_tokens _ _ _ Hsp) as Htok.
  unfold build_index, ensure_chunks. rewrite Hnone.
  destruct (split_pages fuel self) as [self1 r]. cbn [fst snd] in *. subst r.
  destruct cs as [|c cs]; [reflexivity|].
  rewrite BM25Okapi_tokens; [reflexivity|discriminate|].
  apply Forall_map. exact Htok.
Qed.

Lemma build_index_fresh_witness :
  build_index 10 (init (mkPdf [Some "too short"] "" []) 3 1)
  = (fst (split_pages 10 (init (mkPdf [Some "too short"] "" []) 3 1)),
     Raise ZeroDivisionError).
Proof.
  apply (build_index_fresh 10 (init (mkPdf [Some "too short"] "" []) 3 1) []).
  - reflexivity.
  - vm_compute. reflexivity.
Defined.

(** ** [search_query] on a built index *)

Lemma select_raises {A} (cs : list A) (idx : list nat) (i : nat) :
  In i idx -> cs !! i = None -> select cs idx = Raise IndexError.
Proof.
  induction idx as [|j idx IH]; intros Hin Hi; [destruct Hin|].
  cbn [select]. destruct (cs !! j) eqn:Ej.
  - destruct Hin as [->|Hin]; [congruence|]. now rewrite (IH Hin Hi).
  - reflexivity.
Qed.

Lemma select_take {A} (cs : list A) (idx : list nat) (m : nat) :
  forall r, select cs idx = Ok r -> select cs (take m idx) = Ok (take m r).
Proof.
  revert m. induction idx as [|i idx IH]; intros m r; cbn [select].
  - intros H. injection H as <-. now destruct m.
  - destruct (cs !! i) eqn:Ei; [|discriminate].
    destruct (select cs idx) as [r0| |] eqn:Es; cbn [bind]; try discriminate.
    intros H. injection H as <-. destruct m as [|m]; [reflexivity|].
    cbn [take select]. rewrite Ei, (IH m r0 eq_refl). reflexivity.
Qed.

Lemma select_seq {A} (l : list A) :
  forall pre, select (pre ++ l) (seq (length pre) (length l)) = Ok l.
Proof.
  induction l as [|x l IH]; intros pre; [reflexivity|].
  cbn [length seq select].
  rewrite lookup_app_r by lia. rewrite Nat.sub_diag. cbn [lookup list_lookup].
  specialize (IH (pre ++ [x])). rewrite <- app_assoc, length_app in IH.
  cbn [app length] in IH. rewrite Nat.add_1_r in IH. rewrite IH. reflexivity.
Qed.

Lemma select_perm {A} (cs : list A) (idx idx' : list nat) :
  Permutation idx idx' ->
  forall r, select cs idx = Ok r ->
            exists r', select cs idx' = Ok r' /\ Permutation r r'.
Proof.
  induction 1 as [|i idx idx' _ IH|i j idx|idx1 idx2 idx3 _ IH1 _ IH2];
    intros r; cbn [select].
  - intros H. injection H as <-. now exists [].
  - destruct (cs !! i); [|discriminate].
    destruct (select cs idx) as [r0| |]; cbn [bind]; try discriminate.
    intros H. injection H as <-. destruct (IH r0 eq_refl) as (r0' & -> & Hp).
    eexists. split; [reflexivity|]. now constructor.
  - destruct (cs !! j); [|discriminate]. destruct (cs !! i); [|discriminate].
    destruct (select cs idx) as [r0| |]; cbn [bind]; try discriminate.
    intros H. injection H as <-. eexists. split; [reflexivity|]. constructor.
  - intros H. destruct (IH1 r H) as (r2 & H2 & Hp2).
    destruct (IH2 r2 H2) as (r3 & H3 & Hp3).
    exists r3. split; [exact H3|]. now transitivity r2.
Qed.

Section Searching.

Context {score : Type} (lt : score -> score -> bool).
Context (get_scores : BM25 -> list string -> list score).

Hypothesis lt_irrefl : forall a, lt a a = false.
Hypothesis lt_trans :
  forall a b c, lt a b = true -> lt b c = true -> lt a c = true.
Hypothesis lt_neg_trans :
  forall a b c, lt a b = false -> lt b c = false -> lt a c = false.
Hypothesis get_scores_length :
  forall ix q, length (get_scores ix q) = length ix.

Lemma search_query_built (fuel : nat) (self : t) (query : string)
    (top_k : Z) (cs : list Chunk) :
  Spec.built_over self cs ->
  search_query lt get_scores fuel self query top_k
  = (self,
     select cs (top_indices lt (get_scores (map tokens cs) (split query))
                  top_k)).
Proof.
  intros [Hcs Hix]. unfold search_query, ensure_index.
  now rewrite Hix, Hcs.
Qed.

Lemma scores_length (cs : list Chunk) (query : string) :
  length (get_scores (map tokens cs) (split query)) = length cs.
Proof. now rewrite get_scores_length, length_map. Qed.

Lemma sorted_reverse_head (scores : list score) :
  scores <> [] ->
  exists i rest,
    sorted_reverse lt scores = i :: rest /\ first_best lt scores i.
Proof.
  intros Hne.
  pose proof (Retrieval.sorted_reverse_ranked lt lt_irrefl lt_trans
                lt_neg_trans scores) as [Hsome Hrank].
  pose proof (Retrieval.sorted_reverse_perm lt scores) as Hperm.
  pose proof (Retrieval.sorted_reverse_length lt scores) as Hlen.
  destruct (sorted_reverse lt scores) as [|i rest] eqn:E.
  - destruct scores; [congruence|discriminate].
  - exists i, rest. split; [reflexivity|].
    inversion Hsome as [|? ? [si Hsi] _]; subst.
    exists si. split; [exact Hsi|]. intros j sj Hj.
    destruct (Nat.eq_dec j i) as [->|Hji].
    + rewrite Hsi in Hj. injection Hj as <-. split; [apply lt_irrefl|lia].
    + assert (Hin : In j (i :: rest)).
      { apply (Permutation_in j (Permutation_sym Hperm)), in_seq.
        apply lookup_lt_Some in Hj. lia. }
      destruct Hin as [->|Hin]; [congruence|].
      apply list_elem_of_In, list_elem_of_lookup_1 in Hin as [q Hq].
      destruct (Hrank 0%nat (S q) i j si sj) as [H1 H2];
        [lia|reflexivity|exact Hq|exact Hsi|exact Hj|].
      split; [exact H1|]. intros Hlt.
      destruct (lt sj si) eqn:Es; [reflexivity|]. specialize (H2 eq_refl). lia.
Qed.

(** X9. On an index built over a non-empty chunk list, [search_query]
    with [top_k = 1] returns exactly one chunk: the first chunk, in
    stored order, among those whose score for the query is the largest.
    The pipeline is left as it was. *)
Theorem search_query_top1_first_best (fuel : nat) (self : t)
    (query : string) (cs : list Chunk) :
  Spec.built_over self cs ->
  cs <> [] ->
  exists (i : nat) (c : Chunk),
    cs !! i = Some c
    /\ first_best lt (get_scores (map tokens cs) (split query)) i
    /\ search_query lt get_scores fuel self query 1 = (self, Ok [c]).
Proof.
  intros Hb Hne. rewrite (search_query_built fuel self query 1 cs Hb).
  set (scores := get_scores _ _).
  assert (Hlen : length scores = length cs) by apply scores_length.
  destruct (sorted_reverse_head scores) as (i & rest & Hs & Hbest).
  { intros ->. destruct cs; [congruence|discriminate]. }
  destruct Hbest as (si & Hsi & Hbest).
  destruct (lookup_lt_is_Some_2 cs i) as [c Hc].
  { rewrite <- Hlen. exact (lookup_lt_Some _ _ _ Hsi). }
  exists i, c. split; [exact Hc|]. split; [now exists si|].
  unfold top_indices. rewrite Retrieval.slice_top_k by lia. rewrite Hs.
  change (Z.to_nat 1) with 1%nat. cbn [take select]. rewrite Hc. reflexivity.
Qed.

(** X10. On a built index, a [top_k] that is at least the number of
    chunks returns every stored chunk exactly once: the result is a
    permutation of the chunk list. *)
Theorem search_query_all_chunks (fuel : nat) (self : t) (query : string)
    (top_k : Z) (cs : list Chunk) :
  Spec.built_over self cs ->
  Z.of_nat (length cs) <= top_k ->
  exists results,
    search_query lt get_scores fuel self query top_k = (self, Ok results)
    /\ Permutation results cs.
Proof.
  intros Hb Hk. rewrite (search_query_built fuel self query top_k cs Hb).
  set (scores := get_scores _ _).
  assert (Hlen : length scores = length cs) by apply scores_length.
  unfold top_indices. rewrite Retrieval.slice_top_k by lia.
  rewrite take_ge by (rewrite Retrieval.sorted_reverse_length; lia).
  destruct (select_perm cs (seq 0 (length cs)) (sorted_reverse lt scores))
    with (r := cs) as (r' & Hr & Hp).
  - symmetry. rewrite <- Hlen. apply Retrieval.sorted_reverse_perm.
  - exact (select_seq cs []).
  - exists r'. split; [now rewrite Hr|now symmetry].
Qed.

(** X11. A negative [top_k] does not raise: with [n] chunks it returns
    the first [n + top_k] results of the full ranking (none when that is
    not positive), so the lowest-ranked chunks are the ones left out. *)
Theorem search_query_negative_top_k (fuel : nat) (self : t) (query : string)
    (top_k : Z) (cs : list Chunk) :
  Spec.built_over self cs ->
  top_k < 0 ->
  exists ranking,
    search_query lt get_scores fuel self query (Z.of_nat (length cs))
    = (self, Ok ranking)
    /\ Permutation ranking cs
    /\ search_query lt get_scores fuel self query top_k
       = (self, Ok (take (Z.to_nat (Z.of_nat (length cs) + top_k)) ranking)).
Proof.
  intros Hb Hk.
  rewrite !(fun k => search_query_built fuel self query k cs Hb).
  set (scores := get_scores _ _).
  assert (Hlen : length scores = length cs) by apply scores_length.
  pose proof (Retrieval.sorted_reverse_length lt scores) as Hsl.
  unfold top_indices. rewrite !Retrieval.slice_from_0, Hsl, Hlen.
  assert (Hfull : take (Z.to_nat (slice_bound (Z.of_nat (length cs))
                                    (Z.of_nat (length cs))))
                    (sorted_reverse lt scores)
                  = sorted_reverse lt scores).
  { apply take_ge. unfold slice_bound.
    destruct (Z.of_nat (length cs) <? 0) eqn:E; lia. }
  rewrite Hfull.
  destruct (select_perm cs (seq 0 (length cs)) (sorted_reverse lt scores))
    with (r := cs) as (r' & Hr & Hp).
  - symmetry. rewrite <- Hlen. apply Retrieval.sorted_reverse_perm.
  - exact (select_seq cs []).
  - exists r'. split; [now rewrite Hr|]. split; [now symmetry|].
    f_equal. replace (slice_bound (Z.of_nat (length cs)) top_k)
      with (Z.max (top_k + Z.of_nat (length cs)) 0)
      by (unfold slice_bound; destruct (top_k <? 0) eqn:E; lia).
    rewrite (select_take cs _ _ r' Hr). do 2 f_equal. lia.
Qed.

(** ** Chunk files *)

(** X12. [load_chunks] replaces the stored chunks and leaves the index
    as it is. On a pipeline whose index was built over other chunks, a
    later [search_query] ranks the old corpus and reads the new list at
    those positions; when the new list is shorter and [top_k] asks for
    every chunk, it raises [IndexError]. *)
Theorem load_chunks_keeps_index (fuel : nat) (self : t) (query : string)
    (top_k : Z) (cs cs' : list Chunk) (files : chunk_files) (path : string) :
  Spec.built_over self cs ->
  files !! path = Some cs' ->
  let loaded := fst (load_chunks self files path) in
  chunks loaded = Some cs'
  /\ bm25 loaded = bm25 self
  /\ search_query lt get_scores fuel loaded query top_k
     = (loaded,
        select cs' (top_indices lt (get_scores (map tokens cs) (split query))
                      top_k))
  /\ ((length cs' < length cs)%nat -> Z.of_nat (length cs) <= top_k ->
      search_query lt get_scores fuel loaded query top_k
      = (loaded, Raise IndexError)).
Proof.
  intros [Hcs Hix] Hf. unfold load_chunks. rewrite Hf. cbn [fst].
  split; [reflexivity|]. split; [reflexivity|].
  assert (Heq : search_query lt get_scores fuel (set_chunks self cs') query
                  top_k
                = (set_chunks self cs',
                   select cs' (top_indices lt
                                 (get_scores (map tokens cs) (split query))
                                 top_k))).
  { unfold search_query, ensure_index. cbn [set_chunks bm25 chunks].
    now rewrite Hix. }
  split; [exact Heq|]. intros Hshort Hk. rewrite Heq. f_equal.
  set (scores := get_scores _ _).
  assert (Hlen : length scores = length cs) by apply scores_length.
  apply (select_raises cs' _ (length cs')); [|apply lookup_ge_None_2; lia].
  unfold top_indices. rewrite Retrieval.slice_top_k by lia.
  rewrite take_ge by (rewrite Retrieval.sorted_reverse_length; lia).
  apply (Permutation_in _ (Permutation_sym
                             (Retrieval.sorted_reverse_perm lt scores))).
  apply in_seq. lia.
Qed.

End Searching.

Lemma search_query_top1_first_best_witness :
  exists (i : nat) (c : Chunk),
    [mkChunk 1 "alpha0000 beta00000 gamma0000";
     mkChunk 1 "gamma0000 delta0000 epsilon00";
     mkChunk 3 "zeta00000 eta000000 theta0000"] !! i = Some c
    /\ first_best Z.ltb
         (Sample.overlap_scores
            (map tokens [mkChunk 1 "alpha0000 beta00000 gamma0000";
                         mkChunk 1 "gamma0000 delta0000 epsilon00";
                         mkChunk 3 "zeta00000 eta000000 theta0000"])
            (split "delta0000 theta0000")) i
    /\ Sample.search Sample.built "delta0000 theta0000" 1
       = (Sample.built, Ok [c]).
Proof.
  apply (search_query_top1_first_best Z.ltb Sample.overlap_scores
           Z.ltb_irrefl Retrieval.Zltb_trans Retrieval.Zltb_neg_trans
           Retrieval.overlap_scores_length 10 Sample.built
           "delta0000 theta0000").
  - exact Retrieval.sample_built_over.
  - discriminate.
Defined.

Lemma search_query_all_chunks_witness :
  exists results,
    Sample.search Sample.built "delta0000 theta0000" 5
    = (Sample.built, Ok results)
    /\ Permutation results
         [mkChunk 1 "alpha0000 beta00000 gamma0000";
          mkChunk 1 "gamma0000 delta0000 epsilon00";
          mkChunk 3 "zeta00000 eta000000 theta0000"].
Proof.
  apply (search_query_all_chunks Z.ltb Sample.overlap_scores
           Retrieval.overlap_scores_length 10 Sample.built
           "delta0000 theta0000" 5).
  - exact Retrieval.sample_built_over.
  - cbn. lia.
Defined.

Lemma search_query_negative_top_k_witness :
  exists ranking,
    Sample.search Sample.built "delta0000 theta0000" 3
    = (Sample.built, Ok ranking)
    /\ Permutation ranking
         [mkChunk 1 "alpha0000 beta00000 gamma0000";
          mkChunk 1 "gamma0000 delta0000 epsilon00";
          mkChunk 3 "zeta00000 eta000000 theta0000"]
    /\ Sample.search Sample.built "delta0000 theta0000" (-1)
       = (Sample.built, Ok (take 2 ranking)).
Proof.
  apply (search_query_negative_top_k Z.ltb Sample.overlap_scores
           Retrieval.overlap_scores_length 10 Sample.built
           "delta0000 theta0000" (-1)
           [mkChunk 1 "alpha0000 beta00000 gamma0000";
            mkChunk 1 "gamma0000 delta0000 epsilon00";
            mkChunk 3 "zeta00000 eta000000 theta0000"]).
  - exact Retrieval.sample_built_over.
  - lia.
Defined.

Lemma load_chunks_keeps_index_witness :
  let files : chunk_files :=
    {[ "short.pkl" := [mkChunk 7 "one chunk of another document"] ]} in
  let loaded := fst (load_chunks Sample.built files "short.pkl") in
  chunks loaded = Some [mkChunk 7 "one chunk of another document"]
  /\ bm25 loaded = bm25 Sample.built
  /\ Sample.search loaded "theta0000" 3
     = (loaded,
        select [mkChunk 7 "one chunk of another document"]
          (top_indices Z.ltb
             (Sample.overlap_scores
                (map tokens [mkChunk 1 "alpha0000 beta00000 gamma0000";
                             mkChunk 1 "gamma0000 delta0000 epsilon00";
                             mkChunk 3 "zeta00000 eta000000 theta0000"])
                (split "theta0000")) 3))
  /\ ((1 < 3)%nat -> 3 <= 3 ->
      Sample.search loaded "theta0000" 3 = (loaded, Raise IndexError)).
Proof.
  apply (load_chunks_keeps_index Z.ltb Sample.overlap_scores
           Retrieval.overlap_scores_length 10 Sample.built "theta0000" 3
           [mkChunk 1 "alpha0000 beta00000 gamma0000";
            mkChunk 1 "gamma0000 delta0000 epsilon00";
            mkChunk 3 "zeta00000 eta000000 theta0000"]
           [mkChunk 7 "one chunk of another document"]
           {[ "short.pkl" := [mkChunk 7 "one chunk of another document"] ]}
           "short.pkl").
  - exact Retrieval.sample_built_over.
  - vm_compute. reflexivity.
Defined.

(** With the default [top_k = 1] the stale index does not raise here: the
    question about the third chunk is answered with the only chunk of the
    other document when that chunk ranks first, and raises otherwise. *)
Example stale_index_top1 :
  let files : chunk_files :=
    {[ "short.pkl" := [mkChunk 7 "one chunk of another document"] ]} in
  let loaded := fst (load_chunks Sample.built files "short.pkl") in
  snd (Sample.search loaded "alpha0000" 1)
  = Ok [mkChunk 7 "one chunk of another document"]
  /\ snd (Sample.search loaded "theta0000" 1) = Raise IndexError.
Proof. vm_compute. split; reflexivity. Qed.

(** X13. What [save_chunks] writes, [load_chunks] reads back into any
    pipeline: the chunks of the saving pipeline, made by [split_pages]
    when it had none. Files at other paths are untouched. *)
Theorem save_load_chunks_roundtrip (fuel : nat) (self other : t)
    (files : chunk_files) (path : string) :
  snd (save_chunks fuel self files path) = Ok tt ->
  let self' := fst (fst (save_chunks fuel self files path)) in
  let files' := snd (fst (save_chunks fuel self files path)) in
  exists cs,
    snd (ensure_chunks fuel self) = Ok cs
    /\ chunks self' = Some cs
    /\ load_chunks other files' path = (set_chunks other cs, Ok cs)
    /\ forall path', path' <> path -> files' !! path' = files !! path'.
Proof.
  unfold save_chunks. pose proof (ensure_chunks_stores fuel self) as Hst.
  destruct (ensure_chunks fuel self) as [self1 [cs| |]]; cbn [fst snd] in *;
    try discriminate.
  intros _. exists cs. split; [reflexivity|]. split; [exact (Hst cs eq_refl)|].
  split.
  - unfold load_chunks. now rewrite lookup_insert_eq.
  - intros path' Hne. now rewrite lookup_insert_ne.
Qed.

Lemma save_load_chunks_roundtrip_witness :
  let self' := fst (fst (save_chunks 10 Sample.pipeline ∅ "chunks.pkl")) in
  let files' := snd (fst (save_chunks 10 Sample.pipeline ∅ "chunks.pkl")) in
  exists cs,
    snd (ensure_chunks 10 Sample.pipeline) = Ok cs
    /\ chunks self' = Some cs
    /\ load_chunks (init Sample.pdf 1000 50) files' "chunks.pkl"
       = (set_chunks (init Sample.pdf 1000 50) cs, Ok cs)
    /\ forall path', path' <> "chunks.pkl" ->
                     files' !! path' = (∅ : chunk_files) !! path'.
Proof.
  apply (save_load_chunks_roundtrip 10 Sample.pipeline
           (init Sample.pdf 1000 50) ∅ "chunks.pkl").
  vm_compute. reflexivity.
Defined.

(** ** [main] *)

Lemma forallb_of_map {A B} (f : B -> bool) (g : A -> B) (l : list A) :
  forallb f (map g l) = forallb (fun x => f (g x)) l.
Proof. induction l as [|x l IH]; [reflexivity|]. cbn. now rewrite IH. Qed.

(** X14. [main] starts the bot only from a chunk file: without the file
    it raises [FileNotFoundError], with a file whose chunks hold no token
    it raises [ZeroDivisionError], and otherwise the bot gets a pipeline
    with [chunk_size = 1000] and [overlap = 50] whose index is built over
    the chunks of the file, with empty counters and an empty log. The PDF
    is never read: [self.pages] stays [None]. *)
Theorem main_starts_from_chunk_file (fuel : nat) (pdf : PdfFile)
    (files : chunk_files)
    (model : string -> Z -> bool -> result (list (option string))) :
  match files !! MainTgBot.chunks_path with
  | None => MainTgBot.main fuel pdf files model = Raise FileNotFoundError
  | Some cs =>
      if forallb (fun c => match split (chunk c) with
                           | [] => true | _ :: _ => false end) cs
      then MainTgBot.main fuel pdf files model = Raise ZeroDivisionError
      else
        exists bot,
          MainTgBot.main fuel pdf files model = Ok bot
          /\ Spec.built_over (TelegramRAGBot.retrieval_pipeline bot) cs
          /\ pages (TelegramRAGBot.retrieval_pipeline bot) = None
          /\ chunk_size (TelegramRAGBot.retrieval_pipeline bot) = 1000
          /\ overlap (TelegramRAGBot.retrieval_pipeline bot) = 50
          /\ TelegramRAGBot.stats bot = TelegramRAGBot.initial_stats
          /\ TelegramRAGBot.qa_log bot = PList []
          /\ TelegramRAGBot.stats_path bot = "data/bot_stats.json"
          /\ TelegramRAGBot.qa_log_path bot = "data/bot_qa_log.json"
  end.
Proof.
  unfold MainTgBot.main, load_chunks.
  destruct (files !! MainTgBot.chunks_path) as [cs|]; [|reflexivity].
  unfold build_index, ensure_chunks, BM25Okapi. cbn [set_chunks chunks bind].
  rewrite forallb_of_map.
  destruct (forallb _ cs); [reflexivity|].
  cbn [bind]. eexists. split; [reflexivity|]. now repeat split.
Qed.

End Index.

(* ===================================================================== *)
(** * The handlers of the bot: what every event does to counters and log *)
(* ===================================================================== *)

Module Accounting.

Import PDFRAGPipeline TelegramRAGBot Notions.

(** ** Counting *)

Lemma count_cons {A} (f : A -> bool) (x : A) (l : list A) :
  count f (x :: l) = (if f x then 1 else 0) + count f l.
Proof.
  unfold count. cbn [List.filter]. destruct (f x); cbn [length]; lia.
Qed.

Lemma count_snoc {A} (f : A -> bool) (l : list A) (x : A) :
  count f (l ++ [x]) = count f l + (if f x then 1 else 0).
Proof.
  unfold count. rewrite List.filter_app, length_app. cbn [List.filter].
  destruct (f x); cbn [length]; lia.
Qed.

Lemma last_snoc_inv {A} (l : list A) (x : A) :
  last l = Some x -> l = take (length l - 1) l ++ [x].
Proof.
  intros H. destruct (list.last_Some l x) as [Hl _].
  destruct (Hl H) as [l' ->]. rewrite length_app. cbn [length].
  replace (length l' + 1 - 1)%nat with (length l') by lia.
  now rewrite take_app_length.
Qed.

Lemma dict_get_set (k : string) (v : value) (d : list (string * value)) :
  dict_get k (dict_set k v d) = Some v.
Proof.
  induction d as [|[k' v'] d IH]; cbn [dict_set dict_get].
  - now rewrite String.eqb_refl.
  - destruct (String.eqb k k') eqn:E; cbn [dict_get]; rewrite E;
      [reflexivity|exact IH].
Qed.

Lemma rated_as_set (v v' : string) (d : list (string * value)) :
  rated_as v' (PDict (dict_set "feedback" (PStr v) d)) = String.eqb v v'.
Proof. unfold rated_as. now rewrite dict_get_set. Qed.

Lemma rated_as_unrated (v : string) (d : list (string * value)) :
  dict_get "feedback" d = Some PNone -> rated_as v (PDict d) = false.
Proof. unfold rated_as. now intros ->. Qed.

Section Handlers.

Context {R : Type}.
Context (search_query : R -> string -> Z -> R * result (list Chunk)).
Context (json_dump : value -> string).
Context (json_load : string -> option value).

(** ** [answer_query] *)

Lemma answer_query_sending_delivered (self : t R) (user_query : string) :
  answer_query_sending search_query (fun _ => None) self user_query
  = answer_query search_query self user_query.
Proof.
  unfold answer_query_sending, answer_query.
  destruct (answer_try search_query self user_query) as [self' [m|e|]];
    reflexivity.
Qed.


Lemma answer_query_stats (self : t R) (q : string) (tt cc ii : Z) :
  stats self = Spec.stats_dict tt cc ii ->
  exists tt',
    stats (fst (answer_query search_query self q)) = Spec.stats_dict tt' cc ii
    /\ tt <= tt' <= tt + 1.
Proof.
  intros Hst. unfold answer_query, answer_try.
  destruct (search_query (retrieval_pipeline self) q 1)
    as [rp [[|c rest]|e|]]; cbn [fst set_retrieval llm_pipeline stats qa_log];
    try (exists tt; split; [exact Hst|lia]).
  destruct (LLMPipeline.generate_answer (llm_pipeline self) q (chunk c))
    as [answer|e|]; cbn [fst stats];
    try (exists tt; split; [exact Hst|lia]).
  rewrite Hst, Ledger.iadd_total. cbn [set_stats qa_log].
  exists (tt + 1). split; [|lia].
  destruct (append _ _); reflexivity.
Qed.

Lemma answer_query_log (self : t R) (q : string) (recs : list value) :
  qa_log self = PList recs ->
  qa_log (fst (answer_query search_query self q)) = PList recs
  \/ exists r,
       (forall v, rated_as v r = false)
       /\ qa_log (fst (answer_query search_query self q))
          = PList (recs ++ [r]).
Proof.
  intros Hlog. unfold answer_query, answer_try.
  destruct (search_query (retrieval_pipeline self) q 1)
    as [rp [[|c rest]|e|]]; cbn [fst set_retrieval llm_pipeline stats qa_log];
    auto.
  destruct (LLMPipeline.generate_answer (llm_pipeline self) q (chunk c))
    as [answer|e|]; cbn [fst qa_log]; auto.
  destruct (iadd_item (stats self) "total") as [stats'| |];
    cbn [fst qa_log set_stats set_retrieval]; auto.
  rewrite Hlog. cbn [append fst set_qa_log qa_log]. right.
  eexists. split; [|reflexivity]. intros v. reflexivity.
Qed.

(** ** [feedback_callback] *)

Lemma iadd_pressed (data : string) (tt cc ii : Z) :
  iadd_item (Spec.stats_dict tt cc ii)
    (if String.eqb data "feedback_yes" then "correct" else "incorrect")
  = Ok (if String.eqb data "feedback_yes"
        then Spec.stats_dict tt (cc + 1) ii
        else Spec.stats_dict tt cc (ii + 1)).
Proof. now destruct (String.eqb data "feedback_yes"). Qed.

Lemma feedback_callback_stats (self : t R) (fs : storage) (data : string)
    (tt cc ii : Z) :
  stats self = Spec.stats_dict tt cc ii ->
  stats (fst (fst (feedback_callback json_dump self fs data)))
  = if String.eqb data "feedback_yes"
    then Spec.stats_dict tt (cc + 1) ii
    else Spec.stats_dict tt cc (ii + 1).
Proof.
  intros Hst. unfold feedback_callback. rewrite Hst, iadd_pressed.
  cbn [set_stats qa_log stats_path qa_log_path].
  destruct (last_unrated (qa_log self)) as [[|]|e|]; cbn [fst stats];
    try reflexivity.
  destruct (setitem_last (qa_log self) "feedback" _); reflexivity.
Qed.

Lemma feedback_callback_log (self : t R) (fs : storage) (data : string)
    (recs : list value) :
  qa_log self = PList recs ->
  qa_log (fst (fst (feedback_callback json_dump self fs data))) = PList recs
  \/ exists l d,
       recs = l ++ [PDict d]
       /\ dict_get "feedback" d = Some PNone
       /\ qa_log (fst (fst (feedback_callback json_dump self fs data)))
          = PList (l ++ [PDict (dict_set "feedback"
                                  (PStr (if String.eqb data "feedback_yes"
                                         then "yes" else "no")) d)]).
Proof.
  intros Hlog. unfold feedback_callback.
  destruct (iadd_item (stats self) _) as [stats'|e|]; cbn [fst qa_log]; auto.
  cbn [set_stats qa_log stats_path qa_log_path]. rewrite Hlog.
  destruct (last_unrated (PList recs)) as [[|]|e|] eqn:Hlast;
    cbn [fst qa_log]; auto.
  apply Ledger.last_unrated_true in Hlast as (d & Hd & Hfb).
  cbn [setitem_last]. rewrite Hd. cbn [setitem bind fst set_qa_log qa_log].
  right. exists (take (length recs - 1) recs), d.
  split; [exact (last_snoc_inv _ _ Hd)|]. split; [exact Hfb|].
  now destruct (String.eqb data "feedback_yes").
Qed.

(** X16. A button press on a bot whose last record has no feedback yet
    writes "yes" or "no" into that record and into no other, adds one to
    [correct] or [incorrect] and leaves [total]. It then writes both
    files, first the new counters to [stats_path] and then the new log
    to [qa_log_path], leaves every other file, and acknowledges; any
    data other than "feedback_yes" counts as "no". *)
Theorem feedback_rates_last_record (self : t R) (fs : storage)
    (data : string) (total correct incorrect : Z) (l : list value)
    (d : list (string * value)) :
  stats self = Spec.stats_dict total correct incorrect ->
  qa_log self = PList (l ++ [PDict d]) ->
  dict_get "feedback" d = Some PNone ->
  let yes := String.eqb data "feedback_yes" in
  let r := feedback_callback json_dump self fs data in
  let stats' :=
    if yes then Spec.stats_dict total (correct + 1) incorrect
    else Spec.stats_dict total correct (incorrect + 1) in
  let qa_log' :=
    PList (l ++ [PDict (dict_set "feedback"
                          (PStr (if yes then "yes" else "no")) d)]) in
  stats (fst (fst r)) = stats'
  /\ qa_log (fst (fst r)) = qa_log'
  /\ snd r = Ok [logger_info (stats_path self);
                 logger_info (qa_log_path self);
                 reply_text (if yes then ThanksCorrect else ThanksIncorrect)]
  /\ snd (fst r)
     = <[qa_log_path self := json_dump qa_log']>
         (<[stats_path self := json_dump stats']> fs)
  /\ snd (fst r) !! qa_log_path self = Some (json_dump (qa_log (fst (fst r))))
  /\ (stats_path self <> qa_log_path self ->
      snd (fst r) !! stats_path self = Some (json_dump stats')).
Proof.
  intros Hst Hlog Hfb. cbv zeta. unfold feedback_callback.
  rewrite Hst, iadd_pressed.
  cbn [set_stats qa_log stats_path qa_log_path]. rewrite Hlog.
  assert (Hlast : last_unrated (PList (l ++ [PDict d])) = Ok true).
  { unfold last_unrated.
    replace (truthy (PList (l ++ [PDict d]))) with true
      by (destruct l; reflexivity).
    cbn [getitem_last]. rewrite last_snoc. cbn [bind getitem].
    rewrite Hfb. reflexivity. }
  rewrite Hlast. cbn [setitem_last]. rewrite last_snoc.
  cbn [setitem bind]. rewrite length_app. cbn [length].
  replace (length l + 1 - 1)%nat with (length l) by lia.
  rewrite take_app_length.
  cbn [save_stats save_qa_log fst snd set_qa_log stats qa_log stats_path
         qa_log_path app].
  rewrite lookup_insert_eq.
  destruct (String.eqb data "feedback_yes"); repeat split; try reflexivity;
    intros Hne; rewrite lookup_insert_ne by (intros E; apply Hne; symmetry; exact E);
    apply lookup_insert_eq.
Qed.

(** ** Event sequences *)

Lemma handle_stats (ev : event) (self : t R) (fs : storage) (tt cc ii : Z) :
  stats self = Spec.stats_dict tt cc ii ->
  exists tt',
    stats (fst (handle search_query json_dump ev (self, fs)))
    = Spec.stats_dict tt' (cc + (if is_yes ev then 1 else 0))
        (ii + (if is_other_press ev then 1 else 0))
    /\ tt <= tt' <= tt + (if is_message ev then 1 else 0).
Proof.
  intros Hst. destruct ev as [text|data]; cbn [handle is_yes is_other_press
                                                 is_message fst].
  - destruct (answer_query_stats self text tt cc ii Hst) as (tt' & -> & Ht).
    exists tt'. split; [|lia]. now rewrite !Z.add_0_r.
  - rewrite (feedback_callback_stats self fs data tt cc ii Hst).
    exists tt. split; [|lia].
    destruct (String.eqb data "feedback_yes"); cbn [negb];
      now rewrite !Z.add_0_r.
Qed.

(** X17. Whatever the events are, [correct] and [incorrect] count the
    button presses and nothing else: starting from well-formed counters,
    [correct] grows by the number of presses with data "feedback_yes",
    [incorrect] by the number of all other presses, also of those that
    found no record to rate, and [total] grows by at most the number of
    text messages. *)
Theorem run_counts_presses (evs : list event) (self : t R) (fs : storage)
    (total correct incorrect : Z) :
  stats self = Spec.stats_dict total correct incorrect ->
  exists total',
    stats (fst (run search_query json_dump evs (self, fs)))
    = Spec.stats_dict total' (correct + count is_yes evs)
        (incorrect + count is_other_press evs)
    /\ total <= total' <= total + count is_message evs.
Proof.
  revert self fs total correct incorrect.
  induction evs as [|ev evs IH]; intros self fs tt cc ii Hst.
  - exists tt. cbn [run fold_left fst]. unfold count. cbn.
    rewrite !Z.add_0_r. split; [exact Hst|lia].
  - destruct (handle_stats ev self fs tt cc ii Hst) as (tt1 & H1 & Ht1).
    unfold run. cbn [fold_left].
    destruct (handle search_query json_dump ev (self, fs)) as [self1 fs1].
    cbn [fst] in H1. destruct (IH self1 fs1 _ _ _ H1) as (tt2 & H2 & Ht2).
    exists tt2. unfold run in H2. rewrite H2, !count_cons.
    split; [f_equal; lia|lia].
Qed.

Lemma handle_log (ev : event) (self : t R) (fs : storage)
    (recs : list value) :
  qa_log self = PList recs ->
  exists recs',
    qa_log (fst (handle search_query json_dump ev (self, fs))) = PList recs'
    /\ (length recs <= length recs')%nat
    /\ take (length recs - 1) recs' = take (length recs - 1) recs.
Proof.
  intros Hlog. destruct ev as [text|data]; cbn [handle fst].
  - destruct (answer_query_log self text recs Hlog) as [->|(r & _ & ->)].
    + exists recs. split; [reflexivity|]. split; [lia|reflexivity].
    + exists (recs ++ [r]). split; [reflexivity|].
      rewrite length_app. split; [lia|]. now rewrite take_app_le by lia.
  - destruct (feedback_callback_log self fs data recs Hlog)
      as [->|(l & d & -> & _ & ->)].
    + exists recs. split; [reflexivity|]. split; [lia|reflexivity].
    + eexists. split; [reflexivity|]. rewrite !length_app. cbn [length].
      split; [lia|]. replace (length l + 1 - 1)%nat with (length l) by lia.
      now rewrite !take_app_length.
Qed.

(** X18. The log only grows, and only its last record can still change:
    after any events, the log of [n] records has become a log of at least
    [n] records whose first [n - 1] are the ones it had. *)
Theorem run_keeps_earlier_records (evs : list event) (self : t R)
    (fs : storage) (recs : list value) :
  qa_log self = PList recs ->
  exists recs',
    qa_log (fst (run search_query json_dump evs (self, fs))) = PList recs'
    /\ (length recs <= length recs')%nat
    /\ take (length recs - 1) recs' = take (length recs - 1) recs.
Proof.
  revert self fs recs.
  induction evs as [|ev evs IH]; intros self fs recs Hlog.
  - exists recs. split; [exact Hlog|]. split; [lia|reflexivity].
  - destruct (handle_log ev self fs recs Hlog) as (recs1 & H1 & Hl1 & Ht1).
    unfold run. cbn [fold_left].
    destruct (handle search_query json_dump ev (self, fs)) as [self1 fs1].
    cbn [fst] in H1. destruct (IH self1 fs1 recs1 H1) as (recs2 & H2 & Hl2 & Ht2).
    exists recs2. split; [exact H2|]. split; [lia|].
    rewrite <- Ht1.
    replace (length recs - 1)%nat
      with (Nat.min (length recs - 1) (length recs1 - 1)) by lia.
    rewrite <- !take_take. now rewrite Ht2.
Qed.

Lemma handle_rated (ev : event) (self : t R) (fs : storage)
    (tt cc ii : Z) (recs : list value) :
  stats self = Spec.stats_dict tt cc ii ->
  qa_log self = PList recs ->
  count (rated_as "yes") recs <= cc ->
  count (rated_as "no") recs <= ii ->
  exists tt' cc' ii' recs',
    stats (fst (handle search_query json_dump ev (self, fs)))
    = Spec.stats_dict tt' cc' ii'
    /\ qa_log (fst (handle search_query json_dump ev (self, fs)))
       = PList recs'
    /\ count (rated_as "yes") recs' <= cc'
    /\ count (rated_as "no") recs' <= ii'.
Proof.
  intros Hst Hlog Hy Hn. destruct ev as [text|data]; cbn [handle fst].
  - destruct (answer_query_stats self text tt cc ii Hst) as (tt' & -> & _).
    exists tt', cc, ii.
    destruct (answer_query_log self text recs Hlog) as [->|(r & Hr & ->)].
    + exists recs. auto.
    + exists (recs ++ [r]). rewrite !count_snoc, !Hr.
      repeat split; try reflexivity; lia.
  - rewrite (feedback_callback_stats self fs data tt cc ii Hst).
    destruct (feedback_callback_log self fs data recs Hlog)
      as [->|(l & d & -> & Hfb & ->)].
    + destruct (String.eqb data "feedback_yes"); eexists _, _, _, recs;
        repeat split; try reflexivity; lia.
    + rewrite count_snoc, (rated_as_unrated "yes" _ Hfb) in Hy.
      rewrite count_snoc, (rated_as_unrated "no" _ Hfb) in Hn.
      assert (Eyy : String.eqb "yes" "yes" = true) by reflexivity.
      assert (Eyn : String.eqb "yes" "no" = false) by reflexivity.
      assert (Eny : String.eqb "no" "yes" = false) by reflexivity.
      assert (Enn : String.eqb "no" "no" = true) by reflexivity.
      destruct (String.eqb data "feedback_yes"); eexists _, _, _, _;
        (split; [reflexivity|]); (split; [reflexivity|]);
        rewrite !count_snoc, !rated_as_set, ?Eyy, ?Eyn, ?Eny, ?Enn; lia.
Qed.

(** X19. Rated records never outnumber the counters: when the records
    with feedback "yes" are at most [correct] and those with "no" at most
    [incorrect], as on a new bot, the same holds after any events. *)
Theorem run_rated_within_counters (evs : list event) (self : t R)
    (fs : storage) (total correct incorrect : Z) (recs : list value) :
  stats self = Spec.stats_dict total correct incorrect ->
  qa_log self = PList recs ->
  count (rated_as "yes") recs <= correct ->
  count (rated_as "no") recs <= incorrect ->
  exists total' correct' incorrect' recs',
    stats (fst (run search_query json_dump evs (self, fs)))
    = Spec.stats_dict total' correct' incorrect'
    /\ qa_log (fst (run search_query json_dump evs (self, fs))) = PList recs'
    /\ count (rated_as "yes") recs' <= correct'
    /\ count (rated_as "no") recs' <= incorrect'.
Proof.
  revert self fs total correct incorrect recs.
  induction evs as [|ev evs IH]; intros self fs tt cc ii recs Hst Hlog Hy Hn.
  - exists tt, cc, ii, recs. auto.
  - destruct (handle_rated ev self fs tt cc ii recs Hst Hlog Hy Hn)
      as (tt1 & cc1 & ii1 & recs1 & H1 & Hl1 & Hy1 & Hn1).
    unfold run. cbn [fold_left].
    destruct (handle search_query json_dump ev (self, fs)) as [self1 fs1].
    cbn [fst] in H1, Hl1. exact (IH self1 fs1 _ _ _ _ H1 Hl1 Hy1 Hn1).
Qed.

(** X20. After a handled button press the two files hold the state of
    the bot: on a bot with well-formed counters and log, with different
    paths for the two files and a [json.load] that reads back what
    [json.dump] wrote, a bot that loads both files gets the counters and
    the log that the pressed bot has. *)
Theorem feedback_state_recoverable (self fresh : t R) (fs : storage)
    (data : string) (out : list output) :
  (forall v, Json.well_formed v = true -> json_load (json_dump v) = Some v) ->
  Spec.conserved (stats self) (qa_log self) ->
  stats_path self <> qa_log_path self ->
  snd (feedback_callback json_dump self fs data) = Ok out ->
  let self' := fst (fst (feedback_callback json_dump self fs data)) in
  let fs' := snd (fst (feedback_callback json_dump self fs data)) in
  let loaded :=
    fst (load_qa_log json_load
           (fst (load_stats json_load fresh fs' (stats_path self)))
           fs' (qa_log_path self)) in
  stats loaded = stats self' /\ qa_log loaded = qa_log self'.
Proof.
  intros Hjson Hcons Hpaths Hout. cbv zeta.
  destruct (Ledger.feedback_write_through json_dump self fs data out Hpaths
              Hout) as [Hs Hq].
  pose proof (Ledger.feedback_callback_conserved json_dump self fs data Hcons)
    as Hcons'.
  destruct (Ledger.conserved_well_formed _ _ Hcons') as [Hws Hwq].
  unfold load_stats, load_qa_log. rewrite Hs, Hq.
  rewrite (Hjson _ Hws), (Hjson _ Hwq). cbn [fst]. split; reflexivity.
Qed.

(** ** The handlers and the files *)

Lemma answer_query_paths (self : t R) (q : string) :
  stats_path (fst (answer_query search_query self q)) = stats_path self
  /\ qa_log_path (fst (answer_query search_query self q)) = qa_log_path self.
Proof.
  unfold answer_query, answer_try.
  destruct (search_query (retrieval_pipeline self) q 1)
    as [rp [[|c rest]|e|]];
    cbn [fst set_retrieval llm_pipeline stats qa_log stats_path qa_log_path];
    auto.
  destruct (LLMPipeline.generate_answer (llm_pipeline self) q (chunk c));
    cbn [fst stats_path qa_log_path]; auto.
  destruct (iadd_item (stats self) "total");
    cbn [fst set_stats qa_log stats_path qa_log_path]; auto.
  destruct (append _ _);
    cbn [fst set_qa_log set_stats set_retrieval stats_path qa_log_path]; auto.
Qed.

Lemma feedback_callback_files (self : t R) (fs1 fs2 : storage)
    (data : string) :
  let r1 := feedback_callback json_dump self fs1 data in
  let r2 := feedback_callback json_dump self fs2 data in
  fst (fst r1) = fst (fst r2)
  /\ stats_path (fst (fst r1)) = stats_path self
  /\ qa_log_path (fst (fst r1)) = qa_log_path self
  /\ forall path, path <> stats_path self -> path <> qa_log_path self ->
                  snd (fst r1) !! path = fs1 !! path.
Proof.
  cbv zeta. unfold feedback_callback.
  destruct (iadd_item (stats self) _) as [stats'|e|]; cbn [fst snd]; auto.
  cbn [set_stats qa_log stats_path qa_log_path].
  destruct (last_unrated (qa_log self)) as [[|]|e|]; cbn [fst snd]; auto.
  - destruct (setitem_last (qa_log self) "feedback" _) as [log'|e|];
      cbn [bind fst snd set_qa_log stats_path qa_log_path save_stats
             save_qa_log]; auto.
    repeat split. intros path H1 H2. now rewrite !lookup_insert_ne.
  - cbn [save_stats save_qa_log fst snd stats_path qa_log_path].
    repeat split. intros path H1 H2. now rewrite !lookup_insert_ne.
Qed.

Lemma handle_files (ev : event) (self : t R) (fs1 fs2 : storage) :
  let w1 := handle search_query json_dump ev (self, fs1) in
  let w2 := handle search_query json_dump ev (self, fs2) in
  fst w1 = fst w2
  /\ stats_path (fst w1) = stats_path self
  /\ qa_log_path (fst w1) = qa_log_path self
  /\ forall path, path <> stats_path self -> path <> qa_log_path self ->
                  snd w1 !! path = fs1 !! path.
Proof.
  destruct ev as [text|data]; cbn [handle fst snd].
  - destruct (answer_query_paths self text) as [H1 H2]. auto.
  - apply feedback_callback_files.
Qed.

(** X27. The handlers never read the files and write only the two of
    the bot: after any events, the bot is the same whatever the files
    held at the start, its two paths are the ones it was made with, and
    every file at another path is as it was. *)
Theorem run_never_reads_files (evs : list event) (self : t R)
    (fs1 fs2 : storage) :
  let w1 := run search_query json_dump evs (self, fs1) in
  let w2 := run search_query json_dump evs (self, fs2) in
  fst w1 = fst w2
  /\ stats_path (fst w1) = stats_path self
  /\ qa_log_path (fst w1) = qa_log_path self
  /\ forall path, path <> stats_path self -> path <> qa_log_path self ->
                  snd w1 !! path = fs1 !! path.
Proof.
  cbv zeta. revert self fs1 fs2.
  induction evs as [|ev evs IH]; intros self fs1 fs2; [now cbn|].
  unfold run. cbn [fold_left].
  destruct (handle_files ev self fs1 fs2) as (Hs & Hp1 & Hp2 & Hf).
  destruct (handle search_query json_dump ev (self, fs1)) as [self1 fs1'].
  destruct (handle search_query json_dump ev (self, fs2)) as [self2 fs2'].
  cbn [fst snd] in *. subst self2.
  destruct (IH self1 fs1' fs2') as (Hs' & Hp1' & Hp2' & Hf').
  unfold run in *. rewrite Hp1, Hp2 in *.
  repeat split; try assumption.
  intros path H1 H2. rewrite (Hf' path H1 H2). exact (Hf path H1 H2).
Qed.

(** X28. [answer_query] counts the question before it logs it: on a bot
    whose log is not a list, as after [load_qa_log] on a file that holds
    another JSON value, a question that was retrieved and answered adds
    one to [total], then [append] raises [AttributeError]; the log stays
    as it was and the reply is the error text. *)
Theorem answer_query_log_not_a_list (self : t R) (user_query : string)
    (rp : R) (c : Chunk) (rest : list Chunk) (answer : string)
    (total correct incorrect : Z) :
  search_query (retrieval_pipeline self) user_query 1 = (rp, Ok (c :: rest)) ->
  LLMPipeline.generate_answer (llm_pipeline self) user_query (chunk c)
  = Ok answer ->
  stats self = Spec.stats_dict total correct incorrect ->
  (forall l, qa_log self <> PList l) ->
  answer_query search_query self user_query
  = (set_stats (set_retrieval self rp)
       (Spec.stats_dict (total + 1) correct incorrect),
     Ok [logger_error AttributeError; reply_text ErrorMsg]).
Proof.
  intros Hs Hg Hst Hlog. unfold answer_query, answer_try. rewrite Hs.
  cbn [set_retrieval llm_pipeline stats qa_log]. rewrite Hg, Hst.
  rewrite Ledger.iadd_total.
  change (qa_log (set_stats (set_retrieval self rp) _)) with (qa_log self).
  destruct (qa_log self) as [| | |l0|d0]; try reflexivity.
  now destruct (Hlog l0).
Qed.

End Handlers.

(** ** On the sample bot *)

Lemma answer_query_log_not_a_list_witness :
  let self :=
    fst (load_qa_log Json.loads Sample.bot {[ "log.json" := "{}" ]}
           "log.json") in
  answer_query Sample.search self "gamma0000"
  = (set_stats (set_retrieval self Sample.built) (Spec.stats_dict (0 + 1) 0 0),
     Ok [logger_error AttributeError; reply_text ErrorMsg]).
Proof.
  apply (answer_query_log_not_a_list Sample.search
           (fst (load_qa_log Json.loads Sample.bot {[ "log.json" := "{}" ]}
                   "log.json"))
           "gamma0000" Sample.built
           (mkChunk 1 "alpha0000 beta00000 gamma0000") [] "forty-two" 0 0 0).
  - vm_compute. reflexivity.
  - vm_compute. reflexivity.
  - vm_compute. reflexivity.
  - intros l. vm_compute. discriminate.
Defined.


(** The same run: the answer is not delivered, the user gets the error
    text, and the question is counted and logged. *)
Example answer_counted_but_not_delivered :
  let reply := fun m => match m with
                        | AnswerMsg _ _ => Some (CollaboratorError "timed out")
                        | _ => None
                        end in
  let r := answer_query_sending Sample.search reply Sample.bot "gamma0000" in
  snd r = Ok [logger_error (CollaboratorError "timed out");
              reply_text ErrorMsg]
  /\ stats (fst r) = Spec.stats_dict 1 0 0
  /\ qa_log (fst r) = PList [Sample.record1 PNone].
Proof. vm_compute. repeat split; reflexivity. Qed.

Lemma feedback_rates_last_record_witness :
  let self := fst (answer_query Sample.search Sample.bot "gamma0000") in
  let d := [("query", PStr "gamma0000");
            ("retrieval_context", PStr "alpha0000 beta00000 gamma0000");
            ("retrieved_page", PInt 1);
            ("generated_answer", PStr "forty-two");
            ("feedback", PNone)] in
  let fs : storage := {[ "notes.txt" := "kept" ]} in
  let yes := String.eqb "feedback_no" "feedback_yes" in
  let r := feedback_callback Json.dumps self fs "feedback_no" in
  let stats' :=
    if yes then Spec.stats_dict 1 (0 + 1) 0
    else Spec.stats_dict 1 0 (0 + 1) in
  let qa_log' :=
    PList ([] ++ [PDict (dict_set "feedback"
                           (PStr (if yes then "yes" else "no")) d)]) in
  stats (fst (fst r)) = stats'
  /\ qa_log (fst (fst r)) = qa_log'
  /\ snd r = Ok [logger_info (stats_path self);
                 logger_info (qa_log_path self);
                 reply_text (if yes then ThanksCorrect else ThanksIncorrect)]
  /\ snd (fst r)
     = <[qa_log_path self := Json.dumps qa_log']>
         (<[stats_path self := Json.dumps stats']> fs)
  /\ snd (fst r) !! qa_log_path self
     = Some (Json.dumps (qa_log (fst (fst r))))
  /\ (stats_path self <> qa_log_path self ->
      snd (fst r) !! stats_path self = Some (Json.dumps stats')).
Proof.
  apply (feedback_rates_last_record Json.dumps
           (fst (answer_query Sample.search Sample.bot "gamma0000"))
           {[ "notes.txt" := "kept" ]}
           "feedback_no" 1 0 0 []
           [("query", PStr "gamma0000");
            ("retrieval_context", PStr "alpha0000 beta00000 gamma0000");
            ("retrieved_page", PInt 1);
            ("generated_answer", PStr "forty-two");
            ("feedback", PNone)]);
    vm_compute; reflexivity.
Defined.

Lemma run_counts_presses_witness :
  exists total',
    stats (fst (run Sample.search Json.dumps
                  [Callback "feedback_yes"; Message "gamma0000";
                   Callback "feedback_no"; Callback "feedback_maybe"]
                  (Sample.bot, ∅)))
    = Spec.stats_dict total'
        (0 + count is_yes [Callback "feedback_yes"; Message "gamma0000";
                           Callback "feedback_no"; Callback "feedback_maybe"])
        (0 + count is_other_press
               [Callback "feedback_yes"; Message "gamma0000";
                Callback "feedback_no"; Callback "feedback_maybe"])
    /\ 0 <= total'
       <= 0 + count is_message
                [Callback "feedback_yes"; Message "gamma0000";
                 Callback "feedback_no"; Callback "feedback_maybe"].
Proof.
  apply (run_counts_presses Sample.search Json.dumps
           [Callback "feedback_yes"; Message "gamma0000";
            Callback "feedback_no"; Callback "feedback_maybe"]
           Sample.bot ∅ 0 0 0).
  reflexivity.
Defined.

Lemma run_keeps_earlier_records_witness :
  exists recs',
    qa_log (fst (run Sample.search Json.dumps
                   [Message "theta0000"; Callback "feedback_no"]
                   Sample.rated_bot))
    = PList recs'
    /\ (length [Sample.record1 (PStr "yes")] <= length recs')%nat
    /\ take (length [Sample.record1 (PStr "yes")] - 1) recs'
       = take (length [Sample.record1 (PStr "yes")] - 1)
           [Sample.record1 (PStr "yes")].
Proof.
  apply (run_keeps_earlier_records Sample.search Json.dumps
           [Message "theta0000"; Callback "feedback_no"]
           (fst Sample.rated_bot) (snd Sample.rated_bot)
           [Sample.record1 (PStr "yes")]).
  vm_compute. reflexivity.
Defined.

Lemma run_rated_within_counters_witness :
  exists total' correct' incorrect' recs',
    stats (fst (run Sample.search Json.dumps
                  [Message "gamma0000"; Callback "feedback_yes";
                   Callback "feedback_no"]
                  (Sample.bot, ∅)))
    = Spec.stats_dict total' correct' incorrect'
    /\ qa_log (fst (run Sample.search Json.dumps
                      [Message "gamma0000"; Callback "feedback_yes";
                       Callback "feedback_no"]
                      (Sample.bot, ∅)))
       = PList recs'
    /\ count (rated_as "yes") recs' <= correct'
    /\ count (rated_as "no") recs' <= incorrect'.
Proof.
  apply (run_rated_within_counters Sample.search Json.dumps
           [Message "gamma0000"; Callback "feedback_yes";
            Callback "feedback_no"]
           Sample.bot ∅ 0 0 0 []); vm_compute; congruence.
Defined.

Lemma feedback_state_recoverable_witness :
  let self := fst (answer_query Sample.search Sample.bot "gamma0000") in
  let self' := fst (fst (feedback_callback Json.dumps self ∅ "feedback_yes")) in
  let fs' := snd (fst (feedback_callback Json.dumps self ∅ "feedback_yes")) in
  let loaded :=
    fst (load_qa_log Json.loads
           (fst (load_stats Json.loads Sample.bot_down fs' (stats_path self)))
           fs' (qa_log_path self)) in
  stats loaded = stats self' /\ qa_log loaded = qa_log self'.
Proof.
  apply (feedback_state_recoverable Json.dumps Json.loads
           (fst (answer_query Sample.search Sample.bot "gamma0000"))
           Sample.bot_down ∅ "feedback_yes"
           [logger_info "bot_stats.json"; logger_info "bot_qa_log.json";
            reply_text ThanksCorrect]).
  - exact JsonFacts.loads_dumps.
  - exists 1, 0, 0, [Sample.record1 PNone]. repeat split; vm_compute; reflexivity.
  - vm_compute. discriminate.
  - vm_compute. reflexivity.
Defined.

(** A question that was answered is in no file until a button is pressed
    or a save command is sent. *)
Example answer_not_persisted :
  snd (handle Sample.search Json.dumps (Message "gamma0000") (Sample.bot, ∅))
  = ∅.
Proof. reflexivity. Qed.

End Accounting.

(* ===================================================================== *)
(** * The callers of [search_query]: the bot and [evaluate_retrieval] *)
(* ===================================================================== *)

Module Callers.

Import PDFRAGPipeline Notions.

Local Abbreviation tokens := (fun c : Chunk => split (chunk c)).

(** ** [evaluate_retrieval] on any pipeline *)

Section Generic.

Context {P : Type}.
Context (search_query : P -> string -> Z -> P * result (list Chunk)).

Lemma loop_bounds (queries : list string) :
  forall (pipeline : P) (expected_pages : list Z) (top_k : Z) (idx : nat)
         (correct : Z) (pipeline' : P) (correct' : Z),
    EvaluateRetrieval.loop search_query pipeline queries expected_pages top_k
      idx correct = (pipeline', Ok correct') ->
    correct <= correct' <= correct + Z.of_nat (length queries)
    /\ (queries = []
        \/ (idx + length queries <= length expected_pages)%nat).
Proof.
  induction queries as [|q queries IH];
    intros pipeline expected top_k idx correct pipeline' correct';
    cbn [EvaluateRetrieval.loop length].
  - intros H. injection H as _ <-. split; [lia|now left].
  - destruct (search_query pipeline q top_k) as [p1 [[|res rs]|e|]];
      try discriminate.
    destruct (expected !! idx) as [e|] eqn:Ee; [|discriminate].
    intros H. apply IH in H as [Hc Hl]. apply lookup_lt_Some in Ee.
    split; [destruct (page res =? e); lia|]. right.
    destruct Hl as [->|Hl]; [cbn [length]|]; lia.
Qed.

(** X22. When [evaluate_retrieval] returns, the number of correct
    queries lies between zero and the number of queries, which is the
    denominator of the accuracy, and an expected page was given for
    every query. *)
Theorem evaluate_retrieval_bounds (pipeline pipeline' : P)
    (queries : list string) (expected_pages : list Z) (top_k : Z)
    (correct total : Z) :
  EvaluateRetrieval.evaluate_retrieval search_query pipeline queries
    expected_pages top_k = (pipeline', Ok (correct, total)) ->
  0 <= correct <= total
  /\ total = Z.of_nat (length queries)
  /\ (length queries <= length expected_pages)%nat.
Proof.
  unfold EvaluateRetrieval.evaluate_retrieval.
  destruct (EvaluateRetrieval.loop search_query pipeline queries
              expected_pages top_k 0 0) as [p1 [c| |]] eqn:E;
    try discriminate.
  intros H. injection H as _ <- <-. apply loop_bounds in E as [Hc [->|Hl]];
    cbn [length] in *; lia.
Qed.

End Generic.

(** ** The callers on a [PDFRAGPipeline] with a built index *)

Section Built.

Context {score : Type} (lt : score -> score -> bool).
Context (get_scores : BM25 -> list string -> list score).

Hypothesis lt_irrefl : forall a, lt a a = false.
Hypothesis lt_trans :
  forall a b c, lt a b = true -> lt b c = true -> lt a c = true.
Hypothesis lt_neg_trans :
  forall a b c, lt a b = false -> lt b c = false -> lt a c = false.
Hypothesis get_scores_length :
  forall ix q, length (get_scores ix q) = length ix.

Local Abbreviation search fuel := (search_query lt get_scores fuel).

Lemma search_nonempty (fuel : nat) (self : t) (query : string) (top_k : Z)
    (cs : list Chunk) :
  Spec.built_over self cs -> cs <> [] -> 1 <= top_k ->
  exists res rest, search fuel self query top_k = (self, Ok (res :: rest)).
Proof.
  intros Hb Hne Hk.
  rewrite (Index.search_query_built lt get_scores fuel self query top_k cs Hb).
  set (scores := get_scores _ _).
  assert (Hlen : length scores = length cs)
    by apply (Index.scores_length get_scores get_scores_length).
  destruct (Retrieval.select_ok cs (top_indices lt scores top_k))
    as (results & -> & Hres).
  { eapply List.Forall_impl; [|apply Retrieval.top_indices_in_range].
    cbn. intros i Hi. lia. }
  unfold top_indices in Hres. rewrite Retrieval.slice_top_k in Hres by lia.
  pose proof (Retrieval.sorted_reverse_length lt scores) as Hsl.
  destruct (sorted_reverse lt scores) as [|i idx];
    [destruct cs; [congruence|cbn in *; lia]|].
  destruct (Z.to_nat top_k) as [|k] eqn:Ek; [lia|].
  cbn [take] in Hres. inversion Hres; subst. eauto.
Qed.

Lemma loop_on_built (fuel : nat) (pipeline : t) (top_k : Z)
    (cs : list Chunk) (expected_pages : list Z) (queries : list string) :
  Spec.built_over pipeline cs -> cs <> [] -> 1 <= top_k ->
  forall (idx : nat) (correct : Z),
    (idx + length queries <= length expected_pages)%nat ->
    EvaluateRetrieval.loop (search fuel) pipeline queries expected_pages
      top_k idx correct
    = (pipeline,
       Ok (correct + count (hit (search fuel) pipeline top_k)
                       (zip queries (drop idx expected_pages)))).
Proof.
  intros Hb Hne Hk. induction queries as [|q queries IH]; intros idx correct Hl.
  - cbn. unfold count. cbn. now rewrite Z.add_0_r.
  - cbn [EvaluateRetrieval.loop length] in *.
    destruct (search_nonempty fuel pipeline q top_k cs Hb Hne Hk)
      as (res & rest & Hs).
    rewrite Hs.
    destruct (lookup_lt_is_Some_2 expected_pages idx) as [e He]; [lia|].
    rewrite He, (IH (S idx)) by lia.
    rewrite (drop_S _ _ _ He). cbn [zip zip_with].
    rewrite Accounting.count_cons. unfold hit at 2. cbn [fst snd].
    rewrite Hs. cbn [snd]. do 2 f_equal.
    destruct (page res =? e); lia.
Qed.

(** X23. On a pipeline with an index built over at least one chunk, with
    [top_k >= 1] and an expected page for every query,
    [evaluate_retrieval] returns and leaves the pipeline as it was. The
    number of correct queries is the number of queries whose first
    result, searched alone, is on the expected page, so it does not
    depend on the order of the queries. *)
Theorem evaluate_retrieval_on_built_index (fuel : nat) (pipeline : t)
    (queries : list string) (expected_pages : list Z) (top_k : Z)
    (cs : list Chunk) :
  Spec.built_over pipeline cs ->
  cs <> [] ->
  1 <= top_k ->
  (length queries <= length expected_pages)%nat ->
  EvaluateRetrieval.evaluate_retrieval (search fuel) pipeline queries
    expected_pages top_k
  = (pipeline,
     Ok (count (hit (search fuel) pipeline top_k) (zip queries expected_pages),
         Z.of_nat (length queries))).
Proof.
  intros Hb Hne Hk Hl. unfold EvaluateRetrieval.evaluate_retrieval.
  rewrite (loop_on_built fuel pipeline top_k cs expected_pages queries Hb Hne
             Hk 0 0) by lia.
  now rewrite drop_0, Z.add_0_l.
Qed.

(** X24. With [top_k = 0] every search on a built index returns no
    result, so [evaluate_retrieval] raises [IndexError] at the first
    query. *)
Theorem evaluate_retrieval_top_k_zero (fuel : nat) (pipeline : t)
    (query : string) (queries : list string) (expected_pages : list Z)
    (cs : list Chunk) :
  Spec.built_over pipeline cs ->
  EvaluateRetrieval.evaluate_retrieval (search fuel) pipeline
    (query :: queries) expected_pages 0
  = (pipeline, Raise IndexError).
Proof.
  intros Hb. unfold EvaluateRetrieval.evaluate_retrieval.
  cbn [EvaluateRetrieval.loop].
  rewrite (Index.search_query_built lt get_scores fuel pipeline query 0 cs Hb).
  unfold top_indices. rewrite Retrieval.slice_top_k by lia.
  reflexivity.
Qed.

Lemma loop_short_expected (fuel : nat) (pipeline : t) (top_k : Z)
    (cs : list Chunk) (expected_pages : list Z) (queries : list string) :
  Spec.built_over pipeline cs -> cs <> [] -> 1 <= top_k ->
  forall (idx : nat) (correct : Z),
    (length expected_pages < idx + length queries)%nat ->
    queries <> [] ->
    EvaluateRetrieval.loop (search fuel) pipeline queries expected_pages
      top_k idx correct
    = (pipeline, Raise IndexError).
Proof.
  intros Hb Hne Hk. induction queries as [|q queries IH];
    intros idx correct Hl Hq; [congruence|].
  cbn [EvaluateRetrieval.loop length] in *.
  destruct (search_nonempty fuel pipeline q top_k cs Hb Hne Hk)
    as (res & rest & ->).
  destruct (expected_pages !! idx) as [e|] eqn:He; [|reflexivity].
  apply lookup_lt_Some in He. apply IH; [lia|].
  destruct queries; [cbn in Hl; lia|discriminate].
Qed.

(** X25. With fewer expected pages than queries, [evaluate_retrieval]
    on a built index raises [IndexError] instead of returning an
    accuracy, after the searches for the queries that have one. *)
Theorem evaluate_retrieval_short_expected (fuel : nat) (pipeline : t)
    (queries : list string) (expected_pages : list Z) (top_k : Z)
    (cs : list Chunk) :
  Spec.built_over pipeline cs ->
  cs <> [] ->
  1 <= top_k ->
  (length expected_pages < length queries)%nat ->
  EvaluateRetrieval.evaluate_retrieval (search fuel) pipeline queries
    expected_pages top_k
  = (pipeline, Raise IndexError).
Proof.
  intros Hb Hne Hk Hl. unfold EvaluateRetrieval.evaluate_retrieval.
  rewrite (loop_short_expected fuel pipeline top_k cs expected_pages queries
             Hb Hne Hk 0 0); [reflexivity|lia|].
  destruct queries; [cbn in Hl; lia|discriminate].
Qed.

(** X26. A bot whose retrieval pipeline has an index built over at
    least one chunk answers every text message from the first chunk with
    the largest score for it: that chunk is the context given to the
    model, and on success its page and text go into the reply and the
    new record. When the model fails, the bot is left exactly as it
    was. *)
Theorem bot_answers_from_best_chunk (fuel : nat)
    (self : TelegramRAGBot.t PDFRAGPipeline.t) (user_query : string)
    (cs : list Chunk) (total correct incorrect : Z) (recs : list value) :
  Spec.built_over (TelegramRAGBot.retrieval_pipeline self) cs ->
  cs <> [] ->
  TelegramRAGBot.stats self = Spec.stats_dict total correct incorrect ->
  TelegramRAGBot.qa_log self = PList recs ->
  exists (i : nat) (c : Chunk),
    cs !! i = Some c
    /\ first_best lt (get_scores (map tokens cs) (split user_query)) i
    /\ TelegramRAGBot.answer_query (search fuel) self user_query
       = match LLMPipeline.generate_answer (TelegramRAGBot.llm_pipeline self)
                 user_query (chunk c) with
         | Ok answer =>
             (TelegramRAGBot.set_qa_log
                (TelegramRAGBot.set_stats self
                   (Spec.stats_dict (total + 1) correct incorrect))
                (PList (recs ++ [TelegramRAGBot.qa_record user_query (chunk c)
                                   (page c) answer])),
              Ok [TelegramRAGBot.reply_text
                    (TelegramRAGBot.AnswerMsg (page c) answer)])
         | Raise e =>
             (self, Ok [TelegramRAGBot.logger_error e;
                        TelegramRAGBot.reply_text TelegramRAGBot.ErrorMsg])
         | OutOfFuel => (self, OutOfFuel)
         end.
Proof.
  intros Hb Hne Hst Hlog.
  set (scores := get_scores (map tokens cs) (split user_query)).
  assert (Hlen : length scores = length cs)
    by apply (Index.scores_length get_scores get_scores_length).
  destruct (Index.sorted_reverse_head lt lt_irrefl lt_trans lt_neg_trans
              scores) as (i & rest & Hs & Hbest).
  { intros E. rewrite E in Hlen. destruct cs; [congruence|discriminate]. }
  assert (Hi : (i < length cs)%nat).
  { destruct Hbest as (si & Hsi & _). rewrite <- Hlen.
    exact (lookup_lt_Some _ _ _ Hsi). }
  destruct (lookup_lt_is_Some_2 cs i Hi) as [c Hc].
  exists i, c. split; [exact Hc|]. split; [exact Hbest|].
  unfold TelegramRAGBot.answer_query, TelegramRAGBot.answer_try.
  rewrite (Index.search_query_built lt get_scores fuel _ user_query 1 cs Hb).
  fold scores. unfold top_indices. rewrite Retrieval.slice_top_k by lia.
  rewrite Hs. change (Z.to_nat 1) with 1%nat.
  change (take 1 (i :: rest)) with [i]. cbn [select]. rewrite Hc.
  cbn [bind chunk page].
  assert (Hself : TelegramRAGBot.set_retrieval self
                    (TelegramRAGBot.retrieval_pipeline self) = self)
    by (destruct self; reflexivity).
  rewrite Hself.
  destruct (LLMPipeline.generate_answer _ user_query (chunk c)); try reflexivity.
  rewrite Hst, Ledger.iadd_total.
  cbn [TelegramRAGBot.set_stats TelegramRAGBot.qa_log]. rewrite Hlog.
  cbn [append]. reflexivity.
Qed.

End Built.

Lemma evaluate_retrieval_bounds_witness :
  0 <= 1 <= 2 /\ 2 = Z.of_nat (length ["gamma0000"; "theta0000"])
  /\ (length ["gamma0000"; "theta0000"] <= length [1; 1; 7])%nat.
Proof.
  apply (evaluate_retrieval_bounds Sample.search Sample.built Sample.built
           ["gamma0000"; "theta0000"] [1; 1; 7] 1 1 2).
  vm_compute. reflexivity.
Defined.

Lemma evaluate_retrieval_on_built_index_witness :
  EvaluateRetrieval.evaluate_retrieval Sample.search Sample.built
    ["gamma0000"; "theta0000"] [1; 1; 7] 2
  = (Sample.built,
     Ok (count (hit Sample.search Sample.built 2)
           (zip ["gamma0000"; "theta0000"] [1; 1; 7]),
         Z.of_nat (length ["gamma0000"; "theta0000"]))).
Proof.
  apply (evaluate_retrieval_on_built_index Z.ltb Sample.overlap_scores
           Retrieval.overlap_scores_length 10 Sample.built
           ["gamma0000"; "theta0000"] [1; 1; 7] 2
           [mkChunk 1 "alpha0000 beta00000 gamma0000";
            mkChunk 1 "gamma0000 delta0000 epsilon00";
            mkChunk 3 "zeta00000 eta000000 theta0000"]).
  - exact Retrieval.sample_built_over.
  - discriminate.
  - lia.
  - cbn. lia.
Defined.

Lemma evaluate_retrieval_top_k_zero_witness :
  EvaluateRetrieval.evaluate_retrieval Sample.search Sample.built
    ["gamma0000"; "theta0000"] [1; 3] 0
  = (Sample.built, Raise IndexError).
Proof.
  apply (evaluate_retrieval_top_k_zero Z.ltb Sample.overlap_scores 10
           Sample.built "gamma0000" ["theta0000"] [1; 3]
           [mkChunk 1 "alpha0000 beta00000 gamma0000";
            mkChunk 1 "gamma0000 delta0000 epsilon00";
            mkChunk 3 "zeta00000 eta000000 theta0000"]).
  exact Retrieval.sample_built_over.
Defined.

Lemma evaluate_retrieval_short_expected_witness :
  EvaluateRetrieval.evaluate_retrieval Sample.search Sample.built
    ["gamma0000"; "theta0000"] [1] 1
  = (Sample.built, Raise IndexError).
Proof.
  apply (evaluate_retrieval_short_expected Z.ltb Sample.overlap_scores
           Retrieval.overlap_scores_length 10 Sample.built
           ["gamma0000"; "theta0000"] [1] 1
           [mkChunk 1 "alpha0000 beta00000 gamma0000";
            mkChunk 1 "gamma0000 delta0000 epsilon00";
            mkChunk 3 "zeta00000 eta000000 theta0000"]).
  - exact Retrieval.sample_built_over.
  - discriminate.
  - lia.
  - cbn. lia.
Defined.

Lemma bot_answers_from_best_chunk_witness :
  exists (i : nat) (c : Chunk),
    [mkChunk 1 "alpha0000 beta00000 gamma0000";
     mkChunk 1 "gamma0000 delta0000 epsilon00";
     mkChunk 3 "zeta00000 eta000000 theta0000"] !! i = Some c
    /\ first_best Z.ltb
         (Sample.overlap_scores
            (map tokens [mkChunk 1 "alpha0000 beta00000 gamma0000";
                         mkChunk 1 "gamma0000 delta0000 epsilon00";
                         mkChunk 3 "zeta00000 eta000000 theta0000"])
            (split "theta0000")) i
    /\ TelegramRAGBot.answer_query Sample.search Sample.bot "theta0000"
       = match LLMPipeline.generate_answer
                 (TelegramRAGBot.llm_pipeline Sample.bot) "theta0000"
                 (chunk c) with
         | Ok answer =>
             (TelegramRAGBot.set_qa_log
                (TelegramRAGBot.set_stats Sample.bot
                   (Spec.stats_dict (0 + 1) 0 0))
                (PList ([] ++ [TelegramRAGBot.qa_record "theta0000" (chunk c)
                                 (page c) answer])),
              Ok [TelegramRAGBot.reply_text
                    (TelegramRAGBot.AnswerMsg (page c) answer)])
         | Raise e =>
             (Sample.bot, Ok [TelegramRAGBot.logger_error e;
                              TelegramRAGBot.reply_text TelegramRAGBot.ErrorMsg])
         | OutOfFuel => (Sample.bot, OutOfFuel)
         end.
Proof.
  apply (bot_answers_from_best_chunk Z.ltb Sample.overlap_scores
           Z.ltb_irrefl Retrieval.Zltb_trans Retrieval.Zltb_neg_trans
           Retrieval.overlap_scores_length 10 Sample.bot "theta0000"
           [mkChunk 1 "alpha0000 beta00000 gamma0000";
            mkChunk 1 "gamma0000 delta0000 epsilon00";
            mkChunk 3 "zeta00000 eta000000 theta0000"] 0 0 0 []).
  - exact Retrieval.sample_built_over.
  - discriminate.
  - reflexivity.
  - reflexivity.
Defined.

(** The accuracy on the sample: one of the two queries is answered from
    the expected page. *)
Example sample_accuracy :
  snd (EvaluateRetrieval.evaluate_retrieval Sample.search Sample.built
         ["gamma0000"; "theta0000"] [1; 1] 1)
  = Ok (1, 2).
Proof. vm_compute. reflexivity. Qed.

End Callers.
